(** * HelloHealth frontend (Frontend/script.js): a shallow embedding

    The script is browser glue code.  Its observable behaviour is the
    sequence of DOM writes, console writes and network requests it
    performs, so the embedding is state passing over a small page record
    that also keeps the ordered list of effects.  JavaScript strings are
    sequences of UTF-16 code units and JavaScript numbers are IEEE-754
    binary64 values (the Standard Library's [SpecFloat], the executable
    specification of the kernel's floats). *)

From Stdlib Require Import ZArith NArith List Bool Lia String Ascii.
From Stdlib Require Import SpecFloat.
Import ListNotations.

Local Open Scope Z_scope.

(* ================================================================== *)
(** * The language layer: strings                                      *)
(* ================================================================== *)

Module JS.

(** A JavaScript string is a finite sequence of 16-bit code units. *)
Definition code_unit := N.
Definition jsstring := list code_unit.

(** An ASCII literal of the script as a JavaScript string. *)
Definition lit (s : string) : jsstring :=
  map N_of_ascii (list_ascii_of_string s).

(** U+0022, the double quote. *)
Definition dq : jsstring := [34%N].

(** U+000A: line breaks inside template literals are LF. *)
Definition nl : jsstring := [10%N].

Definition code_unit_eqb : code_unit -> code_unit -> bool := N.eqb.

Fixpoint jsstring_eqb (a b : jsstring) : bool :=
  match a, b with
  | [], [] => true
  | x :: a', y :: b' => code_unit_eqb x y && jsstring_eqb a' b'
  | _, _ => false
  end.

(** ECMAScript WhiteSpace and LineTerminator code points; all of them
    are in the basic plane, one code unit each.  These are the code
    units [String.prototype.trim] strips and [StringToNumber] skips. *)
Definition is_white_space (c : code_unit) : bool :=
  let c := Z.of_N c in
  (c =? 0x09) || (c =? 0x0A) || (c =? 0x0B) || (c =? 0x0C) || (c =? 0x0D)
  || (c =? 0x20) || (c =? 0xA0) || (c =? 0x1680)
  || ((0x2000 <=? c) && (c <=? 0x200A))
  || (c =? 0x2028) || (c =? 0x2029) || (c =? 0x202F) || (c =? 0x205F)
  || (c =? 0x3000) || (c =? 0xFEFF).

Fixpoint trimStart (s : jsstring) : jsstring :=
  match s with
  | c :: s' => if is_white_space c then trimStart s' else s
  | [] => []
  end.

Definition trimEnd (s : jsstring) : jsstring := rev (trimStart (rev s)).

(** [String.prototype.trim]. *)
Definition trim (s : jsstring) : jsstring := trimEnd (trimStart s).

(** ToBoolean on a string: the empty string is the only falsy one. *)
Definition truthy (s : jsstring) : bool :=
  match s with [] => false | _ :: _ => true end.

(** Substring search, used to phrase what a fragment contains. *)
Fixpoint starts_with (p s : jsstring) : bool :=
  match p, s with
  | [], _ => true
  | x :: p', y :: s' => code_unit_eqb x y && starts_with p' s'
  | _ :: _, [] => false
  end.

(** The rest of [s] after the first occurrence of [p], if there is one. *)
Fixpoint after_first (p s : jsstring) : option jsstring :=
  if starts_with p s then Some (skipn (List.length p) s)
  else match s with
       | [] => None
       | _ :: s' => after_first p s'
       end.

Definition includes (s p : jsstring) : bool :=
  match after_first p s with Some _ => true | None => false end.

(** How many positions of [s] the string [p] starts at. *)
Fixpoint count_occurrences (p s : jsstring) : nat :=
  match s with
  | [] => if starts_with p s then 1%nat else 0%nat
  | _ :: s' =>
      ((if starts_with p s then 1 else 0) + count_occurrences p s')%nat
  end.

(** [ps] occur in [s] one after the other, without overlap. *)
Fixpoint includes_in_order (s : jsstring) (ps : list jsstring) : bool :=
  match ps with
  | [] => true
  | p :: ps' =>
      match after_first p s with
      | Some rest => includes_in_order rest ps'
      | None => false
      end
  end.


(* ------------------------------------------------------------------ *)
(** ** Numbers: IEEE-754 binary64                                      *)
(* ------------------------------------------------------------------ *)

Definition prec : Z := 53.
Definition emax : Z := 1024.

Definition number := spec_float.

Definition NaN : number := S754_nan.
Definition pos_zero : number := S754_zero false.
Definition pos_infinity : number := S754_infinity false.

(** The Number value of an integer (rounded to nearest, ties to even). *)
Definition of_Z (n : Z) : number := binary_normalize prec emax n 0 false.

(** The Number value of the decimal [digits * 10^exp10], correctly
    rounded: this is how a decimal literal, in the script or in a JSON
    body, denotes a number. *)
Definition of_decimal (digits : N) (exp10 : Z) : number :=
  match digits with
  | N0 => pos_zero
  | Npos d =>
      if 0 <=? exp10 then of_Z (Zpos d * 10 ^ exp10)
      else SFdiv prec emax (S754_finite false d 0)
                           (S754_finite false (Z.to_pos (10 ^ (- exp10))) 0)
  end.

Definition number_eqb (x y : number) : bool :=
  match x, y with
  | S754_zero s, S754_zero t => Bool.eqb s t
  | S754_infinity s, S754_infinity t => Bool.eqb s t
  | S754_nan, S754_nan => true
  | S754_finite s m e, S754_finite t n f =>
      Bool.eqb s t && Pos.eqb m n && Z.eqb e f
  | _, _ => false
  end.

(** The arithmetic operators [-], [*], [/] and [Math.sqrt]. *)
Definition sub : number -> number -> number := SFsub prec emax.
Definition add : number -> number -> number := SFadd prec emax.
Definition mul : number -> number -> number := SFmul prec emax.
Definition div : number -> number -> number := SFdiv prec emax.
Definition Math_sqrt : number -> number := SFsqrt prec emax.

(** [Math.max] and [Math.min] on two numbers: NaN if either is NaN, and
    +0 is larger than -0. *)
Definition Math_max (a b : number) : number :=
  match SFcompare a b with
  | None => NaN
  | Some Lt => b
  | Some Gt => a
  | Some Eq =>
      match a, b with
      | S754_zero true, S754_zero false => b
      | _, _ => a
      end
  end.

Definition Math_min (a b : number) : number :=
  match SFcompare a b with
  | None => NaN
  | Some Lt => a
  | Some Gt => b
  | Some Eq =>
      match a, b with
      | S754_zero false, S754_zero true => b
      | _, _ => a
      end
  end.

(** [Math.round]: the closest integral Number, ties towards +Infinity;
    NaN, the infinities and the zeros are returned as they are, and a
    value in [-0.5, 0) gives -0. *)
Definition Math_round (x : number) : number :=
  match x with
  | S754_finite s m e =>
      if 0 <=? e then x
      else
        let n := cond_Zopp s (Zpos m) in
        let r := (2 * n + 2 ^ (- e)) / 2 ^ (1 - e) in
        if r =? 0 then S754_zero s else of_Z r
  | _ => x
  end.

(** *** Predicates on numbers *)

(** Numbers that are neither NaN nor infinite, and those above zero. *)
Definition finite (x : number) : bool :=
  match x with
  | S754_zero _ | S754_finite _ _ _ => true
  | S754_infinity _ | S754_nan => false
  end.

Definition positive_finite (x : number) : bool :=
  match x with
  | S754_finite false _ _ => true
  | _ => false
  end.

(** [lo <= x <= hi] for the exact value of [x] and integers [lo], [hi]:
    a finite [x] is [(+/-) m * 2 ^ e]. *)
Definition in_range (lo hi : Z) (x : number) : bool :=
  match x with
  | S754_zero _ => (lo <=? 0) && (0 <=? hi)
  | S754_finite s m e =>
      let n := cond_Zopp s (Zpos m) in
      if 0 <=? e
      then (lo <=? n * 2 ^ e) && (n * 2 ^ e <=? hi)
      else (lo * 2 ^ (- e) <=? n) && (n <=? hi * 2 ^ (- e))
  | S754_infinity _ | S754_nan => false
  end.

(** Zero, infinite or finite with at most 53 bits, of sign [s]. *)
Inductive shape (s : bool) : number -> Prop :=
| shape_zero : shape s (S754_zero s)
| shape_infinity : shape s (S754_infinity s)
| shape_finite m e : Zpos m < 2 ^ 53 -> shape s (S754_finite s m e).

(** Not NaN, and at most 53 bits of mantissa. *)
Definition wf (x : number) : Prop :=
  match x with
  | S754_nan => False
  | S754_finite _ m _ => Zpos m < 2 ^ 53
  | S754_zero _ | S754_infinity _ => True
  end.

(** Finite or zero. *)
Definition fin (x : number) : Prop :=
  match x with
  | S754_zero _ | S754_finite _ _ _ => True
  | S754_infinity _ | S754_nan => False
  end.

(** [|x| <= Mb * 2 ^ Eb], for a finite [x] whose exponent is at most
    [Eb]. *)
Definition mag_le (x : number) (Mb : positive) (Eb : Z) : Prop :=
  match x with
  | S754_zero _ => True
  | S754_finite _ m e => e <= Eb /\ Zpos m <= Zpos Mb * 2 ^ (Eb - e)
  | S754_infinity _ | S754_nan => False
  end.

(** *** Number::toString (radix 10) *)

Fixpoint uint_digits (u : Decimal.uint) : jsstring :=
  match u with
  | Decimal.Nil => []
  | Decimal.D0 u' => 48%N :: uint_digits u'
  | Decimal.D1 u' => 49%N :: uint_digits u'
  | Decimal.D2 u' => 50%N :: uint_digits u'
  | Decimal.D3 u' => 51%N :: uint_digits u'
  | Decimal.D4 u' => 52%N :: uint_digits u'
  | Decimal.D5 u' => 53%N :: uint_digits u'
  | Decimal.D6 u' => 54%N :: uint_digits u'
  | Decimal.D7 u' => 55%N :: uint_digits u'
  | Decimal.D8 u' => 56%N :: uint_digits u'
  | Decimal.D9 u' => 57%N :: uint_digits u'
  end.

(** The decimal digits of a natural number, ["0"] for zero. *)
Definition decimal_digits (n : N) : jsstring :=
  match n with
  | N0 => [48%N]
  | Npos p => uint_digits (Pos.to_uint p)
  end.

(** [x = num / den], both positive. *)
Definition ratio_of (m : positive) (e : Z) : Z * Z :=
  if 0 <=? e then (Zpos m * 2 ^ e, 1) else (Zpos m, 2 ^ (- e)).

(** [num / den < 10 ^ n]. *)
Definition below_pow10 (num den n : Z) : bool :=
  if 0 <=? n then num <? den * 10 ^ n else num * 10 ^ (- n) <? den.

(** The least [n], from [n] upwards, with [num / den < 10 ^ n]. *)
Fixpoint magnitude10 (fuel : nat) (num den n : Z) : Z :=
  match fuel with
  | O => n
  | S fuel' =>
      if below_pow10 num den n then n
      else magnitude10 fuel' num den (n + 1)
  end.

(** A candidate [s * 10 ^ (n - k)] for the digits of [x = num / den],
    with its distance to [x] as a fraction. *)
Record candidate := { cand_s : Z; cand_n : Z; cand_dist : Z * Z }.

Definition candidates_at (x : number) (num den : Z) (k n : Z)
  : list candidate :=
  let sh := n - k in
  let lo := if 0 <=? sh then num / (den * 10 ^ sh)
            else (num * 10 ^ (- sh)) / den in
  let dist s := if 0 <=? sh then (Z.abs (s * 10 ^ sh * den - num), den)
                else (Z.abs (s * den - num * 10 ^ (- sh)),
                      den * 10 ^ (- sh)) in
  let ok s :=
    (10 ^ (k - 1) <=? s) && (s <? 10 ^ k)
    && number_eqb (of_decimal (Z.to_N s) sh) x in
  map (fun s => {| cand_s := s; cand_n := n; cand_dist := dist s |})
      (filter ok [lo; lo + 1]).

(** Closer to [x]; at equal distance the even [s]. *)
Definition better (a b : candidate) : candidate :=
  let '(an, ad) := cand_dist a in
  let '(bn, bd) := cand_dist b in
  match an * bd ?= bn * ad with
  | Lt => a
  | Gt => b
  | Eq => if Z.even (cand_s a) then a else b
  end.

Definition best (l : list candidate) : option candidate :=
  match l with
  | [] => None
  | c :: l' => Some (fold_left better l' c)
  end.

(** The integers [n], [k], [s] of Number::toString: [k] as small as
    possible with [s * 10 ^ (n - k)] denoting [x]. *)
Fixpoint shortest (fuel : nat) (x : number) (num den n0 k : Z)
  : option (Z * candidate) :=
  match fuel with
  | O => None
  | S fuel' =>
      match best (candidates_at x num den k n0
                  ++ candidates_at x num den k (n0 + 1)) with
      | Some c => Some (k, c)
      | None => shortest fuel' x num den n0 (k + 1)
      end
  end.

Definition zeros (n : Z) : jsstring := repeat 48%N (Z.to_nat n).

Definition format_decimal (digits : jsstring) (k n : Z) : jsstring :=
  if (k <=? n) && (n <=? 21) then digits ++ zeros (n - k)
  else if (0 <? n) && (n <=? 21) then
    firstn (Z.to_nat n) digits ++ lit "." ++ skipn (Z.to_nat n) digits
  else if (-6 <? n) && (n <=? 0) then
    lit "0." ++ zeros (- n) ++ digits
  else
    let e := n - 1 in
    let exponent :=
      lit "e" ++ (if 0 <=? e then lit "+" else lit "-")
      ++ decimal_digits (Z.to_N (Z.abs e)) in
    if k =? 1 then digits ++ exponent
    else firstn 1 digits ++ lit "." ++ skipn 1 digits ++ exponent.

Definition Number_toString (x : number) : jsstring :=
  match x with
  | S754_nan => lit "NaN"
  | S754_zero _ => lit "0"
  | S754_infinity s => (if s then lit "-" else []) ++ lit "Infinity"
  | S754_finite s m e =>
      let '(num, den) := ratio_of m e in
      let n0 := magnitude10 640 num den (-324) in
      (if s then lit "-" else [])
      ++ match shortest 17 (S754_finite false m e) num den n0 1 with
         | Some (k, c) =>
             format_decimal (decimal_digits (Z.to_N (cand_s c))) k (cand_n c)
         | None => []
         end
  end.

(** *** StringToNumber *)

Definition is_digit (c : code_unit) : bool :=
  N.leb 48 c && N.leb c 57.

Fixpoint span_digits (s : jsstring) : jsstring * jsstring :=
  match s with
  | c :: s' =>
      if is_digit c
      then let '(ds, rest) := span_digits s' in (c :: ds, rest)
      else ([], s)
  | [] => ([], [])
  end.

Definition digits_value (ds : jsstring) : N :=
  fold_left (fun acc c => (acc * 10 + (c - 48))%N) ds 0%N.

(** The optional ExponentPart that must end the literal. *)
Definition parse_exponent (s : jsstring) : option Z :=
  match s with
  | [] => Some 0
  | c :: r =>
      if N.eqb c 101 || N.eqb c 69 then
        let '(sign, r') :=
          match r with
          | 43%N :: r' => (1, r')
          | 45%N :: r' => (-1, r')
          | _ => (1, r)
          end in
        match span_digits r' with
        | ([], _) => None
        | (ds, []) => Some (sign * Z.of_N (digits_value ds))
        | (_, _ :: _) => None
        end
      else None
  end.

Definition parse_unsigned_decimal (s : jsstring) : option number :=
  if jsstring_eqb s (lit "Infinity") then Some pos_infinity
  else
    let '(ip, r1) := span_digits s in
    match r1 with
    | 46%N :: r2 =>
        let '(fp, r3) := span_digits r2 in
        match ip ++ fp with
        | [] => None
        | ds =>
            match parse_exponent r3 with
            | Some e =>
                Some (of_decimal (digits_value ds)
                                 (e - Z.of_nat (List.length fp)))
            | None => None
            end
        end
    | _ =>
        match ip with
        | [] => None
        | _ =>
            match parse_exponent r1 with
            | Some e => Some (of_decimal (digits_value ip) e)
            | None => None
            end
        end
    end.

(** The value of a digit in a radix up to 16, if it is one. *)
Definition digit_in_radix (radix : N) (c : code_unit) : option N :=
  let v :=
    if is_digit c then Some (c - 48)%N
    else if N.leb 97 c && N.leb c 102 then Some (c - 87)%N
    else if N.leb 65 c && N.leb c 70 then Some (c - 55)%N
    else None in
  match v with
  | Some d => if N.ltb d radix then Some d else None
  | None => None
  end.

Fixpoint radix_value (radix : N) (acc : N) (s : jsstring) : option N :=
  match s with
  | [] => Some acc
  | c :: s' =>
      match digit_in_radix radix c with
      | Some d => radix_value radix (acc * radix + d)%N s'
      | None => None
      end
  end.

(** NonDecimalIntegerLiteral: [0b], [0o] and [0x] forms, unsigned. *)
Definition parse_non_decimal (s : jsstring) : option number :=
  match s with
  | 48%N :: p :: ds =>
      let radix :=
        if N.eqb p 120 || N.eqb p 88 then Some 16%N
        else if N.eqb p 111 || N.eqb p 79 then Some 8%N
        else if N.eqb p 98 || N.eqb p 66 then Some 2%N
        else None in
      match radix, ds with
      | Some r, _ :: _ =>
          match radix_value r 0%N ds with
          | Some v => Some (of_Z (Z.of_N v))
          | None => None
          end
      | _, _ => None
      end
  | _ => None
  end.

Definition parse_numeric_literal (s : jsstring) : option number :=
  match parse_non_decimal s with
  | Some x => Some x
  | None =>
      match s with
      | 43%N :: s' => parse_unsigned_decimal s'
      | 45%N :: s' => option_map (SFopp) (parse_unsigned_decimal s')
      | _ => parse_unsigned_decimal s
      end
  end.

Definition StringToNumber (s : jsstring) : number :=
  match trim s with
  | [] => pos_zero
  | t =>
      match parse_numeric_literal t with
      | Some x => x
      | None => NaN
      end
  end.
(* ------------------------------------------------------------------ *)
(** ** Values that come out of a JSON body, and their conversions      *)
(* ------------------------------------------------------------------ *)

(** What [response.json()] resolves with.  An object is its own
    properties in order; when a name is repeated the last one counts,
    as [JSON.parse] has it. *)
#[local] Unset Elimination Schemes.
Inductive json : Type :=
| JNull
| JBool (b : bool)
| JNumber (x : number)
| JString (s : jsstring)
| JArray (elems : list json)
| JObject (props : list (jsstring * json)).
#[local] Set Elimination Schemes.

(** A value read from a property: [None] is [undefined]. *)
Definition value := option json.

Inductive error : Type :=
| EngineTypeError                        (* raised by the language itself *)
| Rejection (name message : jsstring)    (* reason given by a host API *)
| NewError (message : jsstring).         (* [new Error(message)] *)

Inductive completion (A : Type) : Type :=
| Normal (a : A)
| Throw (e : error).
Arguments Normal {A} a.
Arguments Throw {A} e.

Definition and_then {A B} (c : completion A) (k : A -> completion B)
  : completion B :=
  match c with
  | Normal a => k a
  | Throw e => Throw e
  end.

Fixpoint own_property (props : list (jsstring * json)) (key : jsstring)
  : value :=
  match props with
  | [] => None
  | (k, v) :: rest =>
      match own_property rest key with
      | Some v' => Some v'
      | None => if jsstring_eqb k key then Some v else None
      end
  end.

Definition has_own (props : list (jsstring * json)) (key : jsstring) : bool :=
  match own_property props key with Some _ => true | None => false end.

(** [data.key] for a property name that no built-in prototype defines
    and that is not an index or [length] (the script reads [diagnosis],
    [confidence] and [recommendation]): reading from [null] throws, a
    primitive or an array has no such property. *)
Definition Get (data : json) (key : jsstring) : completion value :=
  match data with
  | JNull => Throw EngineTypeError
  | JObject props => Normal (own_property props key)
  | JBool _ | JNumber _ | JString _ | JArray _ => Normal None
  end.

(** ToString.  An object from JSON has no callable property of its own:
    one with an own [toString] has no primitive value (TypeError), any
    other prints as [[object Object]]; an array joins its elements with
    commas, [null] printing as the empty string there. *)
Fixpoint ToString_json (v : json) : completion jsstring :=
  match v with
  | JNull => Normal (lit "null")
  | JBool b => Normal (if b then lit "true" else lit "false")
  | JNumber x => Normal (Number_toString x)
  | JString s => Normal s
  | JArray elems =>
      (fix join (l : list json) : completion jsstring :=
         match l with
         | [] => Normal []
         | e :: rest =>
             match (match e with JNull => Normal [] | _ => ToString_json e end)
             with
             | Throw err => Throw err
             | Normal s =>
                 match rest with
                 | [] => Normal s
                 | _ :: _ =>
                     match join rest with
                     | Throw err => Throw err
                     | Normal t => Normal (s ++ lit "," ++ t)
                     end
                 end
             end
         end) elems
  | JObject props =>
      if has_own props (lit "toString") then Throw EngineTypeError
      else Normal (lit "[object Object]")
  end.

Definition ToString (v : value) : completion jsstring :=
  match v with
  | None => Normal (lit "undefined")
  | Some j => ToString_json j
  end.

(** ToNumber. *)
Definition ToNumber (v : value) : completion number :=
  match v with
  | None => Normal NaN
  | Some JNull => Normal pos_zero
  | Some (JBool b) => Normal (if b then of_Z 1 else pos_zero)
  | Some (JNumber x) => Normal x
  | Some (JString s) => Normal (StringToNumber s)
  | Some (JArray _ as o) | Some (JObject _ as o) =>
      match ToString_json o with
      | Normal s => Normal (StringToNumber s)
      | Throw err => Throw err
      end
  end.

(** *** JSON.stringify of a string *)

Definition hex_digit (n : N) : code_unit :=
  if N.ltb n 10 then (48 + n)%N else (87 + n)%N.

Definition unicode_escape (c : code_unit) : jsstring :=
  [92%N; 117%N;
   hex_digit (N.modulo (N.div c 4096) 16); hex_digit (N.modulo (N.div c 256) 16);
   hex_digit (N.modulo (N.div c 16) 16); hex_digit (N.modulo c 16)].

Definition is_high_surrogate (c : code_unit) : bool :=
  N.leb 0xD800 c && N.leb c 0xDBFF.
Definition is_low_surrogate (c : code_unit) : bool :=
  N.leb 0xDC00 c && N.leb c 0xDFFF.

Fixpoint quote_units (s : jsstring) : jsstring :=
  match s with
  | [] => []
  | c :: s' =>
      if is_high_surrogate c then
        match s' with
        | d :: s'' =>
            if is_low_surrogate d then c :: d :: quote_units s''
            else unicode_escape c ++ quote_units s'
        | [] => unicode_escape c
        end
      else if is_low_surrogate c then unicode_escape c ++ quote_units s'
      else if N.eqb c 8 then [92%N; 98%N] ++ quote_units s'
      else if N.eqb c 9 then [92%N; 116%N] ++ quote_units s'
      else if N.eqb c 10 then [92%N; 110%N] ++ quote_units s'
      else if N.eqb c 12 then [92%N; 102%N] ++ quote_units s'
      else if N.eqb c 13 then [92%N; 114%N] ++ quote_units s'
      else if N.eqb c 34 then [92%N; 34%N] ++ quote_units s'
      else if N.eqb c 92 then [92%N; 92%N] ++ quote_units s'
      else if N.ltb c 32 then unicode_escape c ++ quote_units s'
      else c :: quote_units s'
  end.

Definition QuoteJSONString (s : jsstring) : jsstring :=
  dq ++ quote_units s ++ dq.

(** [JSON.stringify({ key: value })] for a string [value]. *)
Definition JSON_stringify_object1 (key value : jsstring) : jsstring :=
  lit "{" ++ QuoteJSONString key ++ lit ":" ++ QuoteJSONString value ++ lit "}".

(** [1 <= m * 2 ^ e], for an exponent of either sign. *)
Definition at_least_one (m e : Z) : Prop :=
  (0 <= e /\ 1 <= m) \/ (e < 0 /\ 2 ^ (- e) <= m).

(** [m * 2 ^ e = n] over the integers, for an exponent of either sign. *)
Definition scaled (m e n : Z) : Prop :=
  (0 <= e /\ m * 2 ^ e = n) \/ (e < 0 /\ m = n * 2 ^ (- e)).

(** [Math.ceil]: the least integral Number not below [x]; NaN, the
    infinities and the zeros are returned as they are, and a value in
    (-1, 0) gives -0. *)
Definition Math_ceil (x : number) : number :=
  match x with
  | S754_finite s m e =>
      if 0 <=? e then x
      else
        let n := cond_Zopp s (Zpos m) in
        let c := - ((- n) / 2 ^ (- e)) in
        if c =? 0 then S754_zero s else of_Z c
  | _ => x
  end.

End JS.

(* ================================================================== *)
(** * The symptom query: page state, dispatcher, renderer, wiring      *)
(* ================================================================== *)

Module Query.
Import JS.

(** The elements the DOMContentLoaded handler looks up and writes to
    (they are assumed to exist: the handler would fail at once
    otherwise). *)
Inductive element : Type :=
| resultContainer      (* #result-container *)
| resultsList          (* #results-list *)
| searchInput.         (* #symptom-input *)

(** The second argument of [fetch]. *)
Record RequestInit : Type := {
  method : jsstring;
  headers : list (jsstring * jsstring);
  body : jsstring
}.

(** What the script does to its surroundings, in the order it does it. *)
Inductive effect : Type :=
| ClassListAdd (el : element) (token : jsstring)
| ClassListRemove (el : element) (token : jsstring)
| SetInnerHTML (el : element) (html : jsstring)
| SetValue (el : element) (v : jsstring)
| Fetch (url : jsstring) (init : RequestInit)
| ConsoleError (label : jsstring) (e : error).

(** The part of the page the script reads and writes, and the log of
    its effects, oldest first.  [innerHTML] holds the string last
    assigned, [value] what the field keeps of it. *)
Record page : Type := {
  container_classList : list jsstring;   (* resultContainer.classList *)
  results_innerHTML : jsstring;          (* resultsList.innerHTML *)
  input_value : jsstring;                (* searchInput.value *)
  effects : list effect
}.

(** Computations: state passing over the page, with exceptions. *)
Definition js (A : Type) : Type := page -> completion A * page.

Definition ret {A} (a : A) : js A := fun p => (Normal a, p).
Definition throw {A} (e : error) : js A := fun p => (Throw e, p).
Definition bind {A B} (m : js A) (k : A -> js B) : js B :=
  fun p =>
    match m p with
    | (Normal a, p') => k a p'
    | (Throw e, p') => (Throw e, p')
    end.
Definition lift {A} (c : completion A) : js A := fun p => (c, p).

Notation "x <- m ;; k" := (bind m (fun x => k))
  (at level 61, m at next level, right associativity).
Notation "m ;; k" := (bind m (fun _ => k))
  (at level 61, right associativity).

(** [try { body } catch (error) { handler error } finally { cleanup }]. *)
Definition try_catch_finally {A} (body : js A) (handler : error -> js A)
    (cleanup : js unit) : js A :=
  fun p =>
    let '(r, p1) :=
      match body p with
      | (Normal a, p') => (Normal a, p')
      | (Throw e, p') => handler e p'
      end in
    match cleanup p1 with
    | (Normal _, p2) => (r, p2)
    | (Throw e, p2) => (Throw e, p2)
    end.

Definition log (e : effect) (p : page) : page :=
  {| container_classList := container_classList p;
     results_innerHTML := results_innerHTML p;
     input_value := input_value p;
     effects := effects p ++ [e] |}.

Definition contains (l : list jsstring) (token : jsstring) : bool :=
  existsb (jsstring_eqb token) l.

(** [resultContainer.classList.add(token)] *)
Definition classList_add (token : jsstring) : js unit :=
  fun p =>
    let p := log (ClassListAdd resultContainer token) p in
    (Normal tt,
     {| container_classList :=
          if contains (container_classList p) token
          then container_classList p
          else container_classList p ++ [token];
        results_innerHTML := results_innerHTML p;
        input_value := input_value p;
        effects := effects p |}).

(** [resultContainer.classList.remove(token)] *)
Definition classList_remove (token : jsstring) : js unit :=
  fun p =>
    let p := log (ClassListRemove resultContainer token) p in
    (Normal tt,
     {| container_classList :=
          filter (fun t => negb (jsstring_eqb token t)) (container_classList p);
        results_innerHTML := results_innerHTML p;
        input_value := input_value p;
        effects := effects p |}).

(** [resultsList.innerHTML = html] *)
Definition set_innerHTML (html : jsstring) : js unit :=
  fun p =>
    let p := log (SetInnerHTML resultsList html) p in
    (Normal tt,
     {| container_classList := container_classList p;
        results_innerHTML := html;
        input_value := input_value p;
        effects := effects p |}).

(** What the value setter of a single-line text field keeps of the
    string assigned: line feeds and carriage returns are dropped. *)
Definition is_line_break (c : code_unit) : bool :=
  N.eqb c 10 || N.eqb c 13.

Definition strip_newlines (s : jsstring) : jsstring :=
  filter (fun c => negb (is_line_break c)) s.

(** [searchInput.value = v].  [#symptom-input] is the text input field
    the user types the symptoms into: a single-line field, which holds
    the string assigned without its line breaks. *)
Definition set_value (v : jsstring) : js unit :=
  fun p =>
    let p := log (SetValue searchInput v) p in
    (Normal tt,
     {| container_classList := container_classList p;
        results_innerHTML := results_innerHTML p;
        input_value := strip_newlines v;
        effects := effects p |}).

(** [console.error(label, error)] *)
Definition console_error (label : jsstring) (e : error) : js unit :=
  fun p => (Normal tt, log (ConsoleError label e) p).

(** What the network and the server do with a request: the promise of
    [fetch] rejects, or resolves with a response whose [json()] in turn
    rejects or resolves with a value. *)
Inductive json_outcome : Type :=
| JsonRejected (e : error)
| JsonParsed (data : json).

Record response : Type := {
  status : N;
  json_result : json_outcome
}.

Inductive fetch_outcome : Type :=
| FetchRejected (e : error)
| FetchResolved (r : response).

(** [response.ok] *)
Definition ok (r : response) : bool :=
  N.leb 200 (status r) && N.leb (status r) 299.

(** [await fetch(url, init)]: the request goes out, then the outcome. *)
Definition fetch (url : jsstring) (init : RequestInit) (o : fetch_outcome)
  : js response :=
  fun p =>
    let p := log (Fetch url init) p in
    match o with
    | FetchRejected e => (Throw e, p)
    | FetchResolved r => (Normal r, p)
    end.

(** [await response.json()] *)
Definition response_json (r : response) : js json :=
  match json_result r with
  | JsonRejected e => throw e
  | JsonParsed data => ret data
  end.

(** An opening tag with a class attribute. *)
Definition tag_class (name cls : string) : jsstring :=
  lit "<" ++ lit name ++ lit " class=" ++ dq ++ lit cls ++ dq ++ lit ">".

Definition hidden : jsstring := lit "hidden".

Definition endpoint : jsstring := lit "http://127.0.0.1:8000/check-symptoms".

Definition searching_html : jsstring :=
  tag_class "div" "text-center text-gray-500" ++ lit "Searching...</div>".

Definition error_html : jsstring :=
  tag_class "div" "bg-red-100 text-red-700 p-4 rounded-lg"
  ++ lit "An error occurred. Please try again later.</div>".

(** The four literal chunks of the template in [displayResults]. *)
Definition indent12 : jsstring := lit "            ".
Definition indent16 : jsstring := lit "                ".

Definition template0 : jsstring :=
  nl ++ indent12 ++ lit "<!-- Diagnosis Information Box -->"
  ++ nl ++ indent12
  ++ tag_class "div"
       "bg-blue-100 border border-blue-400 text-blue-800 px-4 py-3 rounded-md mb-4"
  ++ nl ++ indent16 ++ lit "<!-- Show the AI's diagnosis for the symptoms -->"
  ++ nl ++ indent16 ++ tag_class "p" "font-bold" ++ lit "Possible Diagnosis: ".

Definition template1 : jsstring :=
  lit "</p>"
  ++ nl ++ indent16 ++ lit "<!-- Show confidence as percentage (0-100%) -->"
  ++ nl ++ indent16 ++ tag_class "p" "text-sm" ++ lit "Confidence: ".

Definition template2 : jsstring :=
  lit "%</p>"
  ++ nl ++ indent12 ++ lit "</div>"
  ++ nl ++ indent12
  ++ nl ++ indent12 ++ lit "<!-- Recommendations Information Box -->"
  ++ nl ++ indent12
  ++ tag_class "div"
       "bg-green-100 border border-green-400 text-green-800 px-4 py-3 rounded-md"
  ++ nl ++ indent16 ++ lit "<!-- Header for next steps -->"
  ++ nl ++ indent16 ++ tag_class "p" "font-bold" ++ lit "Next Steps:</p>"
  ++ nl ++ indent16 ++ lit "<!-- Show the recommended action/treatment -->"
  ++ nl ++ indent16 ++ lit "<p>".

Definition template3 : jsstring :=
  lit "</p>"
  ++ nl ++ indent12 ++ lit "</div>"
  ++ nl ++ lit "        ".

(** [displayResults(data)].  The substitutions of the template are
    evaluated and converted to strings from left to right, and the
    assignment to [innerHTML] happens only if none of them throws. *)
Definition displayResults (data : json) : js unit :=
  diagnosis <- lift (and_then (Get data (lit "diagnosis")) ToString) ;;
  percent <- lift (and_then (and_then (Get data (lit "confidence")) ToNumber)
                     (fun confidence =>
                        Normal (Number_toString
                                  (Math_round (mul confidence (of_Z 100)))))) ;;
  recommendation <- lift (and_then (Get data (lit "recommendation")) ToString) ;;
  set_innerHTML (template0 ++ diagnosis ++ template1 ++ percent
                 ++ template2 ++ recommendation ++ template3).

Definition request_init (symptoms : jsstring) : RequestInit :=
  {| method := lit "POST";
     headers := [(lit "Content-Type", lit "application/json")];
     body := JSON_stringify_object1 (lit "symptoms") symptoms |}.

(** The [try] block after [fetch] has settled with a response. *)
Definition after_response (r : response) : js unit :=
  if negb (ok r)
  then throw (NewError (lit "HTTP error! status: "
                        ++ Number_toString (of_Z (Z.of_N (status r)))))
  else (data <- response_json r ;; displayResults data).

(** The [catch] block. *)
Definition on_error (e : error) : js unit :=
  console_error (lit "Error fetching data:") e ;;
  set_innerHTML error_html.

(** [fetchSymptoms(symptoms)], run to completion against the outcome
    [o] of its request. *)
Definition fetchSymptoms (symptoms : jsstring) (o : fetch_outcome) : js unit :=
  classList_add hidden ;;
  set_innerHTML searching_html ;;
  try_catch_finally
    (r <- fetch endpoint (request_init symptoms) o ;; after_response r)
    on_error
    (classList_remove hidden).

(** The two halves of [fetchSymptoms] around its suspension: what runs
    in the turn of the event loop that calls it, and what runs once the
    request has settled (the writes after the first [await] all happen
    in one turn: either the [catch] and [finally] blocks, or
    [displayResults] followed by [finally]).  Other handlers may run in
    between. *)
Definition fetchSymptoms_begin (symptoms : jsstring) : js unit :=
  classList_add hidden ;;
  set_innerHTML searching_html ;;
  (fun p => (Normal tt, log (Fetch endpoint (request_init symptoms)) p)).

Definition fetchSymptoms_settle (o : fetch_outcome) : js unit :=
  try_catch_finally
    (r <- lift (match o with
                | FetchRejected e => Throw e
                | FetchResolved r => Normal r
                end) ;;
     after_response r)
    on_error
    (classList_remove hidden).

(** The click handler of the search button. *)
Definition searchBtn_click (o : fetch_outcome) : js unit :=
  fun p =>
    let symptoms := trim (input_value p) in
    if truthy symptoms then fetchSymptoms symptoms o p else ret tt p.

(** A preset symptom button, by the text it shows. *)
Record symptom_tag : Type := { textContent : jsstring }.

(** The click handler of a symptom tag. *)
Definition symptomTag_click (tag : symptom_tag) (o : fetch_outcome)
  : js unit :=
  let symptoms := textContent tag in
  set_value symptoms ;;
  fetchSymptoms symptoms o.

(** The requests among a list of effects. *)
Definition requests (l : list effect) : list (jsstring * RequestInit) :=
  flat_map (fun e => match e with
                     | Fetch url init => [(url, init)]
                     | _ => []
                     end) l.

(** The page once the computation has run. *)
Definition exec {A} (m : js A) (p : page) : page := snd (m p).

(** A click on one of the two kinds of control that start a query. *)
Inductive trigger : Type :=
| SearchButton
| SymptomTag (tag : symptom_tag).

Definition click (t : trigger) (o : fetch_outcome) : js unit :=
  match t with
  | SearchButton => searchBtn_click o
  | SymptomTag tag => symptomTag_click tag o
  end.

(** The string [displayResults] assigns, or what it throws instead. *)
Definition render (data : json) : completion jsstring :=
  and_then (and_then (Get data (lit "diagnosis")) ToString) (fun diagnosis =>
  and_then (and_then (and_then (Get data (lit "confidence")) ToNumber)
              (fun confidence =>
                 Normal (Number_toString
                           (Math_round (mul confidence (of_Z 100))))))
           (fun percent =>
  and_then (and_then (Get data (lit "recommendation")) ToString)
           (fun recommendation =>
  Normal (template0 ++ diagnosis ++ template1 ++ percent
          ++ template2 ++ recommendation ++ template3)))).

(** What the [try] block of [fetchSymptoms] comes to once the request
    has settled: the fragment to show, or the error that reaches
    [catch]. *)
Definition verdict (o : fetch_outcome) : completion jsstring :=
  match o with
  | FetchRejected e => Throw e
  | FetchResolved r =>
      if negb (ok r)
      then Throw (NewError (lit "HTTP error! status: "
                            ++ Number_toString (of_Z (Z.of_N (status r)))))
      else match json_result r with
           | JsonRejected e => Throw e
           | JsonParsed data => render data
           end
  end.

(** The failures the specification lists, each with the error that
    reaches [catch]: the request is rejected, the status is not a
    success, or the body does not parse. *)
Definition underlying_failure (o : fetch_outcome) : option error :=
  match o with
  | FetchRejected e => Some e
  | FetchResolved r =>
      if negb (ok r)
      then Some (NewError (lit "HTTP error! status: "
                           ++ Number_toString (of_Z (Z.of_N (status r)))))
      else match json_result r with
           | JsonRejected e => Some e
           | JsonParsed _ => None
           end
  end.

(** The page after the request has settled on page [p]. *)
Definition settled (o : fetch_outcome) (p : page) : page :=
  match verdict o with
  | Normal html => exec (set_innerHTML html ;; classList_remove hidden) p
  | Throw e => exec (on_error e ;; classList_remove hidden) p
  end.

(** What is written once the request has settled. *)
Definition settle_effects (o : fetch_outcome) : list effect :=
  match verdict o with
  | Normal html =>
      [SetInnerHTML resultsList html; ClassListRemove resultContainer hidden]
  | Throw e =>
      [ConsoleError (lit "Error fetching data:") e;
       SetInnerHTML resultsList error_html;
       ClassListRemove resultContainer hidden]
  end.

(** A page on which nothing has happened yet. *)
Definition blank_page : page :=
  {| container_classList := [hidden]; results_innerHTML := [];
     input_value := []; effects := [] |}.

(** The response body the specification expects. *)
Record DiagnosisResult : Type := {
  diagnosis : jsstring;
  confidence : number;
  recommendation : jsstring
}.

Definition json_of (r : DiagnosisResult) : json :=
  JObject [(lit "diagnosis", JString (diagnosis r));
           (lit "confidence", JNumber (confidence r));
           (lit "recommendation", JString (recommendation r))].

(** The example of the specification. *)
Definition example_result : DiagnosisResult :=
  {| diagnosis := lit "Tension Headache";
     confidence := of_decimal 85 (-2);
     recommendation := lit "Rest and hydrate" |}.

(** [Math.round(confidence * 100)] as text. *)
Definition percent (confidence : number) : jsstring :=
  Number_toString (Math_round (mul confidence (of_Z 100))).

(** The fragment as the specification describes it: a diagnosis block,
    then a recommendation block, each one [div] element. *)
Definition html_element (name cls : string) (content : jsstring) : jsstring :=
  tag_class name cls ++ content ++ lit "</" ++ lit name ++ lit ">".

Definition diagnosis_block (diagnosis percent : jsstring) : jsstring :=
  html_element "div"
    "bg-blue-100 border border-blue-400 text-blue-800 px-4 py-3 rounded-md mb-4"
    (nl ++ indent16 ++ lit "<!-- Show the AI's diagnosis for the symptoms -->"
     ++ nl ++ indent16
     ++ html_element "p" "font-bold" (lit "Possible Diagnosis: " ++ diagnosis)
     ++ nl ++ indent16 ++ lit "<!-- Show confidence as percentage (0-100%) -->"
     ++ nl ++ indent16
     ++ html_element "p" "text-sm" (lit "Confidence: " ++ percent ++ lit "%")
     ++ nl ++ indent12).

Definition recommendation_block (recommendation : jsstring) : jsstring :=
  html_element "div"
    "bg-green-100 border border-green-400 text-green-800 px-4 py-3 rounded-md"
    (nl ++ indent16 ++ lit "<!-- Header for next steps -->"
     ++ nl ++ indent16 ++ html_element "p" "font-bold" (lit "Next Steps:")
     ++ nl ++ indent16 ++ lit "<!-- Show the recommended action/treatment -->"
     ++ nl ++ indent16 ++ lit "<p>" ++ recommendation ++ lit "</p>"
     ++ nl ++ indent12).

Definition two_block_fragment (diagnosis percent recommendation : jsstring)
  : jsstring :=
  nl ++ indent12 ++ lit "<!-- Diagnosis Information Box -->"
  ++ nl ++ indent12 ++ diagnosis_block diagnosis percent
  ++ nl ++ indent12
  ++ nl ++ indent12 ++ lit "<!-- Recommendations Information Box -->"
  ++ nl ++ indent12 ++ recommendation_block recommendation
  ++ nl ++ lit "        ".

(** A field that is absent or holds a primitive value, and the text and
    the number such a field is converted to. *)
Definition primitive (v : value) : bool :=
  match v with
  | Some (JArray _) | Some (JObject _) => false
  | _ => true
  end.

Definition text_of (v : value) : jsstring :=
  match v with
  | None => lit "undefined"
  | Some JNull => lit "null"
  | Some (JBool true) => lit "true"
  | Some (JBool false) => lit "false"
  | Some (JNumber x) => Number_toString x
  | Some (JString s) => s
  | Some (JArray _) | Some (JObject _) => []
  end.

Definition number_of (v : value) : number :=
  match v with
  | None => NaN
  | Some JNull => pos_zero
  | Some (JBool true) => of_Z 1
  | Some (JBool false) => pos_zero
  | Some (JNumber x) => x
  | Some (JString s) => StringToNumber s
  | Some (JArray _) | Some (JObject _) => NaN
  end.

(** Code units that [JSON.stringify] copies as they are. *)
Definition plain (c : code_unit) : bool :=
  N.leb 32 c && negb (N.eqb c 34) && negb (N.eqb c 92)
  && negb (is_high_surrogate c) && negb (is_low_surrogate c).

(** A value that ToString converts without throwing: anything but an
    object with a [toString] property of its own, directly or as an
    element of an array. *)
Fixpoint printable (v : json) : bool :=
  match v with
  | JArray elems =>
      (fix all (l : list json) : bool :=
         match l with
         | [] => true
         | e :: rest => printable e && all rest
         end) elems
  | JObject props => negb (has_own props (lit "toString"))
  | JNull | JBool _ | JNumber _ | JString _ => true
  end.

Definition printable_value (v : value) : bool :=
  match v with
  | None => true
  | Some j => printable j
  end.

(** The parsed bodies on which [displayResults] throws. *)
Definition unrenderable (data : json) : bool :=
  match data with
  | JNull => true
  | JObject props =>
      negb (printable_value (own_property props (lit "diagnosis"))
            && printable_value (own_property props (lit "confidence"))
            && printable_value (own_property props (lit "recommendation")))
  | JBool _ | JNumber _ | JString _ | JArray _ => false
  end.

End Query.

(* ================================================================== *)
(** * The 3D tilt and glare of the cards                               *)
(* ================================================================== *)

Module Tilt.
Import JS.

(** What [getBoundingClientRect()] returns, as far as it is read. *)
Record DOMRect : Type := {
  left : number;
  top : number;
  width : number;
  height : number
}.

(** The events [handleMove] is registered for: [mousemove] carries the
    pointer position itself, [touchmove] a list of touches and no
    [clientX] or [clientY] of its own. *)
Record touch : Type := { touch_clientX : number; touch_clientY : number }.

Inductive move_event : Type :=
| MouseMove (clientX clientY : number)
| TouchMove (touches : list touch).

(** [e.clientX ?? (e.touches && e.touches[0] && e.touches[0].clientX)],
    [None] being [undefined]. *)
Definition event_clientX (e : move_event) : option number :=
  match e with
  | MouseMove x _ => Some x
  | TouchMove (t :: _) => Some (touch_clientX t)
  | TouchMove [] => None
  end.

Definition event_clientY (e : move_event) : option number :=
  match e with
  | MouseMove _ y => Some y
  | TouchMove (t :: _) => Some (touch_clientY t)
  | TouchMove [] => None
  end.

(** ToNumber of a coordinate: [undefined] is NaN. *)
Definition coordinate (c : option number) : number :=
  match c with Some x => x | None => NaN end.

(** The literals [0.5] and [1.5]. *)
Definition half : number := of_decimal 5 (-1).
Definition one_and_half : number := of_decimal 15 (-1).

(** [const clamp = v => Math.max(0, Math.min(1, v))] *)
Definition clamp (v : number) : number :=
  Math_max (of_Z 0) (Math_min (of_Z 1) v).

(** The numbers [handleMove] computes from the pointer and the box. *)
Record tilt : Type := {
  cx : number;
  cy : number;
  rotateX : number;
  rotateY : number;
  g : number
}.

Definition tilt_of (clientX clientY : option number) (rect : DOMRect) : tilt :=
  let x := div (sub (coordinate clientX) (left rect)) (width rect) in
  let y := div (sub (coordinate clientY) (top rect)) (height rect) in
  let cx := clamp x in
  let cy := clamp y in
  let rotateY := mul (sub cx half) (of_Z 20) in
  let rotateX := mul (sub half cy) (of_Z 20) in
  let dx := sub cx half in
  let dy := sub cy half in
  let dist := Math_sqrt (add (mul dx dx) (mul dy dy)) in
  let g := Math_max (of_Z 0)
             (Math_min (of_Z 1) (sub (of_Z 1) (mul dist one_and_half))) in
  {| cx := cx; cy := cy; rotateX := rotateX; rotateY := rotateY; g := g |}.

(** The same computation from the normalized position on: [tilt_of] is
    [tilt_at] at [normalized] coordinates. *)
Definition normalized (client : option number) (origin size : number)
  : number :=
  div (sub (coordinate client) origin) size.

Definition tilt_at (x y : number) : tilt :=
  let cx := clamp x in
  let cy := clamp y in
  let dx := sub cx half in
  let dy := sub cy half in
  {| cx := cx; cy := cy;
     rotateX := mul (sub half cy) (of_Z 20);
     rotateY := mul (sub cx half) (of_Z 20);
     g := clamp (sub (of_Z 1)
                     (mul (Math_sqrt (add (mul dx dx) (mul dy dy)))
                          one_and_half)) |}.

(** A box with a position and a positive width and height. *)
Definition laid_out (r : DOMRect) : bool :=
  finite (left r) && finite (top r)
  && positive_finite (width r) && positive_finite (height r).

(** An event that carries a pointer position. *)
Definition has_position (e : move_event) : bool :=
  match event_clientX e, event_clientY e with
  | Some x, Some y => finite x && finite y
  | _, _ => false
  end.

(** A card: the strings the handlers last assigned to its inline style
    properties, the [data-tilt-init] mark, how many times the listeners
    were attached, and the variable [rect] of the closure. *)
Record card : Type := {
  tiltInit : bool;
  listeners : nat;
  transform : jsstring;
  transition : jsstring;
  boxShadow : jsstring;
  var_px : jsstring;       (* --px *)
  var_py : jsstring;       (* --py *)
  var_g : jsstring;        (* --g *)
  rect : option DOMRect
}.

(** The body of [cards.forEach] in [initTiltCards]. *)
Definition initTiltCard (c : card) : card :=
  if tiltInit c then c
  else
    {| tiltInit := true;
       listeners := S (listeners c);
       transform := transform c;
       transition := transition c;
       boxShadow := boxShadow c;
       var_px := lit "50%";
       var_py := lit "50%";
       var_g := lit "0";
       rect := None |}.

(** [initTiltCards], given the cards the selectors match. *)
Definition initTiltCards (cards : list card) : list card :=
  map initTiltCard cards.

Definition transform_of (t : tilt) : jsstring :=
  lit "perspective(1000px) rotateX(" ++ Number_toString (rotateX t)
  ++ lit "deg) rotateY(" ++ Number_toString (rotateY t)
  ++ lit "deg) scale(1.03)".

(** [handleMove(e)], with [layout] what [getBoundingClientRect()] would
    return at that moment. *)
Definition handleMove (layout : DOMRect) (e : move_event) (c : card) : card :=
  let rect' := match rect c with Some r => r | None => layout end in
  let t := tilt_of (event_clientX e) (event_clientY e) rect' in
  {| tiltInit := tiltInit c;
     listeners := listeners c;
     transform := transform_of t;
     transition := transition c;
     boxShadow := boxShadow c;
     var_px := Number_toString (mul (cx t) (of_Z 100)) ++ lit "%";
     var_py := Number_toString (mul (cy t) (of_Z 100)) ++ lit "%";
     var_g := Number_toString (g t);
     rect := Some rect' |}.

Definition handleEnter (layout : DOMRect) (c : card) : card :=
  {| tiltInit := tiltInit c;
     listeners := listeners c;
     transform := transform c;
     transition :=
       lit "transform 150ms cubic-bezier(.2,.9,.2,1), box-shadow 150ms";
     boxShadow := lit "0 20px 40px rgba(2,6,23,0.35)";
     var_px := var_px c;
     var_py := var_py c;
     var_g := var_g c;
     rect := Some layout |}.

Definition handleLeave (c : card) : card :=
  {| tiltInit := tiltInit c;
     listeners := listeners c;
     transform := lit "perspective(1000px) rotateX(0deg) rotateY(0deg) scale(1)";
     transition :=
       lit "transform 600ms cubic-bezier(.2,.9,.2,1), box-shadow 600ms";
     boxShadow := [];
     var_px := var_px c;
     var_py := var_py c;
     var_g := lit "0";
     rect := None |}.

(** The values [clamp] can return: +0, 1, or a positive number below 1. *)
Definition clamped (c : number) : Prop :=
  c = S754_zero false
  \/ c = of_Z 1
  \/ exists m e,
       c = S754_finite false m e
       /\ ((e <= -53 /\ Zpos m < 2 ^ 53) \/ (e = -52 /\ Zpos m < 2 ^ 52)).

(** A box 200 by 100 at (100, 50), and a card just initialized. *)
Definition sample_rect : DOMRect :=
  {| left := of_Z 100; top := of_Z 50; width := of_Z 200; height := of_Z 100 |}.

Definition fresh_card : card :=
  initTiltCard
    {| tiltInit := false; listeners := 0; transform := []; transition := [];
       boxShadow := []; var_px := []; var_py := []; var_g := [];
       rect := None |}.

(** What happens to a card: [initTiltCards] runs (again), or one of the
    events the handlers are registered for is dispatched to it
    ([mouseenter] and [touchstart] both run [handleEnter], [mousemove]
    and [touchmove] run [handleMove], [mouseleave] and [touchend] run
    [handleLeave]).  A handler runs once for every time the listeners
    were attached.  [layout] is the box of the card at that moment. *)
Inductive card_event : Type :=
| InitCards
| PointerEnter (layout : DOMRect)
| PointerMove (layout : DOMRect) (e : move_event)
| PointerLeave.

Definition dispatch (handler : card -> card) (c : card) : card :=
  Nat.iter (listeners c) handler c.

Definition card_step (c : card) (ev : card_event) : card :=
  match ev with
  | InitCards => initTiltCard c
  | PointerEnter layout => dispatch (handleEnter layout) c
  | PointerMove layout e => dispatch (handleMove layout e) c
  | PointerLeave => dispatch handleLeave c
  end.

Definition card_run (evs : list card_event) (c : card) : card :=
  fold_left card_step evs c.

Definition is_init (ev : card_event) : bool :=
  match ev with InitCards => true | _ => false end.

(** Normalized positions at or before the near edge of the box, and at
    or beyond the far edge. *)
Definition at_or_before_start (x : number) : bool :=
  match x with
  | S754_zero _ | S754_finite true _ _ | S754_infinity true => true
  | S754_finite false _ _ | S754_infinity false | S754_nan => false
  end.

Definition at_or_beyond_end (x : number) : bool := SFleb (of_Z 1) x.

(** [x] is the integer [n], of magnitude at most 2^50. *)
Definition whole (n : Z) (x : number) : bool :=
  in_range n n x && (Z.abs n <=? 1125899906842624).

(** The event carries the pointer position [(x, y)] and the box has its
    left top corner at [(l, t)] and is [w] wide and [h] high, all in
    whole pixels, with [w] and [h] positive. *)
Definition whole_pixels (e : move_event) (r : DOMRect) (x y l t w h : Z)
  : bool :=
  match event_clientX e, event_clientY e with
  | Some clientX, Some clientY =>
      whole x clientX && whole y clientY
      && whole l (left r) && whole t (top r)
      && whole w (width r) && whole h (height r)
      && (0 <? w) && (0 <? h)
  | _, _ => false
  end.

(** A run of [handleMove] calls, each with the box the card has at that
    moment. *)
Definition move_all (moves : list (DOMRect * move_event)) (c : card) : card :=
  fold_left (fun c m => handleMove (fst m) (snd m) c) moves c.

End Tilt.

(* ================================================================== *)
(** * The periodic hero animation                                      *)
(* ================================================================== *)

Module Hero.
Import JS.

Definition hero_animate : jsstring := lit "hero-animate".

Definition PLAY_INTERVAL_MS : Z := 10000.
Definition REMOVE_AFTER_MS : Z := 1200.

(** The functions the script hands to timers. *)
Inductive callback : Type :=
| playOnce
| removeClass.     (* [() => hero.classList.remove('hero-animate')] *)

Record timer : Type := {
  id : nat;
  due : Z;                 (* milliseconds *)
  every : option Z;        (* the period, for [setInterval] *)
  run : callback
}.

Inductive effect : Type :=
| ClassListAdd (token : jsstring)
| ClassListRemove (token : jsstring).

(** The window as the animation sees it: the clock, the pending timers,
    the class list of the hero element, the intervals the [beforeunload]
    listeners will clear, and the writes to the class list so far. *)
Record window : Type := {
  now : Z;
  timers : list timer;
  next_id : nat;
  hero_classList : list jsstring;
  clear_on_unload : list nat;
  effects : list effect
}.

Definition set_timer (delay : Z) (period : option Z) (cb : callback)
    (w : window) : window :=
  {| now := now w;
     timers := timers w ++ [{| id := next_id w; due := now w + delay;
                               every := period; run := cb |}];
     next_id := S (next_id w);
     hero_classList := hero_classList w;
     clear_on_unload := clear_on_unload w;
     effects := effects w |}.

Definition setTimeout (cb : callback) (delay : Z) : window -> window :=
  set_timer delay None cb.
Definition setInterval (cb : callback) (period : Z) : window -> window :=
  set_timer period (Some period) cb.

Definition classList_remove (token : jsstring) (w : window) : window :=
  {| now := now w;
     timers := timers w;
     next_id := next_id w;
     hero_classList :=
       filter (fun t => negb (jsstring_eqb token t)) (hero_classList w);
     clear_on_unload := clear_on_unload w;
     effects := effects w ++ [ClassListRemove token] |}.

Definition classList_add (token : jsstring) (w : window) : window :=
  {| now := now w;
     timers := timers w;
     next_id := next_id w;
     hero_classList :=
       if existsb (jsstring_eqb token) (hero_classList w)
       then hero_classList w
       else hero_classList w ++ [token];
     clear_on_unload := clear_on_unload w;
     effects := effects w ++ [ClassListAdd token] |}.

Definition call (cb : callback) (w : window) : window :=
  match cb with
  | playOnce =>
      setTimeout removeClass REMOVE_AFTER_MS
        (classList_add hero_animate (classList_remove hero_animate w))
  | removeClass => classList_remove hero_animate w
  end.

(** The immediately invoked [periodicHeroAnimation]: [prefersReduce] is
    what [matchMedia('(prefers-reduced-motion: reduce)').matches] gives
    at that moment, [hero] whether [.hero-gradient] matches an element. *)
Definition periodicHeroAnimation (prefersReduce hero : bool) (w : window)
  : window :=
  if prefersReduce then w
  else if negb hero then w
  else
    let w1 := setTimeout playOnce 220 w in
    let intervalId := next_id w1 in
    let w2 := setInterval playOnce PLAY_INTERVAL_MS w1 in
    {| now := now w2;
       timers := timers w2;
       next_id := next_id w2;
       hero_classList := hero_classList w2;
       clear_on_unload := clear_on_unload w2 ++ [intervalId];
       effects := effects w2 |}.

(** A pending timer fires: the clock is at its due time or later, a
    timeout is gone, an interval is armed again, and the callback runs. *)
Definition fire (t : timer) (w : window) : window :=
  let rest := filter (fun u => negb (Nat.eqb (id u) (id t))) (timers w) in
  let at_ := Z.max (now w) (due t) in
  call (run t)
    {| now := at_;
       timers := match every t with
                 | Some period =>
                     rest ++ [{| id := id t; due := at_ + period;
                                 every := every t; run := run t |}]
                 | None => rest
                 end;
       next_id := next_id w;
       hero_classList := hero_classList w;
       clear_on_unload := clear_on_unload w;
       effects := effects w |}.

(** [beforeunload]: the listeners clear their intervals. *)
Definition beforeunload (w : window) : window :=
  {| now := now w;
     timers := filter (fun u => negb (existsb (Nat.eqb (id u)) (clear_on_unload w)))
                      (timers w);
     next_id := next_id w;
     hero_classList := hero_classList w;
     clear_on_unload := clear_on_unload w;
     effects := effects w |}.

(** One turn of the event loop, as far as the animation is concerned:
    some pending timer fires (in any order, which covers the order the
    clock imposes), or the page is unloaded. *)
Inductive step : window -> window -> Prop :=
| step_fire w t : In t (timers w) -> step w (fire t w)
| step_unload w : step w (beforeunload w).

Inductive steps : window -> window -> Prop :=
| steps_refl w : steps w w
| steps_more w1 w2 w3 : steps w1 w2 -> step w2 w3 -> steps w1 w3.

(** The page as loaded, before the script has run: no timer of the
    script is pending and it has written nothing. *)
Definition loaded (classes : list jsstring) : window :=
  {| now := 0; timers := []; next_id := 1; hero_classList := classes;
     clear_on_unload := []; effects := [] |}.

Definition adds (l : list effect) : list jsstring :=
  flat_map (fun e => match e with
                     | ClassListAdd token => [token]
                     | ClassListRemove _ => []
                     end) l.

Definition is_interval (t : timer) : bool :=
  match every t with Some _ => true | None => false end.

Definition plays (t : timer) : bool :=
  match run t with playOnce => true | removeClass => false end.

(** The pending timers that will run [playOnce]. *)
Definition pending_plays (w : window) : nat :=
  List.length (filter plays (timers w)).

(** An effect on the class [token]. *)
Definition about (token : jsstring) (e : effect) : Prop :=
  match e with
  | ClassListAdd t | ClassListRemove t => t = token
  end.

(** A timeout, not an interval, that will run [playOnce]. *)
Definition one_shot_play (t : timer) : bool := plays t && negb (is_interval t).

(** Every interval is one that [beforeunload] will clear, and at most
    one timeout is waiting to play. *)
Definition tidy (w : window) : Prop :=
  (forall t, In t (timers w) -> is_interval t = true ->
             In (id t) (clear_on_unload w))
  /\ (List.length (filter one_shot_play (timers w)) <= 1)%nat.

(** No repeating timer is pending. *)
Definition no_interval (w : window) : Prop :=
  forall t, In t (timers w) -> is_interval t = false.

(** A timeout that removes the class is pending. *)
Definition removal_pending (w : window) : Prop :=
  exists u, In u (timers w) /\ run u = removeClass /\ every u = None.

(** Ids handed to [beforeunload] are older than the next id, timers that
    remove the class are timeouts whose id is not among them, and while
    the class is on such a timer is pending. *)
Definition covered (w : window) : Prop :=
  (forall i, In i (clear_on_unload w) -> (i < next_id w)%nat)
  /\ (forall u, In u (timers w) -> run u = removeClass ->
                every u = None /\ ~ In (id u) (clear_on_unload w))
  /\ (In hero_animate (hero_classList w) -> removal_pending w).

End Hero.

(* ================================================================== *)
(** * Smooth scrolling to in-page anchors                              *)
(* ================================================================== *)

Module Scroll.
Import JS.

(** The document as [handleClick] sees it: the rendered height of
    [nav.floating-header] if there is such an element, the elements
    that have an id with the [top] of their bounding box, in document
    order, and [window.scrollY]. *)
Record document : Type := {
  nav_height : option number;
  elements : list (jsstring * number);
  scrollY : number
}.

(** A click: [e.target.closest('a')], if there is such an ancestor,
    with what its [getAttribute('href')] returns ([None] for [null]). *)
Record click_event : Type := {
  closest_anchor : option (option jsstring)
}.

Inductive effect : Type :=
| PreventDefault
| ScrollTo (top : number) (behavior : jsstring)
| PushState (url : jsstring).

(** [document.getElementById(id)]: the first element with that id. *)
Fixpoint getElementById (els : list (jsstring * number)) (id : jsstring)
  : option number :=
  match els with
  | [] => None
  | (i, top) :: rest =>
      if jsstring_eqb i id then Some top else getElementById rest id
  end.

Definition getHeaderHeight (doc : document) : number :=
  match nav_height doc with
  | Some h => Math_ceil h
  | None => of_Z 56
  end.

(** [href.startsWith('#')] *)
Definition starts_with_hash (href : jsstring) : bool :=
  match href with
  | c :: _ => N.eqb c 35
  | [] => false
  end.

(** [handleClick(e)]: what it does, nothing standing for a plain
    [return] that leaves the click to the browser. *)
Definition handleClick (doc : document) (e : click_event) : list effect :=
  match closest_anchor e with
  | None => []
  | Some None => []
  | Some (Some href) =>
      if negb (truthy href) || negb (starts_with_hash href)
         || jsstring_eqb href (lit "#")
      then []
      else
        let id := skipn 1 href in
        match getElementById (elements doc) id with
        | None => []
        | Some target_top =>
            let headerHeight := getHeaderHeight doc in
            let targetTop :=
              Math_round (sub (sub (add target_top (scrollY doc)) headerHeight)
                              (of_Z 8)) in
            [PreventDefault; ScrollTo targetTop (lit "smooth"); PushState href]
        end
  end.

End Scroll.

(* ================================================================== *)
(** * The language layer on samples                                    *)
(* ================================================================== *)

Module JSFacts.
Import JS.

Example trim_sample :
  trim (lit "  sore throat " ++ [0x3000%N; 10%N]) = lit "sore throat".
Proof. reflexivity. Qed.

Example Number_toString_samples :
  map Number_toString
      [of_Z 85; of_decimal 855 (-1); of_decimal 1 (-1); of_decimal 15 (-8);
       of_decimal 1 21; of_Z (-42); S754_zero true; NaN; pos_infinity]
  = [lit "85"; lit "85.5"; lit "0.1"; lit "1.5e-7"; lit "1e+21"; lit "-42";
     lit "0"; lit "NaN"; lit "Infinity"].
Proof. vm_compute. reflexivity. Qed.

Example StringToNumber_samples :
  map StringToNumber
      [lit "0.85"; lit " 85 "; lit ""; lit "0x1F"; lit "-Infinity"; lit "1e3";
       lit "high"; lit "12px"]
  = [of_decimal 85 (-2); of_Z 85; pos_zero; of_Z 31; S754_infinity true;
     of_Z 1000; NaN; NaN].
Proof. vm_compute. reflexivity. Qed.

Example Math_round_samples :
  map Math_round
      [of_decimal 25 (-1); of_decimal 24 (-1); SFopp (of_decimal 25 (-1));
       SFopp (of_decimal 4 (-1)); of_decimal 4 (-1)]
  = [of_Z 3; of_Z 2; of_Z (-2); S754_zero true; pos_zero].
Proof. vm_compute. reflexivity. Qed.

Example ToString_samples :
  map ToString
      [None; Some JNull; Some (JArray [JNumber (of_Z 1); JNull; JString (lit "a")]);
       Some (JObject [(lit "a", JNull)]);
       Some (JObject [(lit "toString", JNull)])]
  = [Normal (lit "undefined"); Normal (lit "null"); Normal (lit "1,,a");
     Normal (lit "[object Object]"); Throw EngineTypeError].
Proof. vm_compute. reflexivity. Qed.

Example QuoteJSONString_sample :
  QuoteJSONString (lit "a" ++ dq ++ [10%N; 0xD800%N] ++ lit "b")
  = dq ++ lit "a\" ++ dq ++ lit "\n\ud800b" ++ dq.
Proof. reflexivity. Qed.

End JSFacts.

(* ================================================================== *)
(** * Properties of the symptom query                                  *)
(* ================================================================== *)

Module QueryFacts.
Import JS Query.

(** ** Strings *)

Lemma jsstring_eqb_refl (a : jsstring) : jsstring_eqb a a = true.
Proof.
  induction a as [|c a IH]; [reflexivity|].
  cbn. unfold code_unit_eqb. now rewrite N.eqb_refl.
Qed.

Lemma jsstring_eqb_eq (a b : jsstring) : jsstring_eqb a b = true -> a = b.
Proof.
  revert b. induction a as [|c a IH]; intros [|d b] H; try discriminate.
  - reflexivity.
  - cbn in H. apply andb_true_iff in H as [Hc Hab].
    apply N.eqb_eq in Hc. f_equal; [exact Hc | now apply IH].
Qed.

Lemma contains_app_self (l : list jsstring) (t : jsstring) :
  contains (l ++ [t]) t = true.
Proof.
  unfold contains. rewrite existsb_app. cbn.
  rewrite jsstring_eqb_refl. now rewrite orb_true_r.
Qed.

Lemma contains_removed (l : list jsstring) (t : jsstring) :
  contains (filter (fun u => negb (jsstring_eqb t u)) l) t = false.
Proof.
  unfold contains. induction l as [|u l IH]; [reflexivity|].
  cbn. destruct (jsstring_eqb t u) eqn:E; cbn; [exact IH|].
  now rewrite E.
Qed.

(** A string of plain code units is quoted by putting it in quotes. *)
Lemma quote_units_plain (s : jsstring) :
  forallb plain s = true -> quote_units s = s.
Proof.
  induction s as [|c s IH]; [reflexivity|].
  cbn [forallb]. intros H. apply andb_true_iff in H as [Hc Hs].
  unfold plain in Hc.
  repeat (apply andb_true_iff in Hc as [Hc ?]).
  apply N.leb_le in Hc.
  cbn [quote_units].
  destruct (is_high_surrogate c); [discriminate|].
  destruct (is_low_surrogate c); [discriminate|].
  destruct (N.eqb_spec c 34); [discriminate|].
  destruct (N.eqb_spec c 92); [discriminate|].
  repeat match goal with
         | |- context [N.eqb c ?k] => destruct (N.eqb_spec c k); [lia|]
         end.
  destruct (N.ltb_spec c 32); [lia|].
  now rewrite IH.
Qed.

(** ** The renderer and the dispatcher, step by step *)

Lemma displayResults_render (data : json) (p : page) :
  displayResults data p
  = match render data with
    | Normal html => set_innerHTML html p
    | Throw e => (Throw e, p)
    end.
Proof.
  unfold displayResults, render, bind, lift.
  destruct (and_then (Get data (lit "diagnosis")) ToString) as [d|e];
    cbn [and_then]; [|reflexivity].
  destruct (and_then (Get data (lit "confidence")) ToNumber) as [c|e];
    cbn [and_then]; [|reflexivity].
  destruct (and_then (Get data (lit "recommendation")) ToString) as [r|e];
    cbn [and_then]; reflexivity.
Qed.

Lemma after_response_verdict (r : response) (p : page) :
  after_response r p
  = match verdict (FetchResolved r) with
    | Normal html => set_innerHTML html p
    | Throw e => (Throw e, p)
    end.
Proof.
  unfold after_response, verdict.
  destruct (negb (ok r)); [reflexivity|].
  unfold bind, response_json.
  destruct (json_result r) as [e|data]; [reflexivity|].
  cbn [ret]. apply displayResults_render.
Qed.

Lemma fetchSymptoms_settle_spec (o : fetch_outcome) (p : page) :
  fetchSymptoms_settle o p = (Normal tt, settled o p).
Proof.
  unfold fetchSymptoms_settle, settled, try_catch_finally, exec.
  destruct o as [e|r].
  - reflexivity.
  - unfold bind at 1. cbn [lift]. rewrite after_response_verdict.
    destruct (verdict (FetchResolved r)) as [html|e]; reflexivity.
Qed.

Lemma fetchSymptoms_split (symptoms : jsstring) (o : fetch_outcome) (p : page) :
  fetchSymptoms symptoms o p
  = fetchSymptoms_settle o (exec (fetchSymptoms_begin symptoms) p).
Proof.
  unfold fetchSymptoms, fetchSymptoms_begin, exec, bind.
  cbn [classList_add set_innerHTML snd].
  unfold fetchSymptoms_settle, try_catch_finally, bind, fetch, lift.
  destruct o as [e|r]; reflexivity.
Qed.

(** The page when the request goes out. *)
Lemma begin_effects (symptoms : jsstring) (p : page) :
  effects (exec (fetchSymptoms_begin symptoms) p)
  = effects p ++ [ClassListAdd resultContainer hidden;
                  SetInnerHTML resultsList searching_html;
                  Fetch endpoint (request_init symptoms)].
Proof.
  unfold fetchSymptoms_begin, exec, bind. cbn.
  now rewrite <- !app_assoc.
Qed.

Lemma begin_hidden (symptoms : jsstring) (p : page) :
  contains (container_classList (exec (fetchSymptoms_begin symptoms) p)) hidden
  = true.
Proof.
  unfold fetchSymptoms_begin, exec, bind.
  cbn [classList_add set_innerHTML log snd container_classList].
  destruct (contains (container_classList p) hidden) eqn:E;
    [exact E | apply contains_app_self].
Qed.

Lemma begin_placeholder (symptoms : jsstring) (p : page) :
  results_innerHTML (exec (fetchSymptoms_begin symptoms) p) = searching_html.
Proof. reflexivity. Qed.

Lemma begin_input (symptoms : jsstring) (p : page) :
  input_value (exec (fetchSymptoms_begin symptoms) p) = input_value p.
Proof. reflexivity. Qed.

Lemma settled_effects (o : fetch_outcome) (p : page) :
  effects (settled o p) = effects p ++ settle_effects o.
Proof.
  unfold settled, settle_effects, exec, on_error, bind.
  destruct (verdict o); cbn; now rewrite <- !app_assoc.
Qed.

Lemma settled_revealed (o : fetch_outcome) (p : page) :
  contains (container_classList (settled o p)) hidden = false.
Proof.
  unfold settled, exec, on_error, bind.
  destruct (verdict o); cbn [classList_remove set_innerHTML console_error log
                             snd container_classList];
    apply contains_removed.
Qed.

Lemma settled_innerHTML (o : fetch_outcome) (p : page) :
  results_innerHTML (settled o p)
  = match verdict o with Normal html => html | Throw _ => error_html end.
Proof. unfold settled. destruct (verdict o); reflexivity. Qed.

Lemma settled_input (o : fetch_outcome) (p : page) :
  input_value (settled o p) = input_value p.
Proof. unfold settled. destruct (verdict o); reflexivity. Qed.

Lemma settle_effects_no_request (o : fetch_outcome) :
  requests (settle_effects o) = [].
Proof. unfold settle_effects. destruct (verdict o); reflexivity. Qed.

Lemma settle_effects_last (o : fetch_outcome) :
  exists shown,
    settle_effects o = shown ++ [ClassListRemove resultContainer hidden].
Proof.
  unfold settle_effects. destruct (verdict o) as [html|e].
  - now exists [SetInnerHTML resultsList html].
  - now exists [ConsoleError (lit "Error fetching data:") e;
                SetInnerHTML resultsList error_html].
Qed.

Lemma failure_verdict (o : fetch_outcome) (e : error) :
  underlying_failure o = Some e -> verdict o = Throw e.
Proof.
  unfold underlying_failure, verdict. destruct o as [e'|r].
  - now intros [= <-].
  - destruct (negb (ok r)); [now intros [= <-]|].
    destruct (json_result r); [now intros [= <-] | discriminate].
Qed.

Lemma exec_fetchSymptoms (symptoms : jsstring) (o : fetch_outcome) (p : page) :
  exec (fetchSymptoms symptoms o) p
  = settled o (exec (fetchSymptoms_begin symptoms) p).
Proof.
  unfold exec at 1. now rewrite fetchSymptoms_split, fetchSymptoms_settle_spec.
Qed.

Lemma requests_app (l1 l2 : list effect) :
  requests (l1 ++ l2) = requests l1 ++ requests l2.
Proof. apply flat_map_app. Qed.

(** One run of [fetchSymptoms] sends one request. *)
Lemma fetchSymptoms_requests (symptoms : jsstring) (o : fetch_outcome)
    (p : page) :
  requests (effects (exec (fetchSymptoms symptoms o) p))
  = requests (effects p) ++ [(endpoint, request_init symptoms)].
Proof.
  rewrite exec_fetchSymptoms, settled_effects, begin_effects.
  rewrite !requests_app, settle_effects_no_request, app_nil_r.
  reflexivity.
Qed.

Lemma render_shape (data : json) (html : jsstring) :
  render data = Normal html ->
  exists d c r,
    html = template0 ++ d ++ template1 ++ c ++ template2 ++ r ++ template3.
Proof.
  unfold render.
  destruct (and_then (Get data (lit "diagnosis")) ToString) as [d|];
    cbn [and_then]; [|discriminate].
  destruct (and_then (Get data (lit "confidence")) ToNumber) as [c|];
    cbn [and_then]; [|discriminate].
  destruct (and_then (Get data (lit "recommendation")) ToString) as [r|];
    cbn [and_then]; [|discriminate].
  intros [= <-]. now eexists _, _, _.
Qed.

Lemma rendered_is_not_error (data : json) (html : jsstring) :
  render data = Normal html -> jsstring_eqb html error_html = false.
Proof.
  intros H. apply render_shape in H as (d & c & r & ->). reflexivity.
Qed.

Lemma two_block_fragment_template (d c r : jsstring) :
  template0 ++ d ++ template1 ++ c ++ template2 ++ r ++ template3
  = two_block_fragment d c r.
Proof.
  unfold two_block_fragment, diagnosis_block, recommendation_block,
    html_element, template0, template1, template2, template3.
  repeat rewrite <- app_assoc. reflexivity.
Qed.

Lemma render_primitive_fields (props : list (jsstring * json)) :
  primitive (own_property props (lit "diagnosis")) = true ->
  primitive (own_property props (lit "confidence")) = true ->
  primitive (own_property props (lit "recommendation")) = true ->
  render (JObject props)
  = Normal (two_block_fragment
              (text_of (own_property props (lit "diagnosis")))
              (percent (number_of (own_property props (lit "confidence"))))
              (text_of (own_property props (lit "recommendation")))).
Proof.
  intros Hd Hc Hr. unfold render. cbn [Get and_then].
  rewrite <- two_block_fragment_template.
  destruct (own_property props (lit "diagnosis")) as [[| [|] | | | |]|];
    try discriminate Hd;
    destruct (own_property props (lit "confidence")) as [[| [|] | | | |]|];
    try discriminate Hc;
    destruct (own_property props (lit "recommendation")) as [[| [|] | | | |]|];
    try discriminate Hr;
    reflexivity.
Qed.

(** A click on the search button. *)
Lemma searchBtn_click_spec (o : fetch_outcome) (p : page) :
  exec (searchBtn_click o) p
  = if truthy (trim (input_value p))
    then exec (fetchSymptoms (trim (input_value p)) o) p
    else p.
Proof.
  unfold exec, searchBtn_click.
  destruct (truthy (trim (input_value p))); reflexivity.
Qed.

Lemma truthy_nonempty (s : jsstring) : s <> [] -> truthy s = true.
Proof. destruct s; [congruence | reflexivity]. Qed.

(** A click on a symptom tag. *)
Lemma symptomTag_click_spec (tag : symptom_tag) (o : fetch_outcome) (p : page) :
  exec (symptomTag_click tag o) p
  = exec (fetchSymptoms (textContent tag) o)
         (exec (set_value (textContent tag)) p).
Proof. reflexivity. Qed.

Lemma symptomTag_click_requests (tag : symptom_tag) (o : fetch_outcome)
    (p : page) :
  requests (effects (exec (symptomTag_click tag o) p))
  = requests (effects p) ++ [(endpoint, request_init (textContent tag))].
Proof.
  rewrite symptomTag_click_spec, fetchSymptoms_requests.
  unfold exec. cbn [set_value log snd effects].
  rewrite requests_app. cbn. now rewrite app_nil_r.
Qed.

Lemma request_body (s : jsstring) :
  body (request_init s)
  = lit "{" ++ dq ++ lit "symptoms" ++ dq ++ lit ":"
    ++ QuoteJSONString s ++ lit "}".
Proof. reflexivity. Qed.

(* ------------------------------------------------------------------ *)
(** ** The claims about the dispatcher                                 *)
(* ------------------------------------------------------------------ *)

(** C1: for every query and every outcome of its request,
    [fetchSymptoms] first hides the results container and puts the
    "Searching..." placeholder in the results area, then sends; when the
    request fails (rejected, status outside 200-299, or a body that does
    not parse) it logs the underlying error to the console and puts the
    fixed message "An error occurred. Please try again later." in the
    results area; whatever happened, its last effect is to reveal the
    container. *)
Theorem C1_fetchSymptoms_sequence
    (symptoms : jsstring) (o : fetch_outcome) (p : page) :
  let sent := exec (fetchSymptoms_begin symptoms) p in
  let final := exec (fetchSymptoms symptoms o) p in
  effects sent
  = effects p ++ [ClassListAdd resultContainer hidden;
                  SetInnerHTML resultsList searching_html;
                  Fetch endpoint (request_init symptoms)]
  /\ contains (container_classList sent) hidden = true
  /\ results_innerHTML sent = searching_html
  /\ (exists shown,
        effects final
        = effects sent ++ shown ++ [ClassListRemove resultContainer hidden])
  /\ contains (container_classList final) hidden = false
  /\ match underlying_failure o with
     | Some e =>
         effects final
         = effects sent ++ [ConsoleError (lit "Error fetching data:") e;
                            SetInnerHTML resultsList error_html;
                            ClassListRemove resultContainer hidden]
         /\ results_innerHTML final = error_html
         /\ includes error_html (lit "An error occurred. Please try again later.")
            = true
     | None => True
     end.
Proof.
  intros sent final. subst sent final.
  rewrite exec_fetchSymptoms.
  split; [apply begin_effects|].
  split; [apply begin_hidden|].
  split; [reflexivity|].
  split.
  { destruct (settle_effects_last o) as [shown E].
    exists shown. now rewrite settled_effects, E. }
  split; [apply settled_revealed|].
  destruct (underlying_failure o) as [e|] eqn:F; [|exact I].
  apply failure_verdict in F.
  rewrite settled_effects, settled_innerHTML.
  unfold settle_effects. rewrite F. repeat split; reflexivity.
Qed.

(** The same holds when other handlers ran between the sending and the
    settling: on whatever page the request settles, the last write
    reveals the container. *)
Lemma settle_reveals_last (o : fetch_outcome) (q : page) :
  fetchSymptoms_settle o q = (Normal tt, settled o q)
  /\ (exists shown,
        effects (settled o q)
        = effects q ++ shown ++ [ClassListRemove resultContainer hidden])
  /\ contains (container_classList (settled o q)) hidden = false.
Proof.
  split; [apply fetchSymptoms_settle_spec|].
  split; [|apply settled_revealed].
  destruct (settle_effects_last o) as [shown E].
  exists shown. now rewrite settled_effects, E.
Qed.

(** C2: for every non-empty trimmed input [s], a click on the search
    button whose field trims to [s], and a click on a tag whose text is
    [s], each send exactly one request: a POST to
    http://127.0.0.1:8000/check-symptoms with the header
    Content-Type: application/json and the body [{"symptoms":<s>}], [s]
    as a JSON string (for plain characters, [s] between quotes). *)
Theorem C2_one_request_per_trigger
    (s : jsstring) (t : trigger) (o : fetch_outcome) (p : page) :
  trim s = s ->
  s <> [] ->
  match t with
  | SearchButton => trim (input_value p) = s
  | SymptomTag tag => textContent tag = s
  end ->
  requests (effects (exec (click t o) p))
  = requests (effects p)
    ++ [(endpoint,
         {| method := lit "POST";
            headers := [(lit "Content-Type", lit "application/json")];
            body := lit "{" ++ dq ++ lit "symptoms" ++ dq ++ lit ":"
                    ++ QuoteJSONString s ++ lit "}" |})]
  /\ (if forallb plain s then QuoteJSONString s = dq ++ s ++ dq else True).
Proof.
  intros Htrim Hne Ht. split.
  - destruct t as [|tag]; cbn [click].
    + rewrite searchBtn_click_spec, Ht, (truthy_nonempty s Hne).
      now rewrite fetchSymptoms_requests.
    + now rewrite symptomTag_click_requests, Ht.
  - destruct (forallb plain s) eqn:E; [|exact I].
    unfold QuoteJSONString. now rewrite quote_units_plain.
Qed.

(** An instance: the tag labelled "Fever". *)
Lemma C2_one_request_per_trigger_witness :
  trim (lit "Fever") = lit "Fever"
  /\ requests (effects (exec (click (SymptomTag {| textContent := lit "Fever" |})
                                    (FetchRejected EngineTypeError))
                             blank_page))
     = [(endpoint,
         {| method := lit "POST";
            headers := [(lit "Content-Type", lit "application/json")];
            body := lit "{" ++ dq ++ lit "symptoms" ++ dq ++ lit ":"
                    ++ QuoteJSONString (lit "Fever") ++ lit "}" |})].
Proof.
  split; [reflexivity|].
  apply (C2_one_request_per_trigger (lit "Fever")
           (SymptomTag {| textContent := lit "Fever" |})
           (FetchRejected EngineTypeError) blank_page);
    [reflexivity | discriminate | reflexivity].
Defined.

(** C3, as the code has it: the search button sends the trimmed text of
    the field and sends nothing (and changes nothing) when that is
    empty; a symptom tag sends its own text as it is, whatever it is. *)
Theorem C3_text_sent_per_entry_point
    (tag : symptom_tag) (o : fetch_outcome) (p : page) :
  (if truthy (trim (input_value p))
   then requests (effects (exec (click SearchButton o) p))
        = requests (effects p)
          ++ [(endpoint, request_init (trim (input_value p)))]
   else exec (click SearchButton o) p = p)
  /\ requests (effects (exec (click (SymptomTag tag) o) p))
     = requests (effects p) ++ [(endpoint, request_init (textContent tag))]
  /\ body (request_init (textContent tag))
     = lit "{" ++ dq ++ lit "symptoms" ++ dq ++ lit ":"
       ++ QuoteJSONString (textContent tag) ++ lit "}".
Proof.
  split; [|split; [apply symptomTag_click_requests | reflexivity]].
  cbn [click]. rewrite searchBtn_click_spec.
  destruct (truthy (trim (input_value p))); [|reflexivity].
  apply fetchSymptoms_requests.
Qed.

(** C3 fails for the tags: a tag whose text is " Fever " sends that
    text with its spaces, not the trimmed text; and a tag whose text is
    two spaces, empty after trimming, sends a request all the same. *)
Lemma C3_tag_sends_untrimmed_text :
  trim (lit " Fever ") = lit "Fever"
  /\ requests (effects (exec (click (SymptomTag {| textContent := lit " Fever " |})
                                    (FetchRejected EngineTypeError))
                             blank_page))
     = [(endpoint,
         {| method := lit "POST";
            headers := [(lit "Content-Type", lit "application/json")];
            body := lit "{" ++ dq ++ lit "symptoms" ++ dq ++ lit ":"
                    ++ dq ++ lit " Fever " ++ dq ++ lit "}" |})]
  /\ trim (lit "  ") = []
  /\ requests (effects (exec (click (SymptomTag {| textContent := lit "  " |})
                                    (FetchRejected EngineTypeError))
                             blank_page))
     = [(endpoint,
         {| method := lit "POST";
            headers := [(lit "Content-Type", lit "application/json")];
            body := lit "{" ++ dq ++ lit "symptoms" ++ dq ++ lit ":"
                    ++ dq ++ lit "  " ++ dq ++ lit "}" |})].
Proof. repeat split; reflexivity. Qed.

(** C4, as the code has it: a response with a success status whose
    body parses is handed to the renderer unchecked.  The fixed error
    message is shown only if reading or converting a field throws;
    otherwise the fragment is shown, and for an object whose three
    fields are each missing or a primitive value it is the two blocks
    with the fields converted to text (a missing field reads
    "undefined", a missing confidence "NaN%"). *)
Theorem C4_parsed_body_is_rendered
    (symptoms : jsstring) (r : response) (data : json) (p : page) :
  ok r = true ->
  json_result r = JsonParsed data ->
  let final := exec (fetchSymptoms symptoms (FetchResolved r)) p in
  match render data with
  | Normal html =>
      results_innerHTML final = html
      /\ jsstring_eqb html error_html = false
  | Throw _ => results_innerHTML final = error_html
  end
  /\ match data with
     | JObject props =>
         if primitive (own_property props (lit "diagnosis"))
            && primitive (own_property props (lit "confidence"))
            && primitive (own_property props (lit "recommendation"))
         then
           render data
           = Normal (two_block_fragment
                       (text_of (own_property props (lit "diagnosis")))
                       (percent (number_of
                                   (own_property props (lit "confidence"))))
                       (text_of (own_property props (lit "recommendation"))))
         else True
     | JNull => render data = Throw EngineTypeError
     | _ => True
     end.
Proof.
  intros Hok Hjson final. subst final. split.
  - rewrite exec_fetchSymptoms, settled_innerHTML.
    unfold verdict. rewrite Hok, Hjson. cbn [negb].
    destruct (render data) as [html|e] eqn:R; [|reflexivity].
    split; [reflexivity | now apply (rendered_is_not_error data)].
  - destruct data as [| | | | |props]; try exact I; [reflexivity|].
    destruct (primitive (own_property props (lit "diagnosis"))) eqn:Hd;
      [|exact I].
    destruct (primitive (own_property props (lit "confidence"))) eqn:Hc;
      [|exact I].
    destruct (primitive (own_property props (lit "recommendation"))) eqn:Hr;
      [|exact I].
    cbn [andb]. now apply render_primitive_fields.
Qed.

(** An instance: a 200 response whose body is the empty object. *)
Lemma C4_parsed_body_is_rendered_witness :
  ok {| status := 200; json_result := JsonParsed (JObject []) |} = true
  /\ results_innerHTML
       (exec (fetchSymptoms (lit "fever")
                (FetchResolved {| status := 200;
                                  json_result := JsonParsed (JObject []) |}))
             blank_page)
     = two_block_fragment (lit "undefined") (lit "NaN") (lit "undefined").
Proof.
  split; [reflexivity|].
  pose proof (C4_parsed_body_is_rendered (lit "fever")
                {| status := 200; json_result := JsonParsed (JObject []) |}
                (JObject []) blank_page eq_refl eq_refl) as [H1 H2].
  cbn zeta in H1. cbn [primitive own_property andb] in H2.
  rewrite H2 in H1. exact (proj1 H1).
Defined.

(** C4 fails: a 200 response whose body is the empty object, with all
    three fields missing, is not treated as a failure.  The user sees
    the two blocks with "undefined" and "NaN%", not the error message,
    and nothing is logged. *)
Lemma C4_missing_fields_are_rendered :
  let final :=
    exec (fetchSymptoms (lit "fever")
            (FetchResolved {| status := 200;
                              json_result := JsonParsed (JObject []) |}))
         blank_page in
  jsstring_eqb (results_innerHTML final) error_html = false
  /\ results_innerHTML final
     = two_block_fragment (lit "undefined") (lit "NaN") (lit "undefined")
  /\ includes (results_innerHTML final) (lit "Confidence: NaN%") = true
  /\ effects final
     = [ClassListAdd resultContainer hidden;
        SetInnerHTML resultsList searching_html;
        Fetch endpoint (request_init (lit "fever"));
        SetInnerHTML resultsList
          (two_block_fragment (lit "undefined") (lit "NaN") (lit "undefined"));
        ClassListRemove resultContainer hidden].
Proof. vm_compute. repeat split; reflexivity. Qed.

(* ------------------------------------------------------------------ *)
(** ** The claims about the renderer                                   *)
(* ------------------------------------------------------------------ *)

(** C5: on a diagnosis result, [displayResults] writes a fragment that
    depends on the result alone and changes nothing else on the page.
    The fragment is two [div] blocks in this order: the diagnosis block
    with the diagnosis and [Math.round(confidence * 100)] followed by
    the percent sign, then the recommendation block with the
    recommendation.  For the example with confidence 0.85 it contains
    "Tension Headache", "85%" and "Rest and hydrate" in that order. *)
Theorem C5_displayResults_two_blocks (r : DiagnosisResult) (p : page) :
  let html := two_block_fragment (diagnosis r) (percent (confidence r))
                                 (recommendation r) in
  displayResults (json_of r) p
  = (Normal tt,
     {| container_classList := container_classList p;
        results_innerHTML := html;
        input_value := input_value p;
        effects := effects p ++ [SetInnerHTML resultsList html] |})
  /\ count_occurrences (lit "<div") (two_block_fragment [] [] []) = 2%nat
  /\ count_occurrences (lit "</div>") (two_block_fragment [] [] []) = 2%nat
  /\ percent (confidence example_result) = lit "85"
  /\ includes (diagnosis_block (diagnosis example_result)
                               (percent (confidence example_result)))
              (lit "Possible Diagnosis: Tension Headache") = true
  /\ includes (diagnosis_block (diagnosis example_result)
                               (percent (confidence example_result)))
              (lit "Confidence: 85%") = true
  /\ includes (recommendation_block (recommendation example_result))
              (lit "Rest and hydrate") = true
  /\ includes_in_order
       (two_block_fragment (diagnosis example_result)
                           (percent (confidence example_result))
                           (recommendation example_result))
       [lit "Tension Headache"; lit "85%"; lit "Rest and hydrate"] = true.
Proof.
  intros html. subst html. split.
  - rewrite displayResults_render.
    unfold render, json_of. cbn [Get and_then].
    change (own_property _ (lit "diagnosis")) with (Some (JString (diagnosis r))).
    change (own_property _ (lit "confidence")) with (Some (JNumber (confidence r))).
    change (own_property _ (lit "recommendation"))
      with (Some (JString (recommendation r))).
    cbn [ToString ToString_json ToNumber and_then].
    rewrite two_block_fragment_template. reflexivity.
  - vm_compute. repeat split; reflexivity.
Qed.

(** What [displayResults] leaves in the results area for a result of
    the expected shape. *)
Lemma displayResults_result (r : DiagnosisResult) (p : page) :
  results_innerHTML (exec (displayResults (json_of r)) p)
  = two_block_fragment
      (diagnosis r)
      (Number_toString (Math_round (mul (confidence r) (of_Z 100))))
      (recommendation r).
Proof.
  unfold exec. rewrite displayResults_render.
  unfold render, json_of. cbn [Get and_then].
  change (own_property _ (lit "diagnosis")) with (Some (JString (diagnosis r))).
  change (own_property _ (lit "confidence")) with (Some (JNumber (confidence r))).
  change (own_property _ (lit "recommendation"))
    with (Some (JString (recommendation r))).
  cbn [ToString ToString_json ToNumber and_then].
  rewrite two_block_fragment_template. reflexivity.
Qed.

Lemma starts_with_app (p s : jsstring) : starts_with p (p ++ s) = true.
Proof.
  induction p as [|c p IH]; [reflexivity|].
  cbn [app starts_with]. rewrite IH, andb_true_r. apply N.eqb_refl.
Qed.

Lemma includes_middle (a p b : jsstring) : includes (a ++ p ++ b) p = true.
Proof.
  unfold includes. induction a as [|c a IH].
  - cbn [app]. pose proof (starts_with_app p b) as H.
    destruct (p ++ b); cbn [after_first]; now rewrite H.
  - cbn [app after_first].
    destruct (starts_with p (c :: a ++ p ++ b)); [reflexivity | exact IH].
Qed.

(** The fragment shows the percentage after "Confidence: ". *)
Lemma fragment_includes_percent (d c r : jsstring) :
  includes (two_block_fragment d c r) (lit "Confidence: " ++ c ++ lit "%")
  = true.
Proof.
  rewrite <- two_block_fragment_template.
  change template1
    with (firstn (List.length template1 - 12) template1 ++ lit "Confidence: ").
  change template2 with (lit "%" ++ skipn 1 template2).
  set (pre := firstn _ template1). set (post := skipn 1 template2).
  replace (template0 ++ d ++ (pre ++ lit "Confidence: ") ++ c
           ++ (lit "%" ++ post) ++ r ++ template3)
    with ((template0 ++ d ++ pre) ++ (lit "Confidence: " ++ c ++ lit "%")
          ++ (post ++ r ++ template3))
    by (repeat rewrite <- app_assoc; reflexivity).
  apply includes_middle.
Qed.

(** The integers from 0 to 101 print as their decimal digits. *)
Lemma small_integers_print :
  forallb (fun k =>
             jsstring_eqb
               (Number_toString (if Z.of_nat k =? 0 then S754_zero false
                                 else of_Z (Z.of_nat k)))
               (decimal_digits (N.of_nat k)))
          (seq 0 102) = true.
Proof. vm_cast_no_check (eq_refl true). Qed.

Lemma small_integer_prints (r : Z) :
  0 <= r <= 101 ->
  Number_toString (if r =? 0 then S754_zero false else of_Z r)
  = decimal_digits (Z.to_N r).
Proof.
  intros Hr. pose proof small_integers_print as H.
  rewrite forallb_forall in H. specialize (H (Z.to_nat r)).
  rewrite Z2Nat.id, <- Z_N_nat, N2Nat.id in H by lia.
  apply jsstring_eqb_eq, H, in_seq. lia.
Qed.

(** [Math.round] takes [k + 0.5] to [k + 1], for [k] from 0 to 100. *)
Lemma halves_round_up :
  forallb (fun k =>
             number_eqb (Math_round (of_decimal (10 * N.of_nat k + 5) (-1)))
                        (of_Z (Z.of_nat k + 1)))
          (seq 0 101) = true.
Proof. vm_cast_no_check (eq_refl true). Qed.

Lemma number_eqb_eq (x y : number) : number_eqb x y = true -> x = y.
Proof.
  destruct x as [s|s| |s m e], y as [t|t| |t n f]; cbn [number_eqb];
    try discriminate; try reflexivity.
  - intros H. apply Bool.eqb_prop in H. now subst.
  - intros H. apply Bool.eqb_prop in H. now subst.
  - intros H. apply andb_true_iff in H as [H He].
    apply andb_true_iff in H as [Hs Hm].
    apply Bool.eqb_prop in Hs. apply Pos.eqb_eq in Hm. apply Z.eqb_eq in He.
    now subst.
Qed.

Lemma half_rounds_up (k : N) :
  (k <= 100)%N ->
  Number_toString (Math_round (of_decimal (10 * k + 5) (-1)))
  = decimal_digits (k + 1).
Proof.
  intros Hk. pose proof halves_round_up as H.
  rewrite forallb_forall in H. specialize (H (N.to_nat k)).
  rewrite N2Nat.id, N_nat_Z in H.
  rewrite (number_eqb_eq _ _ (H ltac:(apply in_seq; lia))).
  pose proof (small_integer_prints (Z.of_N k + 1) ltac:(lia)) as Hp.
  destruct (Z.eqb_spec (Z.of_N k + 1) 0) as [|_]; [lia|].
  rewrite Hp. f_equal. lia.
Qed.

(** C6, as the code has it: the percentage shown is [Math.round] of the
    binary64 product [confidence * 100], and a product that is exactly
    a half goes up.  Confidence 0.854 is shown as "85%" (the product is
    85.39999999999999) and 0.855 as "86%" (the product is exactly 85.5);
    and whenever the product is [k + 0.5], for [k] from 0 to 100, the
    percentage shown is [k + 1]. *)
Theorem C6_percent_rounds_half_up
    (d rec : jsstring) (c : number) (k : N) (p : page) :
  let shown := fun c =>
    results_innerHTML
      (exec (displayResults
               (json_of {| diagnosis := d; confidence := c;
                           recommendation := rec |}))
            p) in
  shown (of_decimal 854 (-3)) = two_block_fragment d (lit "85") rec
  /\ includes (shown (of_decimal 854 (-3))) (lit "Confidence: 85%") = true
  /\ shown (of_decimal 855 (-3)) = two_block_fragment d (lit "86") rec
  /\ includes (shown (of_decimal 855 (-3))) (lit "Confidence: 86%") = true
  /\ Number_toString (mul (of_decimal 854 (-3)) (of_Z 100))
     = lit "85.39999999999999"
  /\ mul (of_decimal 855 (-3)) (of_Z 100) = of_decimal 855 (-1)
  /\ ((k <= 100)%N ->
      mul c (of_Z 100) = of_decimal (10 * k + 5) (-1) ->
      shown c = two_block_fragment d (decimal_digits (k + 1)) rec).
Proof.
  intros shown. subst shown. cbv beta.
  rewrite !displayResults_result. cbn [diagnosis confidence recommendation].
  assert (H854 : Number_toString
                   (Math_round (mul (of_decimal 854 (-3)) (of_Z 100)))
                 = lit "85") by (vm_compute; reflexivity).
  assert (H855 : Number_toString
                   (Math_round (mul (of_decimal 855 (-3)) (of_Z 100)))
                 = lit "86") by (vm_compute; reflexivity).
  rewrite H854, H855.
  split; [reflexivity|].
  split; [apply (fragment_includes_percent d (lit "85") rec)|].
  split; [reflexivity|].
  split; [apply (fragment_includes_percent d (lit "86") rec)|].
  split; [vm_compute; reflexivity|].
  split; [vm_compute; reflexivity|].
  intros Hk Hc. now rewrite Hc, half_rounds_up.
Qed.

(** C6 fails as a rule about the confidence as it is written: 0.145 and
    0.575 are 14.5 and 57.5 percent, and are shown as "14%" and "57%",
    not "15%" and "58%".  The products are rounded to binary64 before
    [Math.round] sees them, and fall just below the half. *)
Lemma C6_decimal_half_is_rounded_down :
  let shown := fun c =>
    results_innerHTML
      (exec (displayResults
               (json_of {| diagnosis := lit "Flu"; confidence := c;
                           recommendation := lit "Rest" |}))
            blank_page) in
  Number_toString (mul (of_decimal 145 (-3)) (of_Z 100))
  = lit "14.499999999999998"
  /\ includes (shown (of_decimal 145 (-3))) (lit "Confidence: 14%") = true
  /\ includes (shown (of_decimal 145 (-3))) (lit "Confidence: 15%") = false
  /\ Number_toString (mul (of_decimal 575 (-3)) (of_Z 100))
     = lit "57.49999999999999"
  /\ includes (shown (of_decimal 575 (-3))) (lit "Confidence: 57%") = true
  /\ includes (shown (of_decimal 575 (-3))) (lit "Confidence: 58%") = false.
Proof. vm_compute. repeat split; reflexivity. Qed.

(** C7: a click on the tag labelled "Fever" writes "Fever" into the
    search field and, in the same handler, sends the request whose body
    is [{"symptoms":"Fever"}]. *)
Theorem C7_fever_tag (o : fetch_outcome) (p : page) :
  let final := exec (click (SymptomTag {| textContent := lit "Fever" |}) o) p in
  input_value final = lit "Fever"
  /\ effects final
     = effects p
       ++ [SetValue searchInput (lit "Fever");
           ClassListAdd resultContainer hidden;
           SetInnerHTML resultsList searching_html;
           Fetch endpoint
             {| method := lit "POST";
                headers := [(lit "Content-Type", lit "application/json")];
                body := lit "{" ++ dq ++ lit "symptoms" ++ dq ++ lit ":"
                        ++ dq ++ lit "Fever" ++ dq ++ lit "}" |}]
       ++ settle_effects o
  /\ requests (settle_effects o) = [].
Proof.
  intros final. subst final. cbn [click].
  rewrite symptomTag_click_spec, exec_fetchSymptoms.
  split; [now rewrite settled_input|].
  split; [|apply settle_effects_no_request].
  rewrite settled_effects, begin_effects.
  unfold exec. cbn [set_value log snd effects textContent].
  rewrite <- !app_assoc. reflexivity.
Qed.

End QueryFacts.

(* ================================================================== *)
(** * Properties of the hero animation                                 *)
(* ================================================================== *)

Module HeroFacts.
Import JS Hero.

Lemma reduced_motion_returns (hero : bool) (w : window) :
  periodicHeroAnimation true hero w = w.
Proof. reflexivity. Qed.

(** With no timer pending nothing can happen to the window. *)
Lemma step_without_timers (w w' : window) :
  timers w = [] -> step w w' -> w' = w.
Proof.
  intros Ht Hs. destruct Hs as [w t Hin|w].
  - rewrite Ht in Hin. destruct Hin.
  - destruct w. cbn in Ht. subst. reflexivity.
Qed.

Lemma steps_without_timers (w w' : window) :
  timers w = [] -> steps w w' -> w' = w.
Proof.
  intros Ht Hs. induction Hs as [w|w1 w2 w3 _ IH Hstep].
  - reflexivity.
  - specialize (IH Ht). subst w2. now apply step_without_timers.
Qed.

(** C9: with the reduced-motion preference set when the script runs,
    the animation registers no timer, and after any number of turns of
    the event loop the script has not added [hero-animate] (or any
    class) to the hero element, whose class list is as it was loaded. *)
Theorem C9_reduced_motion_never_animates
    (hero : bool) (classes : list jsstring) (w : window) :
  steps (periodicHeroAnimation true hero (loaded classes)) w ->
  adds (effects w) = []
  /\ hero_classList w = classes
  /\ timers w = [].
Proof.
  intros Hs. rewrite reduced_motion_returns in Hs.
  apply steps_without_timers in Hs; [|reflexivity].
  subst w. repeat split.
Qed.

(** An instance: the page as loaded, with a hero element. *)
Lemma C9_reduced_motion_never_animates_witness :
  steps (periodicHeroAnimation true true (loaded [])) (loaded [])
  /\ adds (effects (loaded [])) = [].
Proof.
  split; [apply steps_refl|].
  apply (C9_reduced_motion_never_animates true [] (loaded [])).
  apply steps_refl.
Defined.

(** Without the preference the model does animate: the first timer to
    fire adds the class. *)
Lemma animation_plays_otherwise :
  exists w,
    steps (periodicHeroAnimation false true (loaded [])) w
    /\ adds (effects w) = [hero_animate]
    /\ hero_classList w = [hero_animate].
Proof.
  eexists. split.
  - eapply steps_more; [apply steps_refl|].
    apply (step_fire _ {| id := 1; due := 220; every := None; run := playOnce |}).
    cbn. now left.
  - split; reflexivity.
Qed.

End HeroFacts.

(* ================================================================== *)
(** * Properties of binary64 arithmetic                                *)
(* ================================================================== *)

Module FloatFacts.
Import JS.

(** ** Binary digits *)

Lemma fexp_spec (k : Z) : fexp prec emax k = Z.max (k - 53) (-1074).
Proof. reflexivity. Qed.

Lemma digits2_size (p : positive) : digits2_pos p = Pos.size p.
Proof. induction p; cbn; now rewrite ?IHp. Qed.

Lemma digits2_upper (p : positive) : Zpos p < 2 ^ Zpos (digits2_pos p).
Proof.
  rewrite digits2_size.
  pose proof (Pos.size_gt p) as H.
  apply Pos2Z.pos_lt_pos in H. now rewrite Pos2Z.inj_pow in H.
Qed.

Lemma digits2_lower (p : positive) : 2 ^ (Zpos (digits2_pos p) - 1) <= Zpos p.
Proof.
  rewrite digits2_size.
  pose proof (Pos.size_le p) as H.
  apply Pos2Z.pos_le_pos in H. rewrite Pos2Z.inj_pow in H.
  replace (Zpos (Pos.size p)) with (Z.succ (Zpos (Pos.size p) - 1)) in H by lia.
  rewrite Z.pow_succ_r in H by lia. lia.
Qed.

Lemma Zdigits2_upper (m : Z) : 0 <= m -> m < 2 ^ Zdigits2 m.
Proof.
  destruct m as [|p|p]; intros H; cbn [Zdigits2]; [reflexivity| |lia].
  apply digits2_upper.
Qed.

Lemma Zdigits2_nonneg (m : Z) : 0 <= Zdigits2 m.
Proof. destruct m; cbn; lia. Qed.

(** ** Shifting a mantissa to the right *)

Lemma iter_pos_nat {A} (f : A -> A) (p : positive) (x : A) :
  iter_pos f p x = Nat.iter (Pos.to_nat p) f x.
Proof.
  revert x. induction p as [p IH|p IH|]; intros x; cbn [iter_pos].
  - rewrite !IH, Pos2Nat.inj_xI.
    rewrite <- Nat.iter_add, <- Nat.iter_succ_r. f_equal. lia.
  - rewrite !IH, Pos2Nat.inj_xO, <- Nat.iter_add. f_equal. lia.
  - reflexivity.
Qed.

Lemma shr_1_m (mrs : shr_record) :
  0 <= shr_m mrs -> shr_m (shr_1 mrs) = shr_m mrs / 2.
Proof.
  destruct mrs as [m r s]. cbn [shr_m shr_1]. intros H.
  rewrite <- Z.div2_div.
  destruct m as [|[p|p|]|p]; cbn [shr_m]; try reflexivity; lia.
Qed.

Lemma iter_shr_1_m (k : nat) (mrs : shr_record) :
  0 <= shr_m mrs ->
  shr_m (Nat.iter k shr_1 mrs) = shr_m mrs / 2 ^ Z.of_nat k.
Proof.
  intros H. induction k as [|k IH].
  - cbn. now rewrite Z.div_1_r.
  - rewrite Nat.iter_succ, shr_1_m.
    + rewrite IH, Nat2Z.inj_succ, Z.pow_succ_r by lia.
      rewrite Z.div_div by lia. f_equal. lia.
    + rewrite IH. apply Z.div_pos; lia.
Qed.

(** Shifting an exact mantissa keeps it exact as long as only zero bits
    are dropped. *)
Lemma iter_shr_1_exact (k : nat) (m : Z) :
  0 <= m -> m mod 2 ^ Z.of_nat k = 0 ->
  Nat.iter k shr_1 {| shr_m := m; shr_r := false; shr_s := false |}
  = {| shr_m := m / 2 ^ Z.of_nat k; shr_r := false; shr_s := false |}.
Proof.
  intros Hm. induction k as [|k IH]; intros Hmod.
  - cbn. now rewrite Z.div_1_r.
  - rewrite Nat2Z.inj_succ, Z.pow_succ_r in Hmod by lia.
    assert (Hk : m mod 2 ^ Z.of_nat k = 0).
    { apply Z.mod_divide in Hmod; [|lia]. apply Z.mod_divide; [lia|].
      destruct Hmod as [q Hq]. exists (q * 2). lia. }
    rewrite Nat.iter_succ, (IH Hk).
    assert (Heven : (m / 2 ^ Z.of_nat k) mod 2 = 0).
    { apply Z.mod_divide in Hmod; [|lia]. destruct Hmod as [q Hq].
      rewrite Hq. replace (q * (2 * 2 ^ Z.of_nat k))
        with (q * 2 * 2 ^ Z.of_nat k) by lia.
      rewrite Z.div_mul by lia. apply Z.mod_mul. lia. }
    rewrite Nat2Z.inj_succ, Z.pow_succ_r by lia.
    rewrite (Z.mul_comm 2), <- Z.div_div by lia.
    set (h := m / 2 ^ Z.of_nat k) in *.
    assert (Hh : 0 <= h) by (apply Z.div_pos; lia).
    rewrite <- Z.div2_div.
    destruct h as [|[p|p|]|p]; cbn [shr_1 orb]; try reflexivity; try lia.
    + exfalso. rewrite Pos2Z.inj_xI in Heven.
      rewrite Z.add_comm, Z.mul_comm, Z.mod_add in Heven by lia. discriminate.
    + discriminate.
Qed.

Lemma shr_spec (mrs : shr_record) (e n : Z) :
  shr mrs e n
  = if 0 <? n then (Nat.iter (Z.to_nat n) shr_1 mrs, e + n) else (mrs, e).
Proof.
  destruct n as [|p|p]; cbn [shr Z.ltb Z.compare]; try reflexivity.
  now rewrite iter_pos_nat.
Qed.

Lemma shr_record_of_loc_m (m : Z) (l : location) :
  shr_m (shr_record_of_loc m l) = m.
Proof. destruct l as [|[ | | ]]; reflexivity. Qed.

(** [shr_fexp] divides the mantissa by the power of two that brings the
    exponent up to the one of the format. *)
Lemma shr_fexp_spec (m e : Z) (l : location) :
  0 <= m ->
  let n := Z.max 0 (fexp prec emax (Zdigits2 m + e) - e) in
  shr_m (fst (shr_fexp prec emax m e l)) = m / 2 ^ n
  /\ snd (shr_fexp prec emax m e l) = e + n.
Proof.
  intros Hm n. subst n. unfold shr_fexp. rewrite shr_spec.
  set (k := fexp prec emax (Zdigits2 m + e) - e).
  destruct (Z.ltb_spec 0 k) as [Hk|Hk]; cbn [fst snd].
  - rewrite iter_shr_1_m by now rewrite shr_record_of_loc_m.
    rewrite shr_record_of_loc_m, Z2Nat.id, Z.max_r by lia. now split.
  - rewrite shr_record_of_loc_m, Z.max_l by lia.
    rewrite Z.div_1_r. split; lia.
Qed.

Lemma shr_fexp_m_nonneg (m e : Z) (l : location) :
  0 <= m -> 0 <= shr_m (fst (shr_fexp prec emax m e l)).
Proof.
  intros Hm. destruct (shr_fexp_spec m e l Hm) as [-> _].
  apply Z.div_pos; lia.
Qed.

(** What is left has at most 53 bits. *)
Lemma shr_fexp_m_small (m e : Z) (l : location) :
  0 <= m -> shr_m (fst (shr_fexp prec emax m e l)) < 2 ^ 53.
Proof.
  intros Hm. destruct (shr_fexp_spec m e l Hm) as [-> _].
  set (d := Zdigits2 m).
  assert (Hd : 0 <= d) by apply Zdigits2_nonneg.
  assert (Hu : m < 2 ^ d) by now apply Zdigits2_upper.
  rewrite fexp_spec. fold d.
  set (n := Z.max 0 (Z.max (d + e - 53) (-1074) - e)).
  assert (Hn : 0 <= n) by lia.
  apply Z.div_lt_upper_bound; [lia|].
  rewrite <- Z.pow_add_r by lia.
  apply Z.lt_le_trans with (1 := Hu).
  apply Z.pow_le_mono_r; lia.
Qed.

Lemma round_nearest_even_bounds (m : Z) (l : location) :
  m <= round_nearest_even m l <= m + 1.
Proof.
  destruct l as [|[ | | ]]; cbn [round_nearest_even]; try lia.
  destruct (Z.even m); lia.
Qed.

(** ** The shape of a rounded result *)

Lemma binary_round_aux_shape (s : bool) (m e : Z) (l : location) :
  0 <= m -> shape s (binary_round_aux prec emax s m e l).
Proof.
  intros Hm. unfold binary_round_aux.
  destruct (shr_fexp prec emax m e l) as [mrs' e'] eqn:E1.
  assert (H1 : 0 <= shr_m mrs').
  { change mrs' with (fst (mrs', e')). rewrite <- E1.
    now apply shr_fexp_m_nonneg. }
  set (mr := round_nearest_even (shr_m mrs') (loc_of_shr_record mrs')).
  assert (Hr : 0 <= mr).
  { pose proof (round_nearest_even_bounds (shr_m mrs') (loc_of_shr_record mrs')).
    subst mr. lia. }
  destruct (shr_fexp prec emax mr e' loc_Exact) as [mrs'' e''] eqn:E2.
  pose proof (shr_fexp_m_nonneg mr e' loc_Exact Hr) as H2.
  pose proof (shr_fexp_m_small mr e' loc_Exact Hr) as H3.
  rewrite E2 in H2, H3. cbn [fst] in H2, H3.
  destruct (shr_m mrs'') as [|p|p].
  - constructor.
  - destruct (e'' <=? emax - prec); now constructor.
  - lia.
Qed.

(** ** Rounding does not cross a representable bound *)

Lemma canonical_exponent (Mb : positive) (Eb : Z) :
  bounded prec emax Mb Eb = true ->
  fexp prec emax (Zpos (digits2_pos Mb) + Eb) = Eb /\ Eb <= 971.
Proof.
  unfold bounded, canonical_mantissa. intros H.
  apply andb_true_iff in H as [H1 H2].
  apply Z.eqb_eq in H1. apply Z.leb_le in H2. split; [exact H1|].
  exact H2.
Qed.

Lemma digits_le (m e : Z) (Mb : positive) (Eb : Z) :
  0 < m -> e <= Eb -> m <= Zpos Mb * 2 ^ (Eb - e) ->
  Zdigits2 m + e <= Zpos (digits2_pos Mb) + Eb.
Proof.
  intros Hm He Hle. destruct m as [|p|p]; try lia. cbn [Zdigits2].
  pose proof (digits2_lower p) as Hl.
  pose proof (digits2_upper Mb) as Hu.
  set (d := Zpos (digits2_pos p)) in *. set (dB := Zpos (digits2_pos Mb)) in *.
  assert (Hp : 0 < 2 ^ (Eb - e)) by (apply Z.pow_pos_nonneg; lia).
  assert (H : 2 ^ (d - 1) < 2 ^ (dB + (Eb - e))).
  { rewrite Z.pow_add_r by lia.
    apply Z.le_lt_trans with (Zpos Mb * 2 ^ (Eb - e)); [lia|].
    apply Z.mul_lt_mono_pos_r; assumption. }
  apply Z.pow_lt_mono_r_iff in H; lia.
Qed.

Lemma shr_fexp_bound (m e : Z) (l : location) (Mb : positive) (Eb : Z) :
  0 <= m -> e <= Eb -> m <= Zpos Mb * 2 ^ (Eb - e) ->
  bounded prec emax Mb Eb = true ->
  snd (shr_fexp prec emax m e l) <= Eb
  /\ shr_m (fst (shr_fexp prec emax m e l))
     <= Zpos Mb * 2 ^ (Eb - snd (shr_fexp prec emax m e l)).
Proof.
  intros Hm He Hle Hb.
  destruct (canonical_exponent Mb Eb Hb) as [Hc _].
  destruct (shr_fexp_spec m e l Hm) as [-> ->].
  set (n := Z.max 0 (fexp prec emax (Zdigits2 m + e) - e)).
  assert (Hn : 0 <= n) by lia.
  assert (Hf : e + n <= Eb).
  { destruct (Z.eq_dec m 0) as [->|Hne].
    - subst n. cbn [Zdigits2]. rewrite fexp_spec in *. lia.
    - pose proof (digits_le m e Mb Eb ltac:(lia) He Hle) as Hd.
      subst n. rewrite fexp_spec in *. lia. }
  split; [exact Hf|].
  apply Z.div_le_upper_bound; [lia|].
  rewrite Z.mul_comm, <- Z.mul_assoc, <- Z.pow_add_r by lia.
  replace (Eb - (e + n) + n) with (Eb - e) by lia. exact Hle.
Qed.

Lemma shr_fexp_exact (m e : Z) :
  0 <= m ->
  m mod 2 ^ Z.max 0 (fexp prec emax (Zdigits2 m + e) - e) = 0 ->
  loc_of_shr_record (fst (shr_fexp prec emax m e loc_Exact)) = loc_Exact.
Proof.
  intros Hm Hmod. unfold shr_fexp. rewrite shr_spec.
  set (k := fexp prec emax (Zdigits2 m + e) - e) in *.
  destruct (Z.ltb_spec 0 k) as [Hk|Hk]; cbn [fst shr_record_of_loc];
    [|reflexivity].
  rewrite Z.max_r in Hmod by lia.
  rewrite iter_shr_1_exact; [reflexivity | exact Hm |].
  now rewrite Z2Nat.id by lia.
Qed.

(** If the exact value [m * 2 ^ e] is at most a representable
    [Mb * 2 ^ Eb], so is its rounding, which is finite. *)
Lemma binary_round_aux_bound (s : bool) (m e : Z) (Mb : positive) (Eb : Z) :
  0 < m -> e <= Eb -> m <= Zpos Mb * 2 ^ (Eb - e) ->
  bounded prec emax Mb Eb = true ->
  mag_le (binary_round_aux prec emax s m e loc_Exact) Mb Eb.
Proof.
  intros Hm He Hle Hb. unfold binary_round_aux.
  assert (Hm0 : 0 <= m) by lia.
  pose proof (shr_fexp_spec m e loc_Exact Hm0) as [Hm1 He1].
  pose proof (shr_fexp_bound m e loc_Exact Mb Eb Hm0 He Hle Hb) as [Hb1 Hb2].
  pose proof (shr_fexp_exact m e Hm0) as Hex.
  destruct (shr_fexp prec emax m e loc_Exact) as [mrs' e'].
  cbn [fst snd] in *. cbv zeta in Hm1, He1.
  set (n := Z.max 0 (fexp prec emax (Zdigits2 m + e) - e)) in *.
  assert (Hn : 0 <= n) by lia.
  set (mr := round_nearest_even (shr_m mrs') (loc_of_shr_record mrs')).
  assert (Hr : 0 <= mr <= Zpos Mb * 2 ^ (Eb - e')).
  { pose proof (round_nearest_even_bounds (shr_m mrs') (loc_of_shr_record mrs'))
      as Hrb. fold mr in Hrb.
    assert (H0 : 0 <= shr_m mrs') by (rewrite Hm1; apply Z.div_pos; lia).
    split; [lia|].
    destruct (Z.eq_dec (m mod 2 ^ n) 0) as [Hz|Hnz].
    - subst mr. rewrite (Hex Hz). cbn [round_nearest_even]. exact Hb2.
    - assert (Hlt : shr_m mrs' < Zpos Mb * 2 ^ (Eb - e')).
      { apply Z.mul_lt_mono_pos_r with (p := 2 ^ n); [lia|].
        rewrite <- Z.mul_assoc, <- Z.pow_add_r by lia.
        replace (Eb - e' + n) with (Eb - e) by lia.
        apply Z.lt_le_trans with (2 := Hle).
        pose proof (Z.div_mod m (2 ^ n) ltac:(lia)) as Hdm.
        pose proof (Z.mod_pos_bound m (2 ^ n) ltac:(lia)) as Hmb.
        rewrite Hm1. lia. }
      lia. }
  destruct Hr as [Hr0 Hr1].
  pose proof (shr_fexp_spec mr e' loc_Exact Hr0) as [Hm2 _].
  pose proof (shr_fexp_bound mr e' loc_Exact Mb Eb Hr0 Hb1 Hr1 Hb) as [Hc1 Hc2].
  destruct (shr_fexp prec emax mr e' loc_Exact) as [mrs'' e''].
  cbn [fst snd] in *.
  assert (H2 : 0 <= shr_m mrs'') by (rewrite Hm2; apply Z.div_pos; lia).
  destruct (canonical_exponent Mb Eb Hb) as [_ Hmax].
  destruct (shr_m mrs'') as [|p|p]; cbn [mag_le]; [exact I| |lia].
  destruct (Z.leb_spec e'' (emax - prec)) as [_|Hgt]; cbn [mag_le].
  - now split.
  - unfold emax, prec in Hgt. lia.
Qed.

(** ** The operations *)

Lemma shape_wf (s : bool) (x : number) : shape s x -> wf x.
Proof. intros [| |m e H]; cbn [wf]; try exact I; exact H. Qed.

Lemma Pos_iter_xO (m d : positive) :
  Zpos (Pos.iter xO m d) = Zpos m * 2 ^ Zpos d.
Proof.
  induction d as [|d IH] using Pos.peano_ind.
  - cbn [Pos.iter]. rewrite Pos2Z.inj_xO. lia.
  - rewrite Pos.iter_succ, Pos2Z.inj_xO, IH, Pos2Z.inj_succ, Z.pow_succ_r; lia.
Qed.

Lemma shl_align_spec (mx : positive) (ex ex' : Z) :
  snd (shl_align mx ex ex') = Z.min ex ex'
  /\ Zpos (fst (shl_align mx ex ex'))
     = Zpos mx * 2 ^ (ex - Z.min ex ex').
Proof.
  unfold shl_align. destruct (ex' - ex) as [|d|d] eqn:E; cbn [fst snd].
  - rewrite Z.min_l by lia. rewrite Z.sub_diag. split; lia.
  - rewrite Z.min_l by lia. rewrite Z.sub_diag. split; lia.
  - rewrite Z.min_r by lia. split; [reflexivity|].
    rewrite Pos_iter_xO. f_equal. f_equal. lia.
Qed.

Lemma binary_round_shape (s : bool) (mx : positive) (ex : Z) :
  shape s (binary_round prec emax s mx ex).
Proof.
  unfold binary_round.
  destruct (shl_align mx ex _) as [mz ez].
  now apply binary_round_aux_shape.
Qed.

Lemma binary_round_bound (s : bool) (mx : positive) (ex : Z)
    (Mb : positive) (Eb : Z) :
  ex <= Eb -> Zpos mx <= Zpos Mb * 2 ^ (Eb - ex) ->
  bounded prec emax Mb Eb = true ->
  mag_le (binary_round prec emax s mx ex) Mb Eb.
Proof.
  intros He Hle Hb. unfold binary_round.
  pose proof (shl_align_spec mx ex
                (fexp prec emax (Zpos (digits2_pos mx) + ex))) as [H1 H2].
  destruct (shl_align mx ex _) as [mz ez]. cbn [fst snd] in *.
  rewrite <- H1 in H2.
  apply binary_round_aux_bound; [lia | lia | | exact Hb].
  rewrite H2.
  replace (Eb - ez) with (Eb - ex + (ex - ez)) by lia.
  rewrite Z.pow_add_r, Z.mul_assoc by lia.
  apply Z.mul_le_mono_nonneg_r; [|exact Hle].
  apply Z.pow_nonneg. lia.
Qed.

Lemma binary_normalize_wf (D e : Z) (sz : bool) :
  wf (binary_normalize prec emax D e sz).
Proof.
  destruct D as [|p|p]; cbn [binary_normalize]; [exact I| |];
    eapply shape_wf, binary_round_shape.
Qed.

Lemma binary_normalize_bound (D e : Z) (Mb : positive) (Eb : Z) :
  e <= Eb -> Z.abs D <= Zpos Mb * 2 ^ (Eb - e) ->
  bounded prec emax Mb Eb = true ->
  mag_le (binary_normalize prec emax D e false) Mb Eb.
Proof.
  intros He Hle Hb.
  destruct D as [|p|p]; cbn [binary_normalize]; [exact I| |];
    apply binary_round_bound; auto; lia.
Qed.

Lemma wf_not_nan (x : number) : wf x -> x <> S754_nan.
Proof. intros H ->. exact H. Qed.

(** Subtracting finite numbers never gives NaN. *)
Lemma sub_finite_not_nan (a b : number) :
  finite a = true -> finite b = true -> sub a b <> S754_nan.
Proof.
  unfold sub, SFsub.
  destruct a as [sa|sa| |sa ma ea], b as [sb|sb| |sb mb eb];
    try discriminate; intros _ _.
  - destruct sa, sb; discriminate.
  - apply wf_not_nan, binary_normalize_wf.
Qed.

Lemma div_eucl_quotient_nonneg (a b : Z) :
  0 <= a -> 0 < b -> 0 <= fst (Z.div_eucl a b).
Proof. intros Ha Hb. change (0 <= a / b). apply Z.div_pos; lia. Qed.

Lemma SFdiv_core_binary_nonneg (m1 m2 : positive) (e1 e2 : Z) :
  0 <= fst (fst (SFdiv_core_binary prec emax (Zpos m1) e1 (Zpos m2) e2)).
Proof.
  unfold SFdiv_core_binary.
  set (s := _ - _ - _).
  set (m' := match s with Zpos _ => Z.shiftl (Zpos m1) s | Z0 => Zpos m1
             | Zneg _ => 0 end).
  assert (Hm : 0 <= m').
  { subst m'. destruct s; try lia. apply Z.shiftl_nonneg. lia. }
  pose proof (div_eucl_quotient_nonneg m' (Zpos m2) Hm ltac:(lia)) as H.
  destruct (Z.div_eucl m' (Zpos m2)) as [q r]. exact H.
Qed.

(** Dividing anything but NaN by a positive finite number gives a
    number with at most 53 bits. *)
Lemma div_wf (d size : number) :
  d <> S754_nan -> positive_finite size = true -> wf (div d size).
Proof.
  intros Hd Hs. destruct size as [| | |[|] ms es]; try discriminate.
  unfold div, SFdiv.
  destruct d as [sd|sd| |sd md ed]; [exact I | exact I | congruence |].
  pose proof (SFdiv_core_binary_nonneg md ms ed es) as H.
  destruct (SFdiv_core_binary prec emax (Zpos md) ed (Zpos ms) es)
    as [[mz ez] lz].
  eapply shape_wf, binary_round_aux_shape. exact H.
Qed.

Lemma mag_le_fin (x : number) (Mb : positive) (Eb : Z) :
  mag_le x Mb Eb -> fin x.
Proof. destruct x; cbn [mag_le fin]; intros H; try exact I; exact H. Qed.

Lemma square_shape (d : number) : fin d -> shape false (mul d d).
Proof.
  destruct d as [s|s| |s m e]; cbn [fin]; try contradiction; intros _.
  - unfold mul, SFmul. rewrite xorb_nilpotent. constructor.
  - unfold mul, SFmul. rewrite xorb_nilpotent.
    apply binary_round_aux_shape, Pos2Z.is_nonneg.
Qed.

Lemma mul_positive_shape (a b : number) :
  shape false a -> positive_finite b = true -> shape false (mul a b).
Proof.
  intros Ha Hb. destruct b as [| | |[|] mb eb]; try discriminate.
  destruct Ha as [| |ma ea Hm]; unfold mul, SFmul; cbn [xorb].
  - constructor.
  - constructor.
  - apply binary_round_aux_shape, Pos2Z.is_nonneg.
Qed.

Lemma add_shape (a b : number) :
  shape false a -> shape false b -> shape false (add a b).
Proof.
  intros [| |ma ea Ha] [| |mb eb Hb]; unfold add, SFadd;
    try (constructor; assumption).
  cbn [cond_Zopp].
  match goal with
  | |- context [binary_normalize _ _ (Zpos ?p + Zpos ?q) ?e _] =>
      change (Zpos p + Zpos q) with (Zpos (p + q))
  end.
  cbn [binary_normalize]. apply binary_round_shape.
Qed.

Lemma sqrt_shape (a : number) : shape false a -> shape false (Math_sqrt a).
Proof.
  intros [| |m e H]; unfold Math_sqrt, SFsqrt; try constructor.
  unfold SFsqrt_core_binary.
  set (m' := match _ with Zpos _ => _ | Z0 => _ | Zneg _ => _ end).
  pose proof (Z.sqrtrem_spec m') as Hs.
  assert (Hq : 0 <= m' -> 0 <= fst (Z.sqrtrem m')).
  { intros H0. specialize (Hs H0). destruct (Z.sqrtrem m'). cbn. lia. }
  assert (Hm : 0 <= m').
  { subst m'. destruct (e - 2 * _); try lia. apply Z.shiftl_nonneg. lia. }
  specialize (Hq Hm).
  destruct (Z.sqrtrem m') as [q r]. cbn [fst] in Hq.
  apply binary_round_aux_shape. exact Hq.
Qed.

End FloatFacts.

(* ================================================================== *)
(** * Properties of the tilt                                           *)
(* ================================================================== *)

Module TiltFacts.
Import JS Tilt FloatFacts.

Lemma tilt_of_normalized (clientX clientY : option number) (r : DOMRect) :
  tilt_of clientX clientY r
  = tilt_at (normalized clientX (left r) (width r))
            (normalized clientY (top r) (height r)).
Proof. reflexivity. Qed.

(** C8: the rotation is [(cx - 0.5) * 20] and [(0.5 - cy) * 20] of the
    clamped normalized position, which takes 0, 1/4, 1/2, 3/4, 1 to
    -10, -5, 0, 5, 10 degrees, and the glare is 1 minus 1.5 times the
    distance from the centre, clamped to [0, 1].  At the centre the
    rotation is (0, 0) and the glare 1; at each corner both rotations
    have magnitude 10, towards that corner, and the glare is 0. *)
Theorem C8_tilt_centre_and_corners :
  (forall clientX clientY r,
      let t := tilt_of clientX clientY r in
      let x := normalized clientX (left r) (width r) in
      let y := normalized clientY (top r) (height r) in
      let dist := Math_sqrt (add (mul (sub (clamp x) half) (sub (clamp x) half))
                                 (mul (sub (clamp y) half) (sub (clamp y) half))) in
      rotateY t = mul (sub (clamp x) half) (of_Z 20)
      /\ rotateX t = mul (sub half (clamp y)) (of_Z 20)
      /\ g t = Math_max (of_Z 0)
                 (Math_min (of_Z 1) (sub (of_Z 1) (mul dist one_and_half))))
  /\ map (fun c => rotateY (tilt_at c half))
         [of_Z 0; of_decimal 25 (-2); half; of_decimal 75 (-2); of_Z 1]
     = [of_Z (-10); of_Z (-5); pos_zero; of_Z 5; of_Z 10]
  /\ map (fun c => rotateX (tilt_at half c))
         [of_Z 0; of_decimal 25 (-2); half; of_decimal 75 (-2); of_Z 1]
     = [of_Z 10; of_Z 5; pos_zero; of_Z (-5); of_Z (-10)]
  /\ g (tilt_at half (of_decimal 75 (-2))) = of_decimal 625 (-3)
  /\ tilt_at half half
     = {| cx := half; cy := half; rotateX := pos_zero; rotateY := pos_zero;
          g := of_Z 1 |}
  /\ map (fun c => let t := tilt_at (fst c) (snd c) in
                   (rotateX t, rotateY t, g t))
         [(of_Z 0, of_Z 0); (of_Z 1, of_Z 0); (of_Z 0, of_Z 1); (of_Z 1, of_Z 1)]
     = [(of_Z 10, of_Z (-10), pos_zero); (of_Z 10, of_Z 10, pos_zero);
        (of_Z (-10), of_Z (-10), pos_zero); (of_Z (-10), of_Z 10, pos_zero)]
  /\ (let c := handleMove sample_rect (MouseMove (of_Z 200) (of_Z 100)) fresh_card in
      transform c = lit "perspective(1000px) rotateX(0deg) rotateY(0deg) scale(1.03)"
      /\ var_g c = lit "1")
  /\ (let c := handleMove sample_rect (MouseMove (of_Z 300) (of_Z 50)) fresh_card in
      transform c = lit "perspective(1000px) rotateX(10deg) rotateY(10deg) scale(1.03)"
      /\ var_g c = lit "0").
Proof.
  split; [intros; repeat split|].
  vm_compute. repeat split; reflexivity.
Qed.

(** ** The constants of [handleMove] *)

Lemma zero_eq : of_Z 0 = S754_zero false.
Proof. reflexivity. Qed.
Lemma one_eq : of_Z 1 = S754_finite false 4503599627370496 (-52).
Proof. reflexivity. Qed.
Lemma half_eq : half = S754_finite false 4503599627370496 (-53).
Proof. reflexivity. Qed.
Lemma twenty_eq : of_Z 20 = S754_finite false 5629499534213120 (-48).
Proof. reflexivity. Qed.
Lemma one_and_half_eq : one_and_half = S754_finite false 6755399441055744 (-52).
Proof. reflexivity. Qed.

(** [lia] is kept away from the large powers of two. *)
Ltac numerals :=
  change (2 ^ 53) with 9007199254740992 in *;
  change (2 ^ 52) with 4503599627370496 in *.

(** ** Clamping *)

Lemma clamp_clamped (v : number) : wf v -> clamped (clamp v).
Proof.
  unfold clamp. rewrite zero_eq, one_eq.
  destruct v as [s|s| |s m e]; cbn [wf]; intros H.
  - left. reflexivity.
  - destruct s; [left | right; left]; reflexivity.
  - contradiction.
  - destruct s; [left; reflexivity|].
    unfold Math_min, SFcompare.
    destruct (Z.compare_spec (-52) e) as [He|He|He].
    + change (Pos.compare_cont Eq 4503599627370496 m)
        with (Pos.compare 4503599627370496 m).
      destruct (Pos.compare_spec 4503599627370496 m) as [Hm|Hm|Hm].
      * right; left; reflexivity.
      * right; left; reflexivity.
      * right; right. exists m, e. split; [reflexivity|].
        right. split; [now symmetry|]. apply Pos2Z.pos_lt_pos in Hm. exact Hm.
    + right; left; reflexivity.
    + right; right. exists m, e. split; [reflexivity|]. left.
      split; [|exact H]. clear H. lia.
Qed.

Lemma clamped_in_range (c : number) : clamped c -> in_range 0 1 c = true.
Proof.
  intros [->|[->|(m & e & -> & H)]]; [reflexivity | reflexivity |].
  unfold in_range. cbn [cond_Zopp].
  assert (He : e <= -52) by (clear - H; numerals; lia).
  destruct (Z.leb_spec 0 e) as [?|_]; [lia|].
  apply andb_true_iff. split; apply Z.leb_le; [lia|].
  rewrite Z.mul_1_l.
  destruct H as [[He' Hm]|[-> Hm]].
  - apply Z.lt_le_incl, Z.lt_le_trans with (1 := Hm).
    apply Z.pow_le_mono_r; lia.
  - apply Z.lt_le_incl. exact Hm.
Qed.

(** ** The rotation *)

Lemma sub_half_bound (m : positive) (e : Z) :
  (e <= -53 /\ Zpos m < 2 ^ 53) \/ (e = -52 /\ Zpos m < 2 ^ 52) ->
  mag_le (sub (S754_finite false m e) half) 4503599627370496 (-53)
  /\ mag_le (sub half (S754_finite false m e)) 4503599627370496 (-53).
Proof.
  intros H. rewrite half_eq. unfold sub, SFsub. cbn [cond_Zopp].
  pose proof (shl_align_spec m e (Z.min e (-53))) as [_ H1].
  pose proof (shl_align_spec 4503599627370496 (-53) (Z.min e (-53))) as [_ H2].
  pose proof (shl_align_spec 4503599627370496 (-53) (Z.min (-53) e)) as [_ H3].
  pose proof (shl_align_spec m e (Z.min (-53) e)) as [_ H4].
  rewrite H1, H2, H3, H4. clear H1 H2 H3 H4.
  assert (Hb : bounded prec emax 4503599627370496 (-53) = true) by reflexivity.
  destruct H as [[He Hm]|[-> Hm]].
  - rewrite (Z.min_l e (-53)), (Z.min_r (-53) e) by lia.
    rewrite Z.min_id, Z.sub_diag, Z.pow_0_r, Z.mul_1_r.
    rewrite (Z.min_r (-53) e) by lia.
    assert (HK : 1 <= 2 ^ (-53 - e)).
    { change 1 with (2 ^ 0). apply Z.pow_le_mono_r; lia. }
    set (K := 2 ^ (-53 - e)) in *.
    numerals.
    split; apply binary_normalize_bound; try exact Hb; try lia.
  - change (Z.min (-52) (-53)) with (-53). change (Z.min (-53) (-52)) with (-53).
    change (Z.min (-52) (-53)) with (-53). change (Z.min (-53) (-53)) with (-53).
    change (-52 - -53) with 1. change (-53 - -53) with 0.
    change (2 ^ 1) with 2. change (2 ^ 0) with 1.
    numerals.
    split; apply binary_normalize_bound; try exact Hb; try lia.
Qed.

Lemma mag_le_in_range_ten (r : number) :
  mag_le r 5629499534213120 (-49) -> in_range (-10) 10 r = true.
Proof.
  destruct r as [s|s| |s m e]; cbn [mag_le]; try contradiction.
  - reflexivity.
  - intros [He Hm]. unfold in_range.
    destruct (Z.leb_spec 0 e) as [?|_]; [lia|].
    replace (- e) with (49 + (-49 - e)) by lia.
    rewrite Z.pow_add_r by lia.
    assert (HK : 0 < 2 ^ (-49 - e)) by (apply Z.pow_pos_nonneg; lia).
    set (K := 2 ^ (-49 - e)) in *.
    change (2 ^ 49) with 562949953421312.
    apply andb_true_iff.
    destruct s; cbn [cond_Zopp]; split; apply Z.leb_le; lia.
Qed.

Lemma mul_twenty_in_range (d : number) :
  mag_le d 4503599627370496 (-53) ->
  in_range (-10) 10 (mul d (of_Z 20)) = true.
Proof.
  rewrite twenty_eq.
  destruct d as [s|s| |s m e]; cbn [mag_le]; try contradiction.
  - reflexivity.
  - intros [He Hm]. apply mag_le_in_range_ten.
    unfold mul, SFmul.
    apply binary_round_aux_bound; [apply Pos2Z.is_pos | lia | | reflexivity].
    rewrite Pos2Z.inj_mul.
    replace (-49 - (e + -48)) with (-53 - e + 52) by lia.
    rewrite Z.pow_add_r by lia.
    assert (HK : 0 < 2 ^ (-53 - e)) by (apply Z.pow_pos_nonneg; lia).
    set (K := 2 ^ (-53 - e)) in *.
    numerals.
    nia.
Qed.

Lemma rotation_in_range (c : number) :
  clamped c ->
  in_range (-10) 10 (mul (sub c half) (of_Z 20)) = true
  /\ in_range (-10) 10 (mul (sub half c) (of_Z 20)) = true.
Proof.
  intros [->|[->|(m & e & -> & H)]]; [split; reflexivity | split; reflexivity |].
  destruct (sub_half_bound m e H) as [H1 H2].
  split; now apply mul_twenty_in_range.
Qed.

(** ** The glare *)

Lemma sub_one_wf (p : number) : shape false p -> wf (sub (of_Z 1) p).
Proof.
  rewrite one_eq. intros [| |m e H]; unfold sub, SFsub.
  - cbn [wf]. reflexivity.
  - exact I.
  - apply binary_normalize_wf.
Qed.

Lemma sub_half_fin (c : number) : clamped c -> fin (sub c half).
Proof.
  intros [->|[->|(m & e & -> & H)]]; [exact I | exact I |].
  destruct (sub_half_bound m e H) as [H1 _].
  now apply mag_le_fin in H1.
Qed.

Lemma glare_in_range (c1 c2 : number) :
  clamped c1 -> clamped c2 ->
  in_range 0 1
    (clamp (sub (of_Z 1)
              (mul (Math_sqrt (add (mul (sub c1 half) (sub c1 half))
                                   (mul (sub c2 half) (sub c2 half))))
                   one_and_half))) = true.
Proof.
  intros H1 H2.
  apply clamped_in_range, clamp_clamped, sub_one_wf.
  apply mul_positive_shape; [|reflexivity].
  apply sqrt_shape, add_shape; apply square_shape, sub_half_fin; assumption.
Qed.

(** ** The normalized position *)

Lemma normalized_wf (c origin size : number) :
  finite c = true -> finite origin = true -> positive_finite size = true ->
  wf (normalized (Some c) origin size).
Proof.
  intros Hc Ho Hs. unfold normalized, coordinate.
  apply div_wf; [|exact Hs]. now apply sub_finite_not_nan.
Qed.

(** C10, as the code has it: for an event that carries a pointer
    position, wherever it is, and a box with a position and a positive
    width and height, the normalized coordinates are clamped to [0, 1],
    both rotations are within [-10, 10] and the glare is within [0, 1];
    these are the numbers [handleMove] writes into the transform and
    into [--g]. *)
Theorem C10_tilt_is_bounded
    (layout : DOMRect) (e : move_event) (c : card) :
  has_position e = true ->
  laid_out (match rect c with Some r => r | None => layout end) = true ->
  let r := match rect c with Some r => r | None => layout end in
  let t := tilt_of (event_clientX e) (event_clientY e) r in
  in_range 0 1 (cx t) = true
  /\ in_range 0 1 (cy t) = true
  /\ in_range (-10) 10 (rotateX t) = true
  /\ in_range (-10) 10 (rotateY t) = true
  /\ in_range 0 1 (g t) = true
  /\ transform (handleMove layout e c) = transform_of t
  /\ var_g (handleMove layout e c) = Number_toString (g t).
Proof.
  intros He Hr r t.
  assert (Hw : transform (handleMove layout e c) = transform_of t
               /\ var_g (handleMove layout e c) = Number_toString (g t))
    by (split; reflexivity).
  revert Hw. subst t. fold r in Hr. intros Hwritten.
  unfold has_position in He.
  destruct (event_clientX e) as [x|]; [|discriminate].
  destruct (event_clientY e) as [y|] eqn:Ey; [|discriminate].
  apply andb_true_iff in He as [Hx Hy].
  unfold laid_out in Hr.
  apply andb_true_iff in Hr as [Hr Hh].
  apply andb_true_iff in Hr as [Hr Hw].
  apply andb_true_iff in Hr as [Hl Ht].
  rewrite tilt_of_normalized. unfold tilt_at. cbn [cx cy rotateX rotateY g].
  pose proof (clamp_clamped _ (normalized_wf x (left r) (width r) Hx Hl Hw)) as Cx.
  pose proof (clamp_clamped _ (normalized_wf y (top r) (height r) Hy Ht Hh)) as Cy.
  split; [now apply clamped_in_range|].
  split; [now apply clamped_in_range|].
  split; [now apply rotation_in_range|].
  split; [now apply rotation_in_range|].
  split; [now apply glare_in_range|].
  exact Hwritten.
Qed.

(** An instance: the pointer to the right of and above the sample box. *)
Lemma C10_tilt_is_bounded_witness :
  has_position (MouseMove (of_Z 500) (of_Z (-20))) = true
  /\ laid_out sample_rect = true
  /\ in_range (-10) 10
       (rotateX (tilt_of (Some (of_Z 500)) (Some (of_Z (-20))) sample_rect))
     = true
  /\ in_range 0 1
       (g (tilt_of (Some (of_Z 500)) (Some (of_Z (-20))) sample_rect))
     = true.
Proof.
  pose proof (C10_tilt_is_bounded sample_rect
                (MouseMove (of_Z 500) (of_Z (-20))) fresh_card
                eq_refl eq_refl) as H.
  cbv zeta in H.
  destruct H as (_ & _ & Hx & _ & Hg & _).
  repeat split; assumption.
Defined.

(** C10 fails without these conditions: on a card whose box has height
    zero (its content overflows it), an ordinary mouse event at the
    height of its top edge gives 0 / 0.  The rotation about the
    horizontal axis and the glare are NaN, within no bounds, and
    [handleMove] writes them as they are. *)
Lemma C10_collapsed_box_gives_nan :
  let box := {| left := of_Z 100; top := of_Z 50;
                width := of_Z 200; height := of_Z 0 |} in
  let e := MouseMove (of_Z 150) (of_Z 50) in
  let t := tilt_of (event_clientX e) (event_clientY e) box in
  has_position e = true
  /\ rotateX t = NaN
  /\ g t = NaN
  /\ in_range (-10) 10 (rotateX t) = false
  /\ in_range 0 1 (g t) = false
  /\ transform (handleMove box e fresh_card)
     = lit "perspective(1000px) rotateX(NaNdeg) rotateY(-5deg) scale(1.03)"
  /\ var_g (handleMove box e fresh_card) = lit "NaN".
Proof. vm_compute. repeat split; reflexivity. Qed.

End TiltFacts.

(* ================================================================== *)
(** * Exact arithmetic on integers                                   *)
(* ================================================================== *)

Module ExactFacts.
Import JS FloatFacts.

Lemma in_range_point (s : bool) (m : positive) (e n : Z) :
  in_range n n (S754_finite s m e) = true
  <-> scaled (cond_Zopp s (Zpos m)) e n.
Proof.
  unfold in_range, scaled.
  destruct (Z.leb_spec 0 e) as [He|He];
    rewrite andb_true_iff, !Z.leb_le; split.
  - intros [H1 H2]. left. split; [exact He | lia].
  - intros [[_ H]|[H _]]; [lia | lia].
  - intros [H1 H2]. right. split; [exact He | lia].
  - intros [[H _]|[_ H]]; [lia | lia].
Qed.

Lemma scaled_opp (m e n : Z) : scaled m e n -> scaled (- m) e (- n).
Proof. intros [[He H]|[He H]]; [left | right]; split; lia. Qed.

Lemma scaled_cond_Zopp (s : bool) (m e n : Z) :
  scaled m e n -> scaled (cond_Zopp s m) e (cond_Zopp s n).
Proof. destruct s; cbn [cond_Zopp]; [apply scaled_opp | auto]. Qed.

(** Moving a factor [2 ^ k] from the exponent into the mantissa. *)
Lemma scaled_shift (m e k n : Z) :
  0 <= k -> scaled m e n -> scaled (m * 2 ^ k) (e - k) n.
Proof.
  intros Hk [[He H]|[He H]].
  - destruct (Z_le_gt_dec k e) as [Hle|Hgt].
    + left. split; [lia|].
      rewrite <- Z.mul_assoc, <- Z.pow_add_r by lia.
      now replace (k + (e - k)) with e by lia.
    + right. split; [lia|]. subst n.
      rewrite <- Z.mul_assoc, <- Z.pow_add_r by lia.
      now replace (e + - (e - k)) with k by lia.
  - right. split; [lia|]. subst m.
    rewrite <- Z.mul_assoc, <- Z.pow_add_r by lia.
    now replace (- e + k) with (- (e - k)) by lia.
Qed.

Lemma scaled_add (m1 m2 e n1 n2 : Z) :
  scaled m1 e n1 -> scaled m2 e n2 -> scaled (m1 + m2) e (n1 + n2).
Proof.
  intros [[He H1]|[He H1]] [[He' H2]|[He' H2]]; try lia;
    [left | right]; split; lia.
Qed.

Lemma scaled_zero (e n : Z) : scaled 0 e n -> n = 0.
Proof.
  intros [[He H]|[He H]]; [lia|].
  assert (0 < 2 ^ (- e)) by (apply Z.pow_pos_nonneg; lia). nia.
Qed.

Lemma scaled_sign (m e n : Z) : scaled m e n -> 0 < m -> 0 < n.
Proof.
  intros [[He H]|[He H]] Hm.
  - assert (0 < 2 ^ e) by (apply Z.pow_pos_nonneg; lia). nia.
  - assert (0 < 2 ^ (- e)) by (apply Z.pow_pos_nonneg; lia). nia.
Qed.

(** ** Rounding a number that fits is exact *)

Lemma scaled_digits (p : positive) (e n : Z) :
  scaled (Zpos p) e n -> n < 9007199254740992 ->
  Zpos (digits2_pos p) + e <= 53.
Proof.
  intros Hsc Hn. pose proof (digits2_lower p) as Hl.
  set (d := Zpos (digits2_pos p)) in *.
  assert (Hd : 1 <= d) by (subst d; lia).
  destruct Hsc as [[He Hv]|[He Hv]].
  - assert (H : 2 ^ (d - 1 + e) < 2 ^ 53).
    { rewrite Z.pow_add_r by lia.
      apply Z.le_lt_trans with (Zpos p * 2 ^ e).
      - apply Z.mul_le_mono_nonneg_r; [apply Z.pow_nonneg; lia | exact Hl].
      - rewrite Hv. exact Hn. }
    apply Z.pow_lt_mono_r_iff in H; lia.
  - assert (H : 2 ^ (d - 1) < 2 ^ (53 - e)).
    { apply Z.le_lt_trans with (1 := Hl). rewrite Hv.
      replace (53 - e) with (53 + - e) by lia.
      rewrite Z.pow_add_r by lia.
      apply Z.mul_lt_mono_pos_r; [apply Z.pow_pos_nonneg; lia | exact Hn]. }
    apply Z.pow_lt_mono_r_iff in H; lia.
Qed.

Lemma binary_round_aux_exact (s : bool) (p : positive) (e n : Z) :
  scaled (Zpos p) e n -> n < 9007199254740992 ->
  exists m' e',
    binary_round_aux prec emax s (Zpos p) e loc_Exact = S754_finite s m' e'
    /\ scaled (Zpos m') e' n.
Proof.
  intros Hsc Hn.
  pose proof (scaled_digits p e n Hsc Hn) as HK.
  pose proof (digits2_upper p) as Hu.
  unfold binary_round_aux.
  assert (Hm0 : 0 <= Zpos p) by lia.
  pose proof (shr_fexp_spec (Zpos p) e loc_Exact Hm0) as [Hm1 He1].
  pose proof (shr_fexp_exact (Zpos p) e Hm0) as Hex.
  destruct (shr_fexp prec emax (Zpos p) e loc_Exact) as [mrs' e'].
  cbn [fst snd] in *. cbv zeta in Hm1, He1.
  cbn [Zdigits2] in *. rewrite fexp_spec in *.
  set (d := Zpos (digits2_pos p)) in *.
  set (k := Z.max 0 (Z.max (d + e - 53) (-1074) - e)) in *.
  assert (Hk : 0 <= k) by lia.
  assert (Hdiv : Zpos p = shr_m mrs' * 2 ^ k /\ Zpos p mod 2 ^ k = 0).
  { assert (Hmod : Zpos p mod 2 ^ k = 0).
    { destruct Hsc as [[He Hv]|[He Hv]].
      - replace k with 0 by lia. apply Z.mod_1_r.
      - rewrite Hv. replace (- e) with (- e - k + k) by lia.
        rewrite Z.pow_add_r, Z.mul_assoc by lia. apply Z.mod_mul.
        apply Z.pow_nonzero; lia. }
    split; [|exact Hmod].
    rewrite Hm1. rewrite Z.mul_comm. apply Z.div_exact; [|exact Hmod].
    apply Z.pow_nonzero; lia. }
  destruct Hdiv as [Hdiv Hmod].
  rewrite (Hex Hmod). cbn [round_nearest_even].
  set (m1 := shr_m mrs') in *.
  assert (H2k : 0 < 2 ^ k) by (apply Z.pow_pos_nonneg; lia).
  assert (Hm1pos : 0 < m1) by nia.
  (* the second shift does nothing *)
  assert (Hd1 : Zdigits2 m1 + e' <= d + e).
  { destruct m1 as [|q|q]; try lia. cbn [Zdigits2].
    pose proof (digits2_lower q) as Hl.
    assert (H : 2 ^ (Zpos (digits2_pos q) - 1 + k) < 2 ^ d).
    { rewrite Z.pow_add_r by lia.
      apply Z.le_lt_trans with (Zpos q * 2 ^ k); [|lia].
      apply Z.mul_le_mono_nonneg_r; [lia | exact Hl]. }
    apply Z.pow_lt_mono_r_iff in H; lia. }
  pose proof (shr_fexp_spec m1 e' loc_Exact ltac:(lia)) as [Hm2 He2].
  destruct (shr_fexp prec emax m1 e' loc_Exact) as [mrs'' e''].
  cbn [fst snd] in *. cbv zeta in Hm2, He2.
  rewrite fexp_spec in *.
  replace (Z.max 0 (Z.max (Zdigits2 m1 + e' - 53) (-1074) - e')) with 0
    in * by lia.
  rewrite Z.pow_0_r, Z.div_1_r in Hm2. rewrite Z.add_0_r in He2.
  rewrite Hm2. subst e''.
  assert (Hsc' : scaled m1 e' n).
  { destruct Hsc as [[He Hv]|[He Hv]].
    - assert (k = 0) by lia. left. split; [lia|].
      replace e' with e by lia. rewrite <- Hv, Hdiv.
      replace k with 0 by lia. now rewrite Z.pow_0_r, Z.mul_1_r.
    - destruct (Z_le_gt_dec 0 e') as [He'|He'].
      + left. split; [exact He'|].
        assert (e' = 0) by lia. assert (k = - e) by lia.
        replace e' with 0 by lia. rewrite Z.pow_0_r, Z.mul_1_r.
        apply Z.mul_reg_r with (2 ^ k); [lia|].
        rewrite <- Hdiv, Hv. now replace k with (- e) by lia.
      + right. split; [lia|].
        apply Z.mul_reg_r with (2 ^ k); [lia|].
        rewrite <- Hdiv, Hv, <- Z.mul_assoc, <- Z.pow_add_r by lia.
        now replace (- e' + k) with (- e) by lia. }
  destruct m1 as [|q|q]; try lia.
  assert (He971 : e' <= 971).
  { destruct Hsc as [[He Hv]|[He Hv]]; [|lia].
    assert (H : 2 ^ e < 2 ^ 53).
    { apply Z.le_lt_trans with (Zpos p * 2 ^ e); [|now rewrite Hv].
      assert (0 < 2 ^ e) by (apply Z.pow_pos_nonneg; lia). nia. }
    apply Z.pow_lt_mono_r_iff in H; lia. }
  destruct (Z.leb_spec e' (emax - prec)) as [_|Hgt].
  - now exists q, e'.
  - unfold emax, prec in Hgt. lia.
Qed.

Lemma binary_round_exact (s : bool) (p : positive) (e n : Z) :
  scaled (Zpos p) e n -> n < 9007199254740992 ->
  exists m' e',
    binary_round prec emax s p e = S754_finite s m' e'
    /\ scaled (Zpos m') e' n.
Proof.
  intros Hsc Hn. unfold binary_round.
  pose proof (shl_align_spec p e
                (fexp prec emax (Zpos (digits2_pos p) + e))) as [H1 H2].
  destruct (shl_align p e _) as [mz ez]. cbn [fst snd] in *.
  rewrite <- H1 in H2.
  apply binary_round_aux_exact; [|exact Hn].
  rewrite H2. replace ez with (e - (e - ez)) at 2 by lia.
  apply scaled_shift; [lia | exact Hsc].
Qed.

(** An integer below 2^53 in magnitude, given as [D * 2 ^ e], is
    normalized to the Number with exactly that value. *)
Lemma binary_normalize_exact (D e n : Z) :
  scaled D e n -> Z.abs n < 9007199254740992 ->
  in_range n n (binary_normalize prec emax D e false) = true.
Proof.
  intros Hsc Hn. destruct D as [|p|p]; cbn [binary_normalize].
  - apply scaled_zero in Hsc. subst n. reflexivity.
  - destruct (binary_round_exact false p e n Hsc ltac:(lia))
      as (m' & e' & -> & H).
    now apply in_range_point.
  - apply scaled_opp in Hsc. cbn [Z.opp] in Hsc.
    destruct (binary_round_exact true p e (- n) Hsc ltac:(lia))
      as (m' & e' & -> & H).
    apply in_range_point. cbn [cond_Zopp].
    apply scaled_opp in H. now rewrite Z.opp_involutive in H.
Qed.

Lemma of_Z_exact (n : Z) :
  Z.abs n < 9007199254740992 -> in_range n n (of_Z n) = true.
Proof.
  intros Hn. apply binary_normalize_exact; [|exact Hn].
  left. split; [lia|]. now rewrite Z.pow_0_r, Z.mul_1_r.
Qed.

(** ** Sums and differences of integers *)

Lemma in_range_point_zero (s : bool) (n : Z) :
  in_range n n (S754_zero s) = true <-> n = 0.
Proof.
  unfold in_range. rewrite andb_true_iff, !Z.leb_le. lia.
Qed.

Lemma cond_Zopp_mul (s : bool) (m k : Z) :
  cond_Zopp s (m * k) = cond_Zopp s m * k.
Proof. destruct s; cbn [cond_Zopp]; lia. Qed.

Lemma cond_Zopp_negb (s : bool) (m : Z) :
  cond_Zopp (negb s) m = - cond_Zopp s m.
Proof. destruct s; cbn [cond_Zopp negb]; lia. Qed.

Lemma scaled_align (s : bool) (m : positive) (e e' n : Z) :
  e' <= e -> scaled (cond_Zopp s (Zpos m)) e n ->
  scaled (cond_Zopp s (Zpos (fst (shl_align m e e')))) e' n.
Proof.
  intros He H. destruct (shl_align_spec m e e') as [_ ->].
  rewrite Z.min_r by exact He. rewrite cond_Zopp_mul.
  replace e' with (e - (e - e')) at 2 by lia.
  apply scaled_shift; [lia | exact H].
Qed.

Lemma add_exact (x y : number) (a b : Z) :
  in_range a a x = true -> in_range b b y = true ->
  Z.abs (a + b) < 9007199254740992 ->
  in_range (a + b) (a + b) (add x y) = true.
Proof.
  intros Hx Hy Hab. unfold add, SFadd.
  destruct x as [sx|sx| |sx mx ex], y as [sy|sy| |sy my ey];
    try discriminate.
  - apply in_range_point_zero in Hx, Hy. subst a b.
    destruct sx, sy; reflexivity.
  - apply in_range_point_zero in Hx. subst a. now rewrite Z.add_0_l.
  - apply in_range_point_zero in Hy. subst b. now rewrite Z.add_0_r.
  - apply in_range_point in Hx, Hy.
    apply binary_normalize_exact; [|exact Hab].
    apply scaled_add; apply scaled_align; try assumption; lia.
Qed.

Lemma sub_exact (x y : number) (a b : Z) :
  in_range a a x = true -> in_range b b y = true ->
  Z.abs (a - b) < 9007199254740992 ->
  in_range (a - b) (a - b) (sub x y) = true.
Proof.
  intros Hx Hy Hab. unfold sub, SFsub.
  destruct x as [sx|sx| |sx mx ex], y as [sy|sy| |sy my ey];
    try discriminate.
  - apply in_range_point_zero in Hx, Hy. subst a b.
    destruct sx, sy; reflexivity.
  - apply in_range_point_zero in Hx. subst a.
    apply in_range_point in Hy. apply in_range_point.
    rewrite cond_Zopp_negb. now apply scaled_opp in Hy.
  - apply in_range_point_zero in Hy. subst b. now rewrite Z.sub_0_r.
  - apply in_range_point in Hx, Hy.
    apply binary_normalize_exact; [|exact Hab].
    unfold Z.sub. apply scaled_add.
    + apply scaled_align; [lia | exact Hx].
    + apply scaled_opp, scaled_align; [lia | exact Hy].
Qed.

(** [Math.round] and [Math.ceil] leave an integer as it is. *)
Lemma Math_round_exact (x : number) (n : Z) :
  in_range n n x = true -> Z.abs n < 9007199254740992 ->
  in_range n n (Math_round x) = true.
Proof.
  intros Hx Hn. destruct x as [s|s| |s m e]; try discriminate;
    [exact Hx|].
  cbn [Math_round]. destruct (Z.leb_spec 0 e) as [He|He]; [exact Hx|].
  apply in_range_point in Hx. destruct Hx as [[He' _]|[_ Hv]]; [lia|].
  rewrite Hv.
  assert (HK : 0 < 2 ^ (- e)) by (apply Z.pow_pos_nonneg; lia).
  replace (1 - e) with (1 + - e) by lia. rewrite Z.pow_add_r by lia.
  change (2 ^ 1) with 2.
  replace (2 * (n * 2 ^ (- e)) + 2 ^ (- e)) with ((2 * n + 1) * 2 ^ (- e))
    by ring.
  rewrite Z.div_mul_cancel_r by lia.
  replace ((2 * n + 1) / 2) with n
    by (apply (Z.div_unique (2 * n + 1) 2 n 1); lia).
  destruct (Z.eqb_spec n 0) as [->|_]; [reflexivity|].
  now apply of_Z_exact.
Qed.

Lemma Math_ceil_exact (x : number) (n : Z) :
  in_range n n x = true -> Z.abs n < 9007199254740992 ->
  in_range n n (Math_ceil x) = true.
Proof.
  intros Hx Hn. destruct x as [s|s| |s m e]; try discriminate;
    [exact Hx|].
  cbn [Math_ceil]. destruct (Z.leb_spec 0 e) as [He|He]; [exact Hx|].
  apply in_range_point in Hx. destruct Hx as [[He' _]|[_ Hv]]; [lia|].
  rewrite Hv.
  assert (HK : 0 < 2 ^ (- e)) by (apply Z.pow_pos_nonneg; lia).
  rewrite <- Z.mul_opp_l, Z.div_mul, Z.opp_involutive by lia.
  destruct (Z.eqb_spec n 0) as [->|_]; [reflexivity|].
  now apply of_Z_exact.
Qed.

(** ** Quotients that are at least one *)

Lemma scaled_at (m e n k : Z) :
  scaled m e n -> 0 <= k -> 0 <= e + k -> m * 2 ^ (e + k) = n * 2 ^ k.
Proof.
  intros [[He H]|[He H]] Hk Hek.
  - rewrite Z.pow_add_r, Z.mul_assoc, H by lia. reflexivity.
  - subst m. rewrite <- Z.mul_assoc, <- Z.pow_add_r by lia.
    f_equal. f_equal. lia.
Qed.

Lemma scaled_positive (s : bool) (m : positive) (e n : Z) :
  scaled (cond_Zopp s (Zpos m)) e n -> 0 < n -> s = false.
Proof.
  intros H Hn. destruct s; [|reflexivity]. exfalso.
  apply scaled_opp in H. cbn [cond_Zopp] in H.
  rewrite Z.opp_involutive in H.
  apply scaled_sign in H; lia.
Qed.

Lemma scaled_nonpositive (s : bool) (m : positive) (e n : Z) :
  scaled (cond_Zopp s (Zpos m)) e n -> n <= 0 -> s = true.
Proof.
  intros H Hn. destruct s; [reflexivity|]. exfalso.
  cbn [cond_Zopp] in H. apply scaled_sign in H; lia.
Qed.

Lemma Zdigits2_lower (m : Z) : 0 < m -> 2 ^ (Zdigits2 m - 1) <= m.
Proof. destruct m as [|p|p]; try lia. intros _. apply digits2_lower. Qed.

Lemma at_least_one_positive (m e : Z) : at_least_one m e -> 0 < m.
Proof.
  intros [[_ H]|[He H]]; [lia|].
  assert (0 < 2 ^ (- e)) by (apply Z.pow_pos_nonneg; lia). lia.
Qed.

(** Dropping low bits does not take a number of at least one below
    one. *)
Lemma shr_fexp_at_least_one (m e : Z) (l : location) :
  at_least_one m e ->
  at_least_one (shr_m (fst (shr_fexp prec emax m e l)))
               (snd (shr_fexp prec emax m e l)).
Proof.
  intros H. pose proof (at_least_one_positive m e H) as Hm.
  destruct (shr_fexp_spec m e l ltac:(lia)) as [-> ->].
  rewrite fexp_spec.
  pose proof (Zdigits2_lower m Hm) as Hl.
  set (d := Zdigits2 m) in *.
  set (n := Z.max 0 (Z.max (d + e - 53) (-1074) - e)).
  destruct (Z.eq_dec n 0) as [Hn|Hn].
  - rewrite Hn, Z.pow_0_r, Z.div_1_r, Z.add_0_r. exact H.
  - assert (Hn' : 0 < n) by lia.
    assert (H2n : 0 < 2 ^ n) by (apply Z.pow_pos_nonneg; lia).
    destruct (Z_le_gt_dec (e + n) 0) as [Hle|Hgt].
    + destruct H as [[He _]|[He H]]; [lia|].
      assert (Hdiv : 2 ^ (- (e + n)) <= m / 2 ^ n).
      { apply Z.div_le_lower_bound; [exact H2n|].
        rewrite <- Z.pow_add_r by lia.
        now replace (n + - (e + n)) with (- e) by lia. }
      destruct (Z.eq_dec (e + n) 0) as [E0|E0].
      * left. split; [lia|]. rewrite E0 in Hdiv. exact Hdiv.
      * right. split; [lia | exact Hdiv].
    + left. split; [lia|].
      apply Z.div_le_lower_bound; [exact H2n|].
      rewrite Z.mul_1_r. apply Z.le_trans with (2 := Hl).
      apply Z.pow_le_mono_r; lia.
Qed.

(** Rounding does not take a number of at least one below one. *)
Lemma binary_round_aux_at_least_one (s : bool) (m e : Z) (l : location) :
  at_least_one m e ->
  binary_round_aux prec emax s m e l = S754_infinity s
  \/ exists m' e',
       binary_round_aux prec emax s m e l = S754_finite s m' e'
       /\ at_least_one (Zpos m') e'
       /\ Zpos m' < 9007199254740992.
Proof.
  intros H. unfold binary_round_aux.
  pose proof (shr_fexp_at_least_one m e l H) as H1.
  destruct (shr_fexp prec emax m e l) as [mrs' e']. cbn [fst snd] in H1.
  set (mr := round_nearest_even (shr_m mrs') (loc_of_shr_record mrs')).
  assert (Hr : at_least_one mr e').
  { pose proof (round_nearest_even_bounds (shr_m mrs')
                  (loc_of_shr_record mrs')) as Hb.
    fold mr in Hb. destruct H1 as [[? ?]|[? ?]]; [left | right]; split; lia. }
  pose proof (at_least_one_positive mr e' Hr) as Hmr.
  pose proof (shr_fexp_at_least_one mr e' loc_Exact Hr) as H2.
  pose proof (shr_fexp_m_small mr e' loc_Exact ltac:(lia)) as H3.
  destruct (shr_fexp prec emax mr e' loc_Exact) as [mrs'' e''].
  cbn [fst snd] in H2, H3.
  pose proof (at_least_one_positive _ _ H2) as Hpos.
  destruct (shr_m mrs'') as [|q|q]; try (clear H3; lia).
  destruct (e'' <=? emax - prec); [right | left; reflexivity].
  exists q, e''. split; [reflexivity|]. split; [exact H2 | exact H3].
Qed.

Lemma SFdiv_core_at_least_one (m1 m2 : positive) (e1 e2 n1 n2 : Z) :
  scaled (Zpos m1) e1 n1 -> scaled (Zpos m2) e2 n2 -> n2 <= n1 ->
  at_least_one
    (fst (fst (SFdiv_core_binary prec emax (Zpos m1) e1 (Zpos m2) e2)))
    (snd (fst (SFdiv_core_binary prec emax (Zpos m1) e1 (Zpos m2) e2))).
Proof.
  intros H1 H2 Hle. unfold SFdiv_core_binary. cbn [Zdigits2].
  pose proof (digits2_lower m1) as Hl1. pose proof (digits2_upper m2) as Hu2.
  set (d1 := Zpos (digits2_pos m1)) in *.
  set (d2 := Zpos (digits2_pos m2)) in *.
  rewrite fexp_spec.
  set (e' := Z.min (Z.max (d1 + e1 - (d2 + e2) - 53) (-1074)) (e1 - e2)).
  set (s := e1 - e2 - e').
  assert (Hs : 0 <= s) by lia.
  set (m' := match s with
             | 0 => Zpos m1
             | Zpos _ => Z.shiftl (Zpos m1) s
             | Zneg _ => 0
             end).
  assert (Hm' : m' = Zpos m1 * 2 ^ s).
  { subst m'. destruct s as [|ps|ps] eqn:Es.
    - rewrite Z.pow_0_r. lia.
    - now rewrite Z.shiftl_mul_pow2 by lia.
    - lia. }
  assert (Hq : fst (Z.div_eucl m' (Zpos m2)) = m' / Zpos m2) by reflexivity.
  destruct (Z.div_eucl m' (Zpos m2)) as [q r]. cbn [fst snd] in *. subst q.
  rewrite Hm'.
  assert (H2s : 0 < 2 ^ s) by (apply Z.pow_pos_nonneg; lia).
  destruct (Z_le_gt_dec e' 0) as [He'|He'].
  - assert (Hdiv : 2 ^ (- e') <= Zpos m1 * 2 ^ s / Zpos m2).
    { apply Z.div_le_lower_bound; [lia|].
      set (k := Z.max 0 (Z.max (- e1) (- e2))).
      pose proof (scaled_at _ _ _ k H1 ltac:(lia) ltac:(lia)) as E1.
      pose proof (scaled_at _ _ _ k H2 ltac:(lia) ltac:(lia)) as E2.
      assert (HP : 0 < 2 ^ (e2 + k)) by (apply Z.pow_pos_nonneg; lia).
      apply (Z.mul_le_mono_pos_r _ _ (2 ^ (e2 + k)) HP).
      assert (EL : Zpos m2 * 2 ^ (- e') * 2 ^ (e2 + k)
                   = n2 * 2 ^ k * 2 ^ (- e')) by (rewrite <- E2; ring).
      assert (ER : Zpos m1 * 2 ^ s * 2 ^ (e2 + k)
                   = n1 * 2 ^ k * 2 ^ (- e')).
      { rewrite <- E1, <- !Z.mul_assoc. f_equal.
        rewrite <- !Z.pow_add_r by lia. f_equal. lia. }
      rewrite EL, ER.
      apply Z.mul_le_mono_nonneg_r; [apply Z.pow_nonneg; lia|].
      apply Z.mul_le_mono_nonneg_r; [apply Z.pow_nonneg; lia | exact Hle]. }
    destruct (Z.eq_dec e' 0) as [E0|E0].
    + left. split; [lia|]. rewrite E0 in Hdiv. exact Hdiv.
    + right. split; [lia | exact Hdiv].
  - left. split; [lia|].
    apply Z.div_le_lower_bound; [lia|]. rewrite Z.mul_1_r.
    apply Z.le_trans with (2 ^ d2); [lia|].
    apply Z.le_trans with (2 ^ (d1 - 1) * 2 ^ s).
    + rewrite <- Z.pow_add_r by lia. apply Z.pow_le_mono_r; lia.
    + apply Z.mul_le_mono_nonneg_r; [lia | exact Hl1].
Qed.

Lemma SFleb_one (m : positive) (e : Z) :
  at_least_one (Zpos m) e -> Zpos m < 9007199254740992 ->
  SFleb (of_Z 1) (S754_finite false m e) = true.
Proof.
  intros H Hlt.
  change (of_Z 1) with (S754_finite false 4503599627370496 (-52)).
  unfold SFleb, SFcompare.
  destruct (Z.compare_spec (-52) e) as [<-|_|Hgt]; [|reflexivity|exfalso].
  - destruct H as [[He _]|[_ H]]; [lia|].
    change (2 ^ (- -52)) with 4503599627370496 in H.
    change (Pos.compare_cont Eq 4503599627370496 m)
      with (Pos.compare 4503599627370496 m).
    destruct (Pos.compare_spec 4503599627370496 m) as [_|_|G];
      [reflexivity | reflexivity | exfalso].
    apply Pos2Z.pos_lt_pos in G. apply (Z.lt_irrefl (Zpos m)).
    exact (Z.lt_le_trans _ _ _ G H).
  - destruct H as [[He _]|[He H]]; [lia|].
    assert (Hp : 2 ^ 53 <= 2 ^ (- e)) by (apply Z.pow_le_mono_r; lia).
    change (2 ^ 53) with 9007199254740992 in Hp. lia.
Qed.

(** A quotient of integers whose exact value is at least one is at
    least one as a Number. *)
Lemma div_at_least_one (x y : number) (n1 n2 : Z) :
  in_range n1 n1 x = true -> in_range n2 n2 y = true ->
  0 < n2 -> n2 <= n1 ->
  SFleb (of_Z 1) (div x y) = true.
Proof.
  intros Hx Hy Hn2 Hle.
  destruct x as [sx|sx| |sx mx ex]; try discriminate;
    [apply in_range_point_zero in Hx; lia|].
  destruct y as [sy|sy| |sy my ey]; try discriminate;
    [apply in_range_point_zero in Hy; lia|].
  apply in_range_point in Hx, Hy.
  pose proof (scaled_positive _ _ _ _ Hx ltac:(lia)) as ->.
  pose proof (scaled_positive _ _ _ _ Hy ltac:(lia)) as ->.
  cbn [cond_Zopp] in Hx, Hy.
  unfold div, SFdiv. cbn [xorb].
  pose proof (SFdiv_core_at_least_one mx my ex ey n1 n2 Hx Hy Hle) as H.
  destruct (SFdiv_core_binary prec emax (Zpos mx) ex (Zpos my) ey)
    as [[mz ez] lz]. cbn [fst snd] in H.
  destruct (binary_round_aux_at_least_one false mz ez lz H)
    as [->|(m' & e' & -> & Ha & Hlt)]; [reflexivity|].
  now apply SFleb_one.
Qed.

(** A quotient of a non-positive by a positive integer is a zero or
    negative. *)
Lemma div_nonpositive (x y : number) (n1 n2 : Z) :
  in_range n1 n1 x = true -> in_range n2 n2 y = true ->
  n1 <= 0 -> 0 < n2 ->
  (exists s, div x y = S754_zero s) \/ shape true (div x y).
Proof.
  intros Hx Hy Hn1 Hn2.
  destruct y as [sy|sy| |sy my ey]; try discriminate;
    [apply in_range_point_zero in Hy; lia|].
  apply in_range_point in Hy.
  pose proof (scaled_positive _ _ _ _ Hy ltac:(lia)) as ->.
  destruct x as [sx|sx| |sx mx ex]; try discriminate.
  - left. now eexists.
  - right. apply in_range_point in Hx.
    pose proof (scaled_nonpositive _ _ _ _ Hx Hn1) as ->.
    unfold div, SFdiv. cbn [xorb].
    pose proof (SFdiv_core_binary_nonneg mx my ex ey) as H.
    destruct (SFdiv_core_binary prec emax (Zpos mx) ex (Zpos my) ey)
      as [[mz ez] lz].
    now apply binary_round_aux_shape.
Qed.

End ExactFacts.

(* ================================================================== *)
(** * More on the symptom query                                      *)
(* ================================================================== *)

Module QueryProperties.
Import JS Query QueryFacts FloatFacts.

(** ** Overlapping queries *)

Lemma exec_settle (o : fetch_outcome) (q : page) :
  exec (fetchSymptoms_settle o) q = settled o q.
Proof. unfold exec. now rewrite fetchSymptoms_settle_spec. Qed.

(** X1: two queries are started one after the other and the answer to the
    second arrives first: once both have settled the results area shows
    the outcome of the first query, the one that settled last, and two
    requests went out.  In between, when only the second has settled,
    the container is already revealed with the second outcome. *)
Theorem last_settled_query_wins
    (s1 s2 : jsstring) (o1 o2 : fetch_outcome) (p : page) :
  let started := exec (fetchSymptoms_begin s2) (exec (fetchSymptoms_begin s1) p) in
  let between := exec (fetchSymptoms_settle o2) started in
  let final := exec (fetchSymptoms_settle o1) between in
  results_innerHTML final = results_innerHTML (exec (fetchSymptoms s1 o1) p)
  /\ results_innerHTML between = results_innerHTML (exec (fetchSymptoms s2 o2) p)
  /\ contains (container_classList started) hidden = true
  /\ contains (container_classList between) hidden = false
  /\ contains (container_classList final) hidden = false
  /\ requests (effects final)
     = requests (effects p)
       ++ [(endpoint, request_init s1); (endpoint, request_init s2)].
Proof.
  intros started between final. subst final between started.
  rewrite !exec_settle, !exec_fetchSymptoms, !settled_innerHTML.
  repeat split.
  - apply begin_hidden.
  - apply settled_revealed.
  - apply settled_revealed.
  - rewrite !settled_effects, !begin_effects, !requests_app,
      !settle_effects_no_request, !app_nil_r.
    cbn [requests flat_map app]. now rewrite <- app_assoc.
Qed.

(** ** Which responses are shown *)

Lemma render_json_of (r : DiagnosisResult) :
  render (json_of r)
  = Normal (two_block_fragment (diagnosis r) (percent (confidence r))
                               (recommendation r)).
Proof.
  unfold render, json_of. cbn [Get and_then].
  change (own_property _ (lit "diagnosis")) with (Some (JString (diagnosis r))).
  change (own_property _ (lit "confidence")) with (Some (JNumber (confidence r))).
  change (own_property _ (lit "recommendation"))
    with (Some (JString (recommendation r))).
  cbn [ToString ToString_json ToNumber and_then].
  now rewrite two_block_fragment_template.
Qed.

(** X2: a well-formed result is shown exactly when the status is between
    200 and 299; with any other status the same body gives the error
    message. *)
Theorem result_shown_iff_status_2xx
    (symptoms : jsstring) (st : N) (r : DiagnosisResult) (p : page) :
  results_innerHTML
    (exec (fetchSymptoms symptoms
             (FetchResolved {| status := st;
                               json_result := JsonParsed (json_of r) |}))
          p)
  = if N.leb 200 st && N.leb st 299
    then two_block_fragment (diagnosis r) (percent (confidence r))
                            (recommendation r)
    else error_html.
Proof.
  rewrite exec_fetchSymptoms, settled_innerHTML.
  unfold verdict, ok. cbn [status json_result].
  destruct (N.leb 200 st && N.leb st 299); cbn [negb]; [|reflexivity].
  now rewrite render_json_of.
Qed.

(** ToString throws on the values that are not printable, a TypeError,
    and on no others. *)
Lemma ToString_json_printable :
  forall v : json,
    if printable v then exists s, ToString_json v = Normal s
    else ToString_json v = Throw EngineTypeError.
Proof.
  fix IH 1. intros [|b|x|s|elems|props].
  - now eexists.
  - now eexists.
  - now eexists.
  - now eexists.
  - cbn [printable ToString_json].
    induction elems as [|e rest IHrest].
    + now eexists.
    + pose proof (IH e) as He.
      destruct (printable e) eqn:Pe.
      * cbn [andb].
        assert (Hs : exists s, match e with
                               | JNull => Normal []
                               | _ => ToString_json e
                               end = Normal s).
        { destruct e; try exact He. now eexists. }
        destruct Hs as [s Hs]. rewrite Hs.
        destruct rest as [|e' rest']; [now eexists|].
        match type of IHrest with
        | if ?b then _ else _ => destruct b
        end.
        -- destruct IHrest as [t Ht]. rewrite Ht. now eexists.
        -- now rewrite IHrest.
      * cbn [andb].
        assert (Hs : match e with
                     | JNull => Normal []
                     | _ => ToString_json e
                     end = Throw EngineTypeError).
        { destruct e; try exact He. discriminate Pe. }
        now rewrite Hs.
  - cbn [printable ToString_json].
    destruct (has_own props (lit "toString")); cbn [negb]; [reflexivity|].
    now eexists.
Qed.

Lemma ToString_printable (v : value) :
  if printable_value v then exists s, ToString v = Normal s
  else ToString v = Throw EngineTypeError.
Proof.
  destruct v as [j|]; cbn [printable_value ToString];
    [apply ToString_json_printable | now eexists].
Qed.

Lemma ToNumber_printable (v : value) :
  if printable_value v then exists x, ToNumber v = Normal x
  else ToNumber v = Throw EngineTypeError.
Proof.
  destruct v as [j|]; cbn [printable_value]; [|now eexists].
  pose proof (ToString_json_printable j) as H.
  destruct j as [|[|]| | | |]; cbn [printable ToNumber] in *;
    try (now eexists).
  - match type of H with if ?b then _ else _ => destruct b end.
    + destruct H as [s ->]. now eexists.
    + now rewrite H.
  - match type of H with if ?b then _ else _ => destruct b end.
    + destruct H as [s ->]. now eexists.
    + now rewrite H.
Qed.

Lemma render_unrenderable (data : json) :
  if unrenderable data then render data = Throw EngineTypeError
  else exists html, render data = Normal html.
Proof.
  assert (Hnone : exists html,
             and_then (and_then (Normal None) ToString) (fun diagnosis =>
             and_then (and_then (and_then (Normal None) ToNumber)
                         (fun confidence =>
                            Normal (Number_toString
                                      (Math_round (mul confidence (of_Z 100))))))
                      (fun percent =>
             and_then (and_then (Normal None) ToString)
                      (fun recommendation =>
             Normal (template0 ++ diagnosis ++ template1 ++ percent
                     ++ template2 ++ recommendation ++ template3))))
             = Normal html) by now eexists.
  destruct data as [|b|x|s|elems|props]; cbn [unrenderable];
    try exact Hnone; [reflexivity|].
  unfold render. cbn [Get].
  pose proof (ToString_printable (own_property props (lit "diagnosis"))) as Hd.
  pose proof (ToNumber_printable (own_property props (lit "confidence"))) as Hc.
  pose proof (ToString_printable (own_property props (lit "recommendation")))
    as Hr.
  destruct (printable_value (own_property props (lit "diagnosis")));
    cbn [andb negb and_then].
  - destruct Hd as [d ->].
    destruct (printable_value (own_property props (lit "confidence")));
      cbn [andb negb and_then].
    + destruct Hc as [c ->]. cbn [and_then].
      destruct (printable_value (own_property props (lit "recommendation")));
        cbn [andb negb and_then].
      * destruct Hr as [r ->]. now eexists.
      * now rewrite Hr.
    + now rewrite Hc.
  - now rewrite Hd.
Qed.

(** X3: a response with a success status whose body parses shows the error
    message exactly when the body is [null], or one of the three fields
    is an object with a [toString] property of its own, or an array
    that holds such an object; the console then gets a TypeError.
    Every other body is rendered. *)
Theorem parsed_body_error_iff_unrenderable
    (symptoms : jsstring) (r : response) (data : json) (p : page) :
  ok r = true ->
  json_result r = JsonParsed data ->
  let final := exec (fetchSymptoms symptoms (FetchResolved r)) p in
  jsstring_eqb (results_innerHTML final) error_html = unrenderable data
  /\ (if unrenderable data
      then effects final
           = effects p
             ++ [ClassListAdd resultContainer hidden;
                 SetInnerHTML resultsList searching_html;
                 Fetch endpoint (request_init symptoms);
                 ConsoleError (lit "Error fetching data:") EngineTypeError;
                 SetInnerHTML resultsList error_html;
                 ClassListRemove resultContainer hidden]
      else True).
Proof.
  intros Hok Hjson final. subst final.
  rewrite exec_fetchSymptoms, settled_innerHTML, settled_effects, begin_effects.
  unfold settle_effects, verdict. rewrite Hok, Hjson. cbn [negb].
  pose proof (render_unrenderable data) as H.
  destruct (unrenderable data).
  - rewrite H. split; [apply jsstring_eqb_refl|].
    now rewrite <- app_assoc.
  - destruct H as [html H]. rewrite H. split; [|exact I].
    now apply (rendered_is_not_error data).
Qed.

Lemma parsed_body_error_iff_unrenderable_witness :
  ok {| status := 200; json_result := JsonParsed JNull |} = true
  /\ jsstring_eqb
       (results_innerHTML
          (exec (fetchSymptoms (lit "fever")
                   (FetchResolved {| status := 200;
                                     json_result := JsonParsed JNull |}))
                blank_page))
       error_html
     = true.
Proof.
  split; [reflexivity|].
  exact (proj1 (parsed_body_error_iff_unrenderable
                  (lit "fever")
                  {| status := 200; json_result := JsonParsed JNull |}
                  JNull blank_page eq_refl eq_refl)).
Defined.

(** ** The percentage of a confidence between 0 and 1 *)

Lemma unit_interval_mag (m : positive) (e : Z) :
  bounded prec emax m e = true ->
  in_range 0 1 (S754_finite false m e) = true ->
  e <= -52 /\ Zpos m <= 2 ^ (- e).
Proof.
  intros Hb Hr. unfold bounded, canonical_mantissa in Hb.
  apply andb_true_iff in Hb as [Hc _]. apply Z.eqb_eq in Hc.
  rewrite fexp_spec in Hc.
  pose proof (digits2_lower m) as Hl.
  set (d := Zpos (digits2_pos m)) in *.
  unfold in_range in Hr. cbn [cond_Zopp] in Hr.
  destruct (Z.leb_spec 0 e) as [He|He];
    apply andb_true_iff in Hr as [_ Hr]; apply Z.leb_le in Hr.
  - exfalso. assert (d = 53) by lia. subst d.
    replace (Zpos (digits2_pos m) - 1) with 52 in Hl by lia.
    assert (0 < 2 ^ e) by (apply Z.pow_pos_nonneg; lia).
    change (2 ^ 52) with 4503599627370496 in Hl. nia.
  - rewrite Z.mul_1_l in Hr. split; [|exact Hr].
    destruct (Z_le_gt_dec e (-52)) as [|Hgt]; [assumption|exfalso].
    assert (d = 53) by lia.
    replace (d - 1) with 52 in Hl by lia.
    assert (2 ^ (- e) <= 2 ^ 51) by (apply Z.pow_le_mono_r; lia).
    change (2 ^ 52) with 4503599627370496 in Hl.
    change (2 ^ 51) with 2251799813685248 in *. lia.
Qed.

Lemma unit_confidence_rounds (c : number) :
  valid_binary prec emax c = true ->
  in_range 0 1 c = true ->
  exists n : N,
    (n <= 100)%N
    /\ Number_toString (Math_round (mul c (of_Z 100))) = decimal_digits n.
Proof.
  intros Hv Hr.
  destruct c as [s|s| |s m e]; try discriminate Hr.
  - exists 0%N. split; [lia|]. reflexivity.
  - cbn [valid_binary] in Hv.
    assert (Hs : s = false).
    { destruct s; [|reflexivity]. exfalso.
      unfold in_range in Hr. cbn [cond_Zopp Z.opp] in Hr.
      destruct (Z.leb_spec 0 e) as [He|He];
        apply andb_true_iff in Hr as [Hr _]; apply Z.leb_le in Hr.
      - assert (0 < 2 ^ e) by (apply Z.pow_pos_nonneg; lia). nia.
      - lia. }
    subst s.
    destruct (unit_interval_mag m e Hv Hr) as [He Hm].
    change (of_Z 100) with (S754_finite false 7036874417766400 (-46)).
    unfold mul, SFmul. cbn [xorb].
    pose proof (binary_round_aux_shape false (Zpos (m * 7036874417766400))
                  (e + -46) loc_Exact (Pos2Z.is_nonneg _)) as Hshape.
    assert (Hbound : mag_le (binary_round_aux prec emax false
                               (Zpos (m * 7036874417766400)) (e + -46)
                               loc_Exact)
                            7036874417766400 (-46)).
    { apply binary_round_aux_bound;
        [apply Pos2Z.is_pos | lia | | reflexivity].
      rewrite Pos2Z.inj_mul. replace (-46 - (e + -46)) with (- e) by lia.
      rewrite (Z.mul_comm (Zpos 7036874417766400)).
      apply Z.mul_le_mono_nonneg_r; [lia | exact Hm]. }
    destruct Hshape as [| |m' e' _]; cbn [mag_le] in Hbound;
      [| contradiction |].
    + exists 0%N. split; [lia|]. reflexivity.
    + destruct Hbound as [He' Hm']. cbn [Math_round cond_Zopp].
      destruct (Z.leb_spec 0 e') as [?|_]; [lia|].
      set (r := (2 * Zpos m' + 2 ^ (- e')) / 2 ^ (1 - e')).
      assert (Hr' : 0 <= r <= 100).
      { subst r.
        replace (- e') with (46 + (-46 - e')) by lia.
        replace (1 - e') with (47 + (-46 - e')) by lia.
        rewrite !Z.pow_add_r by lia.
        assert (HK : 0 < 2 ^ (-46 - e')) by (apply Z.pow_pos_nonneg; lia).
        set (K := 2 ^ (-46 - e')) in *.
        change (2 ^ 46) with 70368744177664.
        change (2 ^ 47) with 140737488355328.
        split.
        - apply Z.div_pos; lia.
        - apply Z.lt_succ_r, Z.div_lt_upper_bound; lia. }
      exists (Z.to_N r). split; [lia|].
      apply small_integer_prints. lia.
Qed.

(** X4: for a result whose confidence is between 0 and 1,
    [displayResults] shows a percentage that is a whole number from 0
    to 100, in plain decimal digits. *)
Theorem percent_of_unit_confidence (r : DiagnosisResult) (p : page) :
  valid_binary prec emax (confidence r) = true ->
  in_range 0 1 (confidence r) = true ->
  exists n : N,
    (n <= 100)%N
    /\ results_innerHTML (exec (displayResults (json_of r)) p)
       = two_block_fragment (diagnosis r) (decimal_digits n)
                            (recommendation r).
Proof.
  intros Hv Hr.
  destruct (unit_confidence_rounds (confidence r) Hv Hr) as (n & Hn & E).
  exists n. split; [exact Hn|].
  now rewrite displayResults_result, E.
Qed.

Lemma percent_of_unit_confidence_witness :
  valid_binary prec emax (confidence example_result) = true
  /\ in_range 0 1 (confidence example_result) = true
  /\ exists n : N,
       (n <= 100)%N
       /\ results_innerHTML
            (exec (displayResults (json_of example_result)) blank_page)
          = two_block_fragment (diagnosis example_result) (decimal_digits n)
                               (recommendation example_result).
Proof.
  split; [reflexivity|]. split; [reflexivity|].
  apply (percent_of_unit_confidence example_result blank_page); reflexivity.
Defined.

(** ** What the search button sends *)

Lemma trimStart_suffix (s : jsstring) :
  exists pre, s = pre ++ trimStart s /\ forallb is_white_space pre = true.
Proof.
  induction s as [|c s (pre & E & W)]; [now exists []|].
  cbn [trimStart]. destruct (is_white_space c) eqn:Wc.
  - exists (c :: pre). cbn. rewrite Wc, W. split; [now f_equal|reflexivity].
  - now exists [].
Qed.

Lemma trimStart_head (s rest : jsstring) (c : code_unit) :
  trimStart s = c :: rest -> is_white_space c = false.
Proof.
  induction s as [|d s IH]; [discriminate|].
  cbn [trimStart]. destruct (is_white_space d) eqn:Wd; [exact IH|].
  now intros [= <- _].
Qed.

Lemma trimStart_white (a s : jsstring) :
  forallb is_white_space a = true -> trimStart (a ++ s) = trimStart s.
Proof.
  induction a as [|c a IH]; [reflexivity|].
  cbn. intros H. apply andb_true_iff in H as [Hc Ha]. now rewrite Hc, IH.
Qed.

Lemma trimStart_app (s b : jsstring) :
  trimStart s <> [] -> trimStart (s ++ b) = trimStart s ++ b.
Proof.
  induction s as [|c s IH]; [intros H; now elim H|].
  cbn. destruct (is_white_space c); [exact IH | reflexivity].
Qed.

Lemma trimEnd_white (s b : jsstring) :
  forallb is_white_space b = true -> trimEnd (s ++ b) = trimEnd s.
Proof.
  intros H. unfold trimEnd. rewrite rev_app_distr, trimStart_white; [reflexivity|].
  rewrite forallb_forall in *. intros x Hx. apply H. now apply in_rev.
Qed.

Lemma trim_head (s rest : jsstring) (c : code_unit) :
  trim s = c :: rest -> is_white_space c = false.
Proof.
  unfold trim, trimEnd. intros H.
  destruct (trimStart_suffix (rev (trimStart s))) as (pre & E & _).
  apply (f_equal (@rev code_unit)) in E.
  rewrite rev_involutive, rev_app_distr, H in E.
  now apply trimStart_head in E.
Qed.

Lemma trim_last (s rest : jsstring) (c : code_unit) :
  trim s = rest ++ [c] -> is_white_space c = false.
Proof.
  unfold trim, trimEnd. intros H.
  apply (f_equal (@rev code_unit)) in H.
  rewrite rev_involutive, rev_app_distr in H. cbn in H.
  now apply trimStart_head in H.
Qed.

Lemma trim_surrounding (a s b : jsstring) :
  forallb is_white_space a = true -> forallb is_white_space b = true ->
  trim (a ++ s ++ b) = trim s.
Proof.
  intros Ha Hb. unfold trim. rewrite trimStart_white by exact Ha.
  destruct (trimStart s) as [|c t] eqn:E.
  - destruct (trimStart_suffix s) as (pre & Es & W). rewrite E, app_nil_r in Es.
    subst pre. rewrite <- (app_nil_r (s ++ b)), trimStart_white; [reflexivity|].
    rewrite forallb_app. now rewrite W, Hb.
  - rewrite trimStart_app by (rewrite E; discriminate).
    rewrite E. now apply trimEnd_white.
Qed.

(** X5: the search button leaves the field as it is, and the text it sends
    neither starts nor ends with white space; two field contents that
    differ only in white space around the text send the same request. *)
Theorem search_sends_trimmed_text
    (o : fetch_outcome) (p : page) (a b : jsstring) :
  forallb is_white_space a = true ->
  forallb is_white_space b = true ->
  let sent := trim (input_value p) in
  let padded :=
    {| container_classList := container_classList p;
       results_innerHTML := results_innerHTML p;
       input_value := a ++ input_value p ++ b;
       effects := effects p |} in
  input_value (exec (click SearchButton o) p) = input_value p
  /\ (forall c rest, sent = c :: rest -> is_white_space c = false)
  /\ (forall c rest, sent = rest ++ [c] -> is_white_space c = false)
  /\ requests (effects (exec (click SearchButton o) padded))
     = requests (effects (exec (click SearchButton o) p)).
Proof.
  intros Ha Hb sent padded. subst sent.
  split; [|split; [|split]].
  - cbn [click]. rewrite searchBtn_click_spec.
    destruct (truthy (trim (input_value p))); [|reflexivity].
    now rewrite exec_fetchSymptoms, settled_input, begin_input.
  - intros c rest H. now apply trim_head in H.
  - intros c rest H. now apply trim_last in H.
  - cbn [click]. rewrite !searchBtn_click_spec. subst padded.
    cbn [input_value]. rewrite (trim_surrounding a (input_value p) b Ha Hb).
    destruct (truthy (trim (input_value p))); [|reflexivity].
    now rewrite !fetchSymptoms_requests.
Qed.

Lemma search_sends_trimmed_text_witness :
  forallb is_white_space (lit "  ") = true
  /\ requests (effects (exec (click SearchButton (FetchRejected EngineTypeError))
                             {| container_classList := [];
                                results_innerHTML := [];
                                input_value := lit "  " ++ lit "cough" ++ lit " ";
                                effects := [] |}))
     = [(endpoint, request_init (lit "cough"))].
Proof.
  split; [reflexivity|].
  pose proof (search_sends_trimmed_text (FetchRejected EngineTypeError)
                {| container_classList := []; results_innerHTML := [];
                   input_value := lit "cough"; effects := [] |}
                (lit "  ") (lit " ") eq_refl eq_refl) as H.
  cbv zeta in H. destruct H as (_ & _ & _ & H).
  cbn [container_classList results_innerHTML input_value effects] in H.
  rewrite H. reflexivity.
Defined.

(** X6: a click on a tag and then on the search button.  The field
    holds the tag's text without its line breaks; the search reads that
    back, so the second request carries the tag's text without line
    breaks, trimmed, and none is sent if that is empty.  The first
    request carries the tag's text as it is. *)
Theorem search_after_tag_resends_trimmed
    (tag : symptom_tag) (o1 o2 : fetch_outcome) (p : page) :
  let after_tag := exec (click (SymptomTag tag) o1) p in
  let final := exec (click SearchButton o2) after_tag in
  let kept := strip_newlines (textContent tag) in
  input_value after_tag = kept
  /\ requests (effects final)
     = requests (effects p)
       ++ (endpoint, request_init (textContent tag))
       :: (if truthy (trim kept)
           then [(endpoint, request_init (trim kept))]
           else []).
Proof.
  intros after_tag final kept. subst final after_tag kept.
  assert (Hv : input_value (exec (click (SymptomTag tag) o1) p)
               = strip_newlines (textContent tag)).
  { cbn [click]. rewrite symptomTag_click_spec, exec_fetchSymptoms.
    now rewrite settled_input, begin_input. }
  split; [exact Hv|].
  cbn [click]. rewrite searchBtn_click_spec.
  change (exec (symptomTag_click tag o1) p)
    with (exec (click (SymptomTag tag) o1) p).
  rewrite Hv. cbn [click].
  destruct (truthy (trim (strip_newlines (textContent tag)))).
  - rewrite fetchSymptoms_requests, symptomTag_click_requests.
    now rewrite <- app_assoc.
  - now rewrite symptomTag_click_requests.
Qed.

(** A tag whose text is spread over lines: the field holds
    " Sore throat" and the search sends "Sore throat". *)
Example tag_text_with_line_breaks :
  let tag := {| textContent := nl ++ lit " Sore" ++ nl ++ lit " throat" ++ nl |} in
  let after_tag := exec (click (SymptomTag tag) (FetchRejected EngineTypeError))
                        blank_page in
  input_value after_tag = lit " Sore throat"
  /\ requests (effects (exec (click SearchButton (FetchRejected EngineTypeError))
                             after_tag))
     = [(endpoint, request_init (textContent tag));
        (endpoint, request_init (lit "Sore throat"))].
Proof. vm_compute. split; reflexivity. Qed.

End QueryProperties.

(* ================================================================== *)
(** * More on the tilt cards                                         *)
(* ================================================================== *)

Module TiltProperties.
Import JS Tilt FloatFacts TiltFacts ExactFacts.

(** ** Initializing once *)

Lemma handlers_keep_marks (c : card) (ev : card_event) :
  is_init ev = false ->
  tiltInit (card_step c ev) = tiltInit c
  /\ listeners (card_step c ev) = listeners c.
Proof.
  intros Hev.
  assert (H : forall h : card -> card,
             (forall d, tiltInit (h d) = tiltInit d
                        /\ listeners (h d) = listeners d) ->
             forall n d, tiltInit (Nat.iter n h d) = tiltInit d
                         /\ listeners (Nat.iter n h d) = listeners d).
  { intros h Hh n d. induction n as [|n [IH1 IH2]]; [now split|].
    rewrite Nat.iter_succ. destruct (Hh (Nat.iter n h d)) as [-> ->].
    now split. }
  destruct ev as [|l|l e|]; [discriminate| | |]; cbn [card_step];
    unfold dispatch; apply H; intros d; now split.
Qed.

(** X7: however often [initTiltCards] runs, and whatever events come in
    between, the listeners of a card are attached exactly once, by the
    first run, and the card carries the mark from then on. *)
Theorem listeners_attached_once (evs : list card_event) (c : card) :
  tiltInit c = false ->
  listeners c = 0%nat ->
  listeners (card_run evs c) = (if existsb is_init evs then 1 else 0)%nat
  /\ tiltInit (card_run evs c) = existsb is_init evs.
Proof.
  intros Hi Hl.
  assert (Hgen : forall evs c,
             (tiltInit c = false /\ listeners c = 0%nat
              \/ tiltInit c = true /\ listeners c = 1%nat) ->
             listeners (card_run evs c)
             = (if tiltInit c || existsb is_init evs then 1 else 0)%nat
             /\ tiltInit (card_run evs c) = tiltInit c || existsb is_init evs).
  { clear. induction evs as [|ev evs IH]; intros c Hc.
    - cbn. rewrite orb_false_r.
      destruct Hc as [[-> ->]|[-> ->]]; now split.
    - cbn [card_run fold_left existsb].
      change (fold_left card_step evs (card_step c ev))
        with (card_run evs (card_step c ev)).
      destruct (is_init ev) eqn:Hev.
      + destruct ev; try discriminate. cbn [card_step].
        assert (Hc' : tiltInit (initTiltCard c) = true
                      /\ listeners (initTiltCard c) = 1%nat).
        { unfold initTiltCard.
          destruct Hc as [[Ht Hn]|[Ht Hn]]; rewrite Ht; cbn; [|now split].
          now rewrite Hn. }
        destruct (IH (initTiltCard c) (or_intror Hc')) as [E1 E2].
        destruct Hc' as [Ht Hn]. rewrite Ht in E1, E2. cbn [orb] in E1, E2.
        rewrite E1, E2, orb_true_r. now split.
      + destruct (handlers_keep_marks c ev Hev) as [Ht Hn].
        assert (Hc' : tiltInit (card_step c ev) = false
                      /\ listeners (card_step c ev) = 0%nat
                      \/ tiltInit (card_step c ev) = true
                         /\ listeners (card_step c ev) = 1%nat)
          by (rewrite Ht, Hn; exact Hc).
        destruct (IH _ Hc') as [E1 E2]. rewrite Ht in E1, E2.
        cbn [orb]. now split. }
  destruct (Hgen evs c (or_introl (conj Hi Hl))) as [E1 E2].
  rewrite Hi in E1, E2. exact (conj E1 E2).
Qed.

Lemma listeners_attached_once_witness :
  listeners (card_run [InitCards; PointerEnter sample_rect; InitCards]
               {| tiltInit := false; listeners := 0; transform := [];
                  transition := []; boxShadow := []; var_px := [];
                  var_py := []; var_g := []; rect := None |})
  = 1%nat.
Proof.
  apply (listeners_attached_once
           [InitCards; PointerEnter sample_rect; InitCards]
           {| tiltInit := false; listeners := 0; transform := [];
              transition := []; boxShadow := []; var_px := [];
              var_py := []; var_g := []; rect := None |});
    reflexivity.
Defined.

(** ** The box is measured once per hover *)

Lemma move_all_keeps_rect (moves : list (DOMRect * move_event))
    (c : card) (r : DOMRect) :
  rect c = Some r -> rect (move_all moves c) = Some r.
Proof.
  revert c. induction moves as [|m moves IH]; intros c Hr; [exact Hr|].
  cbn [move_all fold_left]. apply IH. cbn [handleMove rect]. now rewrite Hr.
Qed.

(** X8: after the pointer has entered, every move is computed from the box
    the card had when it entered, whatever its box is by then; after it
    has left, the first move measures the box anew and the following
    ones keep that measure. *)
Theorem moves_use_box_at_enter
    (at_enter now_ first : DOMRect) (moves : list (DOMRect * move_event))
    (e : move_event) (c : card) :
  let hovered := move_all moves (handleEnter at_enter c) in
  let again := move_all moves (handleMove first e (handleLeave c)) in
  rect hovered = Some at_enter
  /\ transform (handleMove now_ e hovered)
     = transform_of (tilt_of (event_clientX e) (event_clientY e) at_enter)
  /\ rect (handleLeave hovered) = None
  /\ rect again = Some first
  /\ transform (handleMove now_ e again)
     = transform_of (tilt_of (event_clientX e) (event_clientY e) first).
Proof.
  intros hovered again.
  assert (H1 : rect hovered = Some at_enter)
    by (apply move_all_keeps_rect; reflexivity).
  assert (H2 : rect again = Some first)
    by (apply move_all_keeps_rect; reflexivity).
  repeat split; try assumption.
  - cbn [handleMove transform]. now rewrite H1.
  - cbn [handleMove transform]. now rewrite H2.
Qed.

(** ** Positions that cannot be normalized *)

Lemma tilt_at_nan_x (y : number) :
  cx (tilt_at NaN y) = NaN
  /\ rotateY (tilt_at NaN y) = NaN
  /\ g (tilt_at NaN y) = NaN.
Proof. repeat split. Qed.

(** X9: a move event without a position (a touch event whose list of
    touches is empty) makes every number NaN, whatever the box: the
    clamp passes NaN on, and the strings written are not valid CSS
    values. *)
Theorem move_without_position_writes_nan (layout : DOMRect) (c : card) :
  let c' := handleMove layout (TouchMove []) c in
  transform c'
  = lit "perspective(1000px) rotateX(NaNdeg) rotateY(NaNdeg) scale(1.03)"
  /\ var_px c' = lit "NaN%"
  /\ var_py c' = lit "NaN%"
  /\ var_g c' = lit "NaN".
Proof. repeat split. Qed.

Lemma sub_self (x : number) : finite x = true -> sub x x = S754_zero false.
Proof.
  destruct x as [s|s| |s m e]; try discriminate; intros _; unfold sub, SFsub.
  - now destruct s.
  - now rewrite Z.sub_diag.
Qed.

(** X10: a box of width zero with the pointer on its left edge gives 0 / 0:
    the horizontal position, the rotation about the vertical axis and
    the glare are NaN. *)
Theorem zero_width_box_gives_nan
    (x : number) (clientY : option number) (r : DOMRect) (s : bool) :
  finite x = true ->
  left r = x ->
  width r = S754_zero s ->
  let t := tilt_of (Some x) clientY r in
  cx t = NaN /\ rotateY t = NaN /\ g t = NaN
  /\ Number_toString (rotateY t) = lit "NaN".
Proof.
  intros Hx Hl Hw t. subst t. rewrite tilt_of_normalized.
  assert (E : normalized (Some x) (left r) (width r) = NaN).
  { unfold normalized, coordinate. rewrite Hl, Hw, sub_self by exact Hx.
    reflexivity. }
  rewrite E. repeat split.
Qed.

Lemma zero_width_box_gives_nan_witness :
  finite (of_Z 100) = true
  /\ rotateY (tilt_of (Some (of_Z 100)) (Some (of_Z 60))
                {| left := of_Z 100; top := of_Z 50;
                   width := S754_zero false; height := of_Z 100 |})
     = NaN.
Proof.
  split; [reflexivity|].
  apply (zero_width_box_gives_nan (of_Z 100) (Some (of_Z 60))
           {| left := of_Z 100; top := of_Z 50;
              width := S754_zero false; height := of_Z 100 |} false);
    reflexivity.
Defined.

(** ** Outside the box the tilt saturates *)

Lemma clamp_before_start (x : number) :
  at_or_before_start x = true -> clamp x = S754_zero false.
Proof.
  unfold clamp. rewrite zero_eq, one_eq.
  destruct x as [s|[|]| |[|] m e]; try discriminate; intros _; reflexivity.
Qed.

Lemma clamp_beyond_end (x : number) :
  at_or_beyond_end x = true -> clamp x = of_Z 1.
Proof.
  unfold at_or_beyond_end, SFleb, clamp, Math_min. rewrite zero_eq, one_eq.
  destruct (SFcompare (S754_finite false 4503599627370496 (-52)) x)
    as [[| |]|] eqn:E; try discriminate; intros _.
  - destruct x; reflexivity.
  - reflexivity.
Qed.

Lemma whole_exact (n : Z) (x : number) :
  whole n x = true ->
  in_range n n x = true /\ Z.abs n <= 1125899906842624.
Proof.
  unfold whole. intros H. apply andb_true_iff in H as [H1 H2].
  apply Z.leb_le in H2. now split.
Qed.

(** In whole pixels, a pointer at or before the near edge of the box
    has a normalized position that is zero or negative, and one at or
    beyond the far edge a normalized position of at least one. *)
Lemma normalized_before_start (c origin size : number) (a l w : Z) :
  whole a c = true -> whole l origin = true -> whole w size = true ->
  0 < w -> a <= l ->
  at_or_before_start (normalized (Some c) origin size) = true.
Proof.
  intros Hc Ho Hs Hw Hle.
  apply whole_exact in Hc as [Hc Ba], Ho as [Ho Bl], Hs as [Hs _].
  unfold normalized, coordinate.
  pose proof (sub_exact c origin a l Hc Ho ltac:(lia)) as Hd.
  destruct (div_nonpositive _ _ _ _ Hd Hs ltac:(lia) Hw) as [[s ->]|H];
    [reflexivity|].
  destruct H; reflexivity.
Qed.

Lemma normalized_beyond_end (c origin size : number) (a l w : Z) :
  whole a c = true -> whole l origin = true -> whole w size = true ->
  0 < w -> l + w <= a ->
  at_or_beyond_end (normalized (Some c) origin size) = true.
Proof.
  intros Hc Ho Hs Hw Hle.
  apply whole_exact in Hc as [Hc Ba], Ho as [Ho Bl], Hs as [Hs _].
  unfold normalized, coordinate, at_or_beyond_end.
  pose proof (sub_exact c origin a l Hc Ho ltac:(lia)) as Hd.
  apply (div_at_least_one _ _ (a - l) w Hd Hs Hw). lia.
Qed.

(** X11: outside the box the tilt saturates.  On a layout in whole
    pixels (the pointer at [(x, y)], the left top corner of the box at
    [(l, t)], the box [w] wide and [h] high, sizes up to 2^50), a
    pointer at or to the left of the left edge, however far, gives
    position 0, written as "0%", and a rotation about the vertical axis
    of exactly -10 degrees; at or to the right of the right edge it
    gives position 1, "100%", and exactly 10 degrees.  Likewise for the
    top and bottom edges, with 10 and -10 degrees about the horizontal
    axis. *)
Theorem tilt_saturates_outside
    (layout : DOMRect) (e : move_event) (c : card) (x y l t w h : Z) :
  whole_pixels e (match rect c with Some r => r | None => layout end)
               x y l t w h = true ->
  let c' := handleMove layout e c in
  let tl := tilt_of (event_clientX e) (event_clientY e)
                    (match rect c with Some r => r | None => layout end) in
  transform c' = transform_of tl
  /\ (x <= l ->
      var_px c' = lit "0%" /\ cx tl = pos_zero /\ rotateY tl = of_Z (-10))
  /\ (l + w <= x ->
      var_px c' = lit "100%" /\ cx tl = of_Z 1 /\ rotateY tl = of_Z 10)
  /\ (y <= t ->
      var_py c' = lit "0%" /\ cy tl = pos_zero /\ rotateX tl = of_Z 10)
  /\ (t + h <= y ->
      var_py c' = lit "100%" /\ cy tl = of_Z 1 /\ rotateX tl = of_Z (-10)).
Proof.
  intros H c' tl. subst c' tl.
  cbn [handleMove transform var_px var_py].
  set (r := match rect c with Some r => r | None => layout end) in *.
  unfold whole_pixels in H. revert H.
  destruct (event_clientX e) as [clientX|]; [|discriminate].
  destruct (event_clientY e) as [clientY|]; [|discriminate].
  intros H.
  apply andb_true_iff in H as [H Hh]. apply Z.ltb_lt in Hh.
  apply andb_true_iff in H as [H Hw]. apply Z.ltb_lt in Hw.
  apply andb_true_iff in H as [H Wh].
  apply andb_true_iff in H as [H Ww].
  apply andb_true_iff in H as [H Wt].
  apply andb_true_iff in H as [H Wl].
  apply andb_true_iff in H as [Wx Wy].
  rewrite tilt_of_normalized. unfold tilt_at. cbn [cx cy rotateX rotateY].
  split; [reflexivity|].
  split; [|split; [|split]].
  - intros Hle.
    rewrite (clamp_before_start _
               (normalized_before_start _ _ _ x l w Wx Wl Ww Hw Hle)).
    repeat split; reflexivity.
  - intros Hle.
    rewrite (clamp_beyond_end _
               (normalized_beyond_end _ _ _ x l w Wx Wl Ww Hw Hle)).
    repeat split; reflexivity.
  - intros Hle.
    rewrite (clamp_before_start _
               (normalized_before_start _ _ _ y t h Wy Wt Wh Hh Hle)).
    repeat split; reflexivity.
  - intros Hle.
    rewrite (clamp_beyond_end _
               (normalized_beyond_end _ _ _ y t h Wy Wt Wh Hh Hle)).
    repeat split; reflexivity.
Qed.

(** An instance: the pointer to the right of and above the sample box. *)
Lemma tilt_saturates_outside_witness :
  whole_pixels (MouseMove (of_Z 500) (of_Z (-20))) sample_rect
               500 (-20) 100 50 200 100 = true
  /\ var_px (handleMove sample_rect (MouseMove (of_Z 500) (of_Z (-20)))
                        fresh_card) = lit "100%"
  /\ var_py (handleMove sample_rect (MouseMove (of_Z 500) (of_Z (-20)))
                        fresh_card) = lit "0%"
  /\ rotateY (tilt_of (Some (of_Z 500)) (Some (of_Z (-20))) sample_rect)
     = of_Z 10
  /\ rotateX (tilt_of (Some (of_Z 500)) (Some (of_Z (-20))) sample_rect)
     = of_Z 10.
Proof.
  pose proof (tilt_saturates_outside sample_rect
                (MouseMove (of_Z 500) (of_Z (-20))) fresh_card
                500 (-20) 100 50 200 100 eq_refl) as H.
  cbv zeta in H. destruct H as (_ & _ & Hx & Hy & _).
  destruct (Hx ltac:(lia)) as (Hpx & _ & Hry).
  destruct (Hy ltac:(lia)) as (Hpy & _ & Hrx).
  repeat split; assumption.
Defined.

(** ** The position of the glare *)

Lemma mul_hundred_in_range (c : number) :
  clamped c -> in_range 0 100 (mul c (of_Z 100)) = true.
Proof.
  intros [->|[->|(m & e & -> & H)]]; [reflexivity | reflexivity |].
  change (of_Z 100) with (S754_finite false 7036874417766400 (-46)).
  unfold mul, SFmul. cbn [xorb].
  assert (He : e <= -52 /\ Zpos m <= 2 ^ (- e)).
  { destruct H as [[He Hm]|[-> Hm]].
    - split; [lia|]. apply Z.lt_le_incl, Z.lt_le_trans with (1 := Hm).
      apply Z.pow_le_mono_r; lia.
    - split; [lia|]. apply Z.lt_le_incl. exact Hm. }
  clear H. destruct He as [He Hm].
  pose proof (binary_round_aux_shape false (Zpos (m * 7036874417766400))
                (e + -46) loc_Exact (Pos2Z.is_nonneg _)) as Hshape.
  assert (Hbound : mag_le (binary_round_aux prec emax false
                             (Zpos (m * 7036874417766400)) (e + -46) loc_Exact)
                          7036874417766400 (-46)).
  { apply binary_round_aux_bound; [apply Pos2Z.is_pos | lia | | reflexivity].
    rewrite Pos2Z.inj_mul. replace (-46 - (e + -46)) with (- e) by lia.
    rewrite (Z.mul_comm (Zpos 7036874417766400)).
    apply Z.mul_le_mono_nonneg_r; [lia | exact Hm]. }
  destruct Hshape as [| |m' e' _]; cbn [mag_le] in Hbound;
    [reflexivity | contradiction |].
  destruct Hbound as [He' Hm']. unfold in_range. cbn [cond_Zopp].
  destruct (Z.leb_spec 0 e') as [?|_]; [lia|].
  replace (- e') with (46 + (-46 - e')) by lia.
  rewrite Z.pow_add_r by lia.
  assert (HK : 0 < 2 ^ (-46 - e')) by (apply Z.pow_pos_nonneg; lia).
  set (K := 2 ^ (-46 - e')) in *.
  change (2 ^ 46) with 70368744177664.
  apply andb_true_iff. split; apply Z.leb_le; lia.
Qed.

(** X12: for an event with a position and a box with a positive width and
    height, the numbers written before the percent signs of [--px] and
    [--py] are between 0 and 100. *)
Theorem glare_position_within_card
    (layout : DOMRect) (e : move_event) (c : card) :
  has_position e = true ->
  laid_out (match rect c with Some r => r | None => layout end) = true ->
  let r := match rect c with Some r => r | None => layout end in
  let t := tilt_of (event_clientX e) (event_clientY e) r in
  var_px (handleMove layout e c)
  = Number_toString (mul (cx t) (of_Z 100)) ++ lit "%"
  /\ var_py (handleMove layout e c)
     = Number_toString (mul (cy t) (of_Z 100)) ++ lit "%"
  /\ in_range 0 100 (mul (cx t) (of_Z 100)) = true
  /\ in_range 0 100 (mul (cy t) (of_Z 100)) = true.
Proof.
  intros He Hr r t.
  split; [reflexivity|]. split; [reflexivity|].
  subst t. fold r in Hr. unfold has_position in He.
  destruct (event_clientX e) as [x|]; [|discriminate].
  destruct (event_clientY e) as [y|]; [|discriminate].
  apply andb_true_iff in He as [Hx Hy].
  unfold laid_out in Hr.
  apply andb_true_iff in Hr as [Hr Hh].
  apply andb_true_iff in Hr as [Hr Hw].
  apply andb_true_iff in Hr as [Hl Ht].
  rewrite tilt_of_normalized. unfold tilt_at. cbn [cx cy].
  split; apply mul_hundred_in_range, clamp_clamped, normalized_wf; assumption.
Qed.

Lemma glare_position_within_card_witness :
  has_position (MouseMove (of_Z 500) (of_Z (-20))) = true
  /\ laid_out sample_rect = true
  /\ in_range 0 100
       (mul (cx (tilt_of (Some (of_Z 500)) (Some (of_Z (-20))) sample_rect))
            (of_Z 100)) = true.
Proof.
  pose proof (glare_position_within_card sample_rect
                (MouseMove (of_Z 500) (of_Z (-20))) fresh_card
                eq_refl eq_refl) as H.
  cbv zeta in H. destruct H as (_ & _ & Hx & _).
  repeat split; assumption.
Defined.

End TiltProperties.

(* ================================================================== *)
(** * More on the hero animation                                     *)
(* ================================================================== *)

Module HeroProperties.
Import JS Hero HeroFacts QueryFacts.

(** X13: without a [.hero-gradient] element the script registers nothing
    either, whatever the motion preference: no timer, no listener, no
    write, at any later time. *)
Theorem no_hero_no_animation
    (prefersReduce : bool) (classes : list jsstring) (w : window) :
  steps (periodicHeroAnimation prefersReduce false (loaded classes)) w ->
  w = loaded classes.
Proof.
  intros Hs.
  assert (E : periodicHeroAnimation prefersReduce false (loaded classes)
              = loaded classes) by now destruct prefersReduce.
  rewrite E in Hs. now apply steps_without_timers in Hs.
Qed.

Lemma no_hero_no_animation_witness :
  steps (periodicHeroAnimation false false (loaded [])) (loaded [])
  /\ loaded [] = loaded [].
Proof.
  split; [apply steps_refl|].
  apply (no_hero_no_animation false [] (loaded [])). apply steps_refl.
Defined.

(** ** Only [hero-animate] is touched *)

Lemma in_removed (token t : jsstring) (l : list jsstring) :
  t <> token ->
  (In t (filter (fun u => negb (jsstring_eqb token u)) l) <-> In t l).
Proof.
  intros Hne. rewrite filter_In. split; [now intros [H _]|].
  intros H. split; [exact H|].
  destruct (jsstring_eqb token t) eqn:E; [|reflexivity].
  apply jsstring_eqb_eq in E. congruence.
Qed.

Lemma in_added (token t : jsstring) (l : list jsstring) :
  t <> token ->
  (In t (if existsb (jsstring_eqb token) l then l else l ++ [token])
   <-> In t l).
Proof.
  intros Hne. destruct (existsb (jsstring_eqb token) l); [reflexivity|].
  rewrite in_app_iff. cbn. intuition congruence.
Qed.

Lemma call_classes (cb : callback) (w : window) (t : jsstring) :
  t <> hero_animate ->
  (In t (hero_classList (call cb w)) <-> In t (hero_classList w)).
Proof.
  intros Hne. destruct cb; cbn [call setTimeout set_timer classList_add
                                classList_remove hero_classList].
  - now rewrite in_added, in_removed.
  - now apply in_removed.
Qed.

Lemma call_effects (cb : callback) (w : window) :
  Forall (about hero_animate) (effects w) ->
  Forall (about hero_animate) (effects (call cb w)).
Proof.
  intros H. destruct cb; cbn [call setTimeout set_timer classList_add
                              classList_remove effects];
    repeat (apply Forall_app; split); try assumption;
    repeat constructor.
Qed.

Lemma step_classes (w w' : window) (t : jsstring) :
  step w w' -> t <> hero_animate ->
  (In t (hero_classList w') <-> In t (hero_classList w)).
Proof.
  intros [w0 tm _|w0] Hne; [|reflexivity].
  unfold fire. now rewrite call_classes.
Qed.

Lemma step_effects (w w' : window) :
  step w w' ->
  Forall (about hero_animate) (effects w) ->
  Forall (about hero_animate) (effects w').
Proof.
  intros [w0 tm _|w0] H; [|exact H].
  unfold fire. now apply call_effects.
Qed.

(** X14: whatever the preference and however long the page lives, the script
    adds and removes no class but [hero-animate]: every other class of
    the hero element stays as the page was loaded. *)
Theorem animation_touches_only_its_class
    (prefersReduce hero : bool) (classes : list jsstring) (w : window)
    (t : jsstring) :
  steps (periodicHeroAnimation prefersReduce hero (loaded classes)) w ->
  t <> hero_animate ->
  (In t (hero_classList w) <-> In t classes)
  /\ Forall (about hero_animate) (effects w).
Proof.
  intros Hs Hne.
  assert (H0 : hero_classList
                 (periodicHeroAnimation prefersReduce hero (loaded classes))
               = classes
               /\ effects
                    (periodicHeroAnimation prefersReduce hero (loaded classes))
                  = []).
  { destruct prefersReduce, hero; now split. }
  destruct H0 as [Hc He].
  induction Hs as [w|w1 w2 w3 _ IH Hstep].
  - rewrite Hc, He. split; [reflexivity | constructor].
  - destruct IH as [IH1 IH2]; try assumption.
    split.
    + now rewrite (step_classes w2 w3 t Hstep Hne).
    + now apply (step_effects w2 w3).
Qed.

Lemma animation_touches_only_its_class_witness :
  steps (periodicHeroAnimation false true (loaded [lit "hero-gradient"]))
        (periodicHeroAnimation false true (loaded [lit "hero-gradient"]))
  /\ lit "hero-gradient" <> hero_animate
  /\ Forall (about hero_animate)
       (effects (periodicHeroAnimation false true (loaded [lit "hero-gradient"]))).
Proof.
  split; [apply steps_refl|]. split; [discriminate|].
  apply (animation_touches_only_its_class false true [lit "hero-gradient"]
           _ (lit "hero-gradient") (steps_refl _)).
  discriminate.
Defined.

(** ** Unloading stops the interval *)

Lemma filter_filter_length {A} (p q : A -> bool) (l : list A) :
  (List.length (filter p (filter q l)) <= List.length (filter p l))%nat.
Proof.
  induction l as [|a l IH]; [reflexivity|].
  cbn. destruct (q a); cbn; destruct (p a); cbn; lia.
Qed.

Lemma filter_filter_length_lt {A} (p q : A -> bool) (l : list A) (a : A) :
  In a l -> p a = true -> q a = false ->
  (List.length (filter p (filter q l)) < List.length (filter p l))%nat.
Proof.
  intros Hin Hp Hq. induction l as [|b l IH]; [destruct Hin|].
  destruct Hin as [->|Hin].
  - cbn. rewrite Hq, Hp. cbn.
    pose proof (filter_filter_length p q l). lia.
  - specialize (IH Hin). cbn. destruct (q b); cbn; destruct (p b); cbn; lia.
Qed.

(** The timers after [t] has fired: those that were pending under
    another id, [t] again if it is an interval, and the timeout that
    removes the class if [t] played. *)
Lemma fire_timers (t : timer) (w : window) :
  timers (fire t w)
  = filter (fun u => negb (Nat.eqb (id u) (id t))) (timers w)
    ++ match every t with
       | Some period =>
           [{| id := id t; due := Z.max (now w) (due t) + period;
               every := every t; run := run t |}]
       | None => []
       end
    ++ match run t with
       | playOnce =>
           [{| id := next_id w;
               due := Z.max (now w) (due t) + REMOVE_AFTER_MS;
               every := None; run := removeClass |}]
       | removeClass => []
       end.
Proof.
  unfold fire.
  destruct (run t), (every t);
    cbn [call setTimeout set_timer classList_add classList_remove timers now
         next_id];
    rewrite <- ?app_assoc, ?app_nil_r; reflexivity.
Qed.

Lemma fire_clear_on_unload (t : timer) (w : window) :
  clear_on_unload (fire t w) = clear_on_unload w.
Proof. unfold fire. now destruct (run t). Qed.

Lemma fire_adds (t : timer) (w : window) :
  adds (effects (fire t w))
  = adds (effects w) ++ (if plays t then [hero_animate] else []).
Proof.
  unfold fire, plays.
  destruct (run t);
    cbn [call setTimeout set_timer classList_add classList_remove effects];
    unfold adds; rewrite ?flat_map_app; cbn; now rewrite ?app_nil_r.
Qed.

Lemma step_tidy (w w' : window) : step w w' -> tidy w -> tidy w'.
Proof.
  intros [w0 t Hin|w0] [H1 H2]; split.
  - intros u Hu Hi. rewrite fire_clear_on_unload.
    rewrite fire_timers in Hu. apply in_app_or in Hu as [Hu|Hu].
    + apply filter_In in Hu as [Hu _]. now apply H1.
    + apply in_app_or in Hu as [Hu|Hu].
      * destruct (every t) as [period|] eqn:E; [|destruct Hu].
        destruct Hu as [<-|[]]. cbn [id]. apply H1; [exact Hin|].
        unfold is_interval. now rewrite E.
      * destruct (run t); [|destruct Hu].
        destruct Hu as [<-|[]]. discriminate Hi.
  - rewrite fire_timers, !filter_app, !length_app.
    assert (Hre : List.length
                    (filter one_shot_play
                       match every t with
                       | Some period =>
                           [{| id := id t;
                               due := Z.max (now w0) (due t) + period;
                               every := every t; run := run t |}]
                       | None => []
                       end) = 0%nat).
    { destruct (every t) as [period|] eqn:E; [|reflexivity].
      cbn. unfold one_shot_play, is_interval. cbn [every negb].
      now rewrite andb_false_r. }
    assert (Hnew : List.length
                     (filter one_shot_play
                        match run t with
                        | playOnce =>
                            [{| id := next_id w0;
                                due := Z.max (now w0) (due t) + REMOVE_AFTER_MS;
                                every := None; run := removeClass |}]
                        | removeClass => []
                        end) = 0%nat)
      by now destruct (run t).
    rewrite Hre, Hnew.
    pose proof (filter_filter_length one_shot_play
                  (fun u => negb (Nat.eqb (id u) (id t))) (timers w0)).
    lia.
  - intros u Hu Hi. cbn [beforeunload timers clear_on_unload] in *.
    apply filter_In in Hu as [Hu _]. now apply H1.
  - cbn [beforeunload timers].
    pose proof (filter_filter_length one_shot_play
                  (fun u => negb (existsb (Nat.eqb (id u)) (clear_on_unload w0)))
                  (timers w0)).
    lia.
Qed.

Lemma start_tidy (prefersReduce hero : bool) (classes : list jsstring) :
  tidy (periodicHeroAnimation prefersReduce hero (loaded classes)).
Proof.
  assert (Hempty : tidy (loaded classes)).
  { split; cbn; [intros t [] | lia]. }
  destruct prefersReduce, hero; try exact Hempty.
  split; cbn; [|lia].
  intros u [<-|[<-|[]]]; cbn; [discriminate | intros _; now left].
Qed.

Lemma unload_no_interval (w : window) :
  tidy w -> no_interval (beforeunload w) /\ (pending_plays (beforeunload w) <= 1)%nat.
Proof.
  intros [H1 H2].
  assert (Hn : no_interval (beforeunload w)).
  { intros t Ht. cbn [beforeunload timers] in Ht.
    apply filter_In in Ht as [Ht Hc].
    destruct (is_interval t) eqn:E; [|reflexivity].
    specialize (H1 t Ht E).
    assert (Hex : existsb (Nat.eqb (id t)) (clear_on_unload w) = true).
    { apply existsb_exists. exists (id t). split; [exact H1|].
      apply Nat.eqb_refl. }
    rewrite Hex in Hc. discriminate. }
  split; [exact Hn|].
  unfold pending_plays.
  rewrite (filter_ext_in plays one_shot_play).
  - cbn [beforeunload timers].
    pose proof (filter_filter_length one_shot_play
                  (fun u => negb (existsb (Nat.eqb (id u)) (clear_on_unload w)))
                  (timers w)).
    lia.
  - intros t Ht. unfold one_shot_play. rewrite (Hn t Ht). cbn.
    now rewrite andb_true_r.
Qed.

Lemma step_after_unload (w w' : window) :
  step w w' -> no_interval w ->
  no_interval w'
  /\ (List.length (adds (effects w')) + pending_plays w'
      <= List.length (adds (effects w)) + pending_plays w)%nat.
Proof.
  intros [w0 t Hin|w0] Hn.
  - assert (Ht : every t = None).
    { specialize (Hn t Hin). unfold is_interval in Hn.
      destruct (every t); [discriminate | reflexivity]. }
    split.
    + intros u Hu. rewrite fire_timers, Ht in Hu. cbn [app] in Hu.
      apply in_app_or in Hu as [Hu|Hu].
      * apply filter_In in Hu as [Hu _]. now apply Hn.
      * destruct (run t); [|destruct Hu]. now destruct Hu as [<-|[]].
    + rewrite fire_adds, length_app. unfold pending_plays.
      rewrite fire_timers, Ht. cbn [app]. rewrite filter_app, length_app.
      assert (Hnew : List.length
                       (filter plays
                          match run t with
                          | playOnce =>
                              [{| id := next_id w0;
                                  due := Z.max (now w0) (due t) + REMOVE_AFTER_MS;
                                  every := None; run := removeClass |}]
                          | removeClass => []
                          end) = 0%nat)
        by now destruct (run t).
      rewrite Hnew.
      destruct (plays t) eqn:Hp.
      * assert (Hq : negb (Nat.eqb (id t) (id t)) = false)
          by now rewrite Nat.eqb_refl.
        pose proof (filter_filter_length_lt plays
                      (fun u => negb (Nat.eqb (id u) (id t))) (timers w0) t
                      Hin Hp Hq) as Hlt.
        cbn [List.length]. lia.
      * pose proof (filter_filter_length plays
                      (fun u => negb (Nat.eqb (id u) (id t))) (timers w0)).
        cbn [List.length]. lia.
  - split.
    + intros u Hu. cbn [beforeunload timers] in Hu.
      apply filter_In in Hu as [Hu _]. now apply Hn.
    + unfold pending_plays. cbn [beforeunload timers effects].
      pose proof (filter_filter_length plays
                    (fun u => negb (existsb (Nat.eqb (id u)) (clear_on_unload w0)))
                    (timers w0)).
      lia.
Qed.

Lemma steps_tidy (w w' : window) : steps w w' -> tidy w -> tidy w'.
Proof.
  intros Hs. induction Hs as [w|w1 w2 w3 _ IH Hstep]; [auto|].
  intros H. apply (step_tidy w2 w3 Hstep). now apply IH.
Qed.

Lemma steps_after_unload (w w' : window) :
  steps w w' -> no_interval w ->
  no_interval w'
  /\ (List.length (adds (effects w')) + pending_plays w'
      <= List.length (adds (effects w)) + pending_plays w)%nat.
Proof.
  intros Hs. induction Hs as [w|w1 w2 w3 _ IH Hstep]; intros Hn.
  - split; [exact Hn | lia].
  - destruct (IH Hn) as [Hn2 Hle].
    destruct (step_after_unload w2 w3 Hstep Hn2) as [Hn3 Hle3].
    split; [exact Hn3 | lia].
Qed.

(** X15: once [beforeunload] has been dispatched the interval is gone for
    good: no later state has a repeating timer, and the animation plays
    at most once more (the first timeout, if it was still pending). *)
Theorem unload_stops_the_interval
    (prefersReduce hero : bool) (classes : list jsstring) (w1 w3 : window) :
  steps (periodicHeroAnimation prefersReduce hero (loaded classes)) w1 ->
  steps (beforeunload w1) w3 ->
  (forall t, In t (timers w3) -> is_interval t = false)
  /\ (List.length (adds (effects w3)) <= List.length (adds (effects w1)) + 1)%nat.
Proof.
  intros H1 H3.
  pose proof (steps_tidy _ _ H1 (start_tidy prefersReduce hero classes)) as Ht.
  destruct (unload_no_interval w1 Ht) as [Hn Hp].
  destruct (steps_after_unload _ _ H3 Hn) as [Hn3 Hle].
  split; [exact Hn3|].
  cbn [beforeunload effects] in Hle. lia.
Qed.

Lemma unload_stops_the_interval_witness :
  steps (periodicHeroAnimation false true (loaded []))
        (periodicHeroAnimation false true (loaded []))
  /\ (forall t,
         In t (timers (beforeunload (periodicHeroAnimation false true (loaded []))))
         -> is_interval t = false).
Proof.
  split; [apply steps_refl|].
  apply (unload_stops_the_interval false true []
           (periodicHeroAnimation false true (loaded []))
           (beforeunload (periodicHeroAnimation false true (loaded [])))
           (steps_refl _) (steps_refl _)).
Defined.

(** ** The class never stays on *)

Lemma fire_next_id (t : timer) (w : window) :
  (next_id w <= next_id (fire t w))%nat.
Proof. unfold fire. destruct (run t); cbn; lia. Qed.

Lemma fire_classes (t : timer) (w : window) :
  hero_classList (fire t w)
  = match run t with
    | playOnce =>
        let l := filter (fun u => negb (jsstring_eqb hero_animate u))
                        (hero_classList w) in
        if existsb (jsstring_eqb hero_animate) l then l
        else l ++ [hero_animate]
    | removeClass =>
        filter (fun u => negb (jsstring_eqb hero_animate u)) (hero_classList w)
    end.
Proof. unfold fire. now destruct (run t). Qed.

Lemma not_in_removed (token : jsstring) (l : list jsstring) :
  ~ In token (filter (fun u => negb (jsstring_eqb token u)) l).
Proof.
  intros H. apply filter_In in H as [_ H].
  now rewrite jsstring_eqb_refl in H.
Qed.

Lemma step_covered (w w' : window) : step w w' -> covered w -> covered w'.
Proof.
  intros [w0 t Hin|w0] (Hc & Hr & Hp).
  - split; [|split].
    + intros i Hi. rewrite fire_clear_on_unload in Hi.
      pose proof (fire_next_id t w0). specialize (Hc i Hi). lia.
    + intros u Hu Hrun. rewrite fire_clear_on_unload.
      rewrite fire_timers in Hu. apply in_app_or in Hu as [Hu|Hu].
      * apply filter_In in Hu as [Hu _]. now apply Hr.
      * apply in_app_or in Hu as [Hu|Hu].
        -- destruct (every t) as [period|] eqn:E; [|destruct Hu].
           destruct Hu as [<-|[]]. cbn [run] in Hrun.
           destruct (Hr t Hin Hrun) as [E' _]. congruence.
        -- destruct (run t); [|destruct Hu].
           destruct Hu as [<-|[]]. cbn [every id]. split; [reflexivity|].
           intros Hi. specialize (Hc _ Hi). lia.
    + rewrite fire_classes. destruct (run t) eqn:Hrun.
      * intros _. eexists. split; [|split].
        -- rewrite fire_timers, Hrun. apply in_or_app. right.
           apply in_or_app. right. now left.
        -- reflexivity.
        -- reflexivity.
      * intros H. now apply not_in_removed in H.
  - split; [|split].
    + exact Hc.
    + intros u Hu Hrun. cbn [beforeunload timers clear_on_unload] in *.
      apply filter_In in Hu as [Hu _]. now apply Hr.
    + intros H. destruct (Hp H) as (u & Hu & Hrun & He).
      exists u. split; [|now split].
      cbn [beforeunload timers]. apply filter_In. split; [exact Hu|].
      destruct (Hr u Hu Hrun) as [_ Hn].
      destruct (existsb (Nat.eqb (id u)) (clear_on_unload w0)) eqn:Ex;
        [|reflexivity].
      apply existsb_exists in Ex as (i & Hi & Heq).
      apply Nat.eqb_eq in Heq. subst i. contradiction.
Qed.

Lemma start_covered (prefersReduce hero : bool) (classes : list jsstring) :
  ~ In hero_animate classes ->
  covered (periodicHeroAnimation prefersReduce hero (loaded classes)).
Proof.
  intros Hno.
  assert (Hempty : covered (loaded classes)).
  { split; [|split]; cbn; [intros i [] | intros u [] | contradiction]. }
  destruct prefersReduce, hero; try exact Hempty.
  split; [|split]; cbn.
  - intros i [<-|[]]. lia.
  - intros u [<-|[<-|[]]]; discriminate.
  - contradiction.
Qed.

(** X16: if the page does not load with the class on the hero element,
    then at any later time, also after [beforeunload], whenever the
    class is on, a timeout that takes it off is pending. *)
Theorem class_on_means_removal_pending
    (prefersReduce hero : bool) (classes : list jsstring) (w : window) :
  ~ In hero_animate classes ->
  steps (periodicHeroAnimation prefersReduce hero (loaded classes)) w ->
  In hero_animate (hero_classList w) ->
  exists u, In u (timers w) /\ run u = removeClass /\ every u = None.
Proof.
  intros Hno Hs.
  assert (Hc : covered w).
  { pose proof (start_covered prefersReduce hero classes Hno) as H0.
    induction Hs as [w|w1 w2 w3 _ IH Hstep]; [exact H0|].
    apply (step_covered w2 w3 Hstep). now apply IH. }
  destruct Hc as (_ & _ & Hp). exact Hp.
Qed.

Lemma class_on_means_removal_pending_witness :
  let started := periodicHeroAnimation false true (loaded []) in
  let played :=
    fire {| id := 1; due := 220; every := None; run := playOnce |} started in
  steps started played
  /\ In hero_animate (hero_classList played)
  /\ exists u, In u (timers played) /\ run u = removeClass /\ every u = None.
Proof.
  assert (Hs : steps (periodicHeroAnimation false true (loaded []))
                 (fire {| id := 1; due := 220; every := None; run := playOnce |}
                       (periodicHeroAnimation false true (loaded [])))).
  { eapply steps_more; [apply steps_refl|]. apply step_fire. now left. }
  assert (Hin : In hero_animate
                  (hero_classList
                     (fire {| id := 1; due := 220; every := None;
                              run := playOnce |}
                           (periodicHeroAnimation false true (loaded [])))))
    by now left.
  split; [exact Hs|]. split; [exact Hin|].
  apply (class_on_means_removal_pending false true [] _ (fun H => H) Hs Hin).
Defined.

End HeroProperties.

(* ================================================================== *)
(** * The anchor click handler                                       *)
(* ================================================================== *)

Module ScrollFacts.
Import JS Scroll QueryFacts ExactFacts.

(** X17: [handleClick] takes a click over from the browser exactly when it is
    on a link whose [href] is [#] followed by a non-empty id that some
    element of the document has (compared as written, without
    decoding).  It then prevents the default, scrolls once, smoothly,
    and pushes the [href] unchanged; in every other case (no link, no
    [href], an empty one, another page, a bare [#], no such element) it
    does nothing at all. *)
Theorem handleClick_takes_over_in_page_links
    (doc : document) (e : click_event) :
  (In PreventDefault (handleClick doc e)
   <-> exists id top,
         id <> []
         /\ closest_anchor e = Some (Some (35%N :: id))
         /\ getElementById (elements doc) id = Some top)
  /\ (handleClick doc e = []
      \/ exists href top,
           closest_anchor e = Some (Some href)
           /\ handleClick doc e
              = [PreventDefault; ScrollTo top (lit "smooth"); PushState href]).
Proof.
  unfold handleClick.
  destruct (closest_anchor e) as [[href|]|].
  2: { split; [|now left]. split; [intros [] | intros (? & ? & _ & H & _)];
       discriminate. }
  2: { split; [|now left]. split; [intros [] | intros (? & ? & _ & H & _)];
       discriminate. }
  destruct href as [|c rest].
  { split; [|now left]. split; [intros [] | intros (? & ? & _ & H & _)];
    discriminate. }
  cbn [truthy negb orb starts_with_hash].
  destruct (N.eqb_spec c 35) as [->|Hc]; cbn [negb orb].
  2: { split; [|now left]. split; [intros [] | intros (? & ? & _ & [= ? _] & _)];
       congruence. }
  destruct rest as [|d rest].
  { change (jsstring_eqb [35%N] (lit "#")) with true. cbn [negb orb].
    split; [|now left].
    split; [intros [] | intros (id & ? & Hne & [= <-] & _); now elim Hne]. }
  change (jsstring_eqb (35%N :: d :: rest) (lit "#")) with false.
  cbn [skipn].
  destruct (getElementById (elements doc) (d :: rest)) as [top|] eqn:G.
  - split.
    + split; [|intros _; now left].
      intros _. exists (d :: rest), top. repeat split; [discriminate | exact G].
    + right. eexists _, _. split; reflexivity.
  - split; [|now left].
    split; [intros [] | intros (id & top & _ & [= <-] & H)]. congruence.
Qed.

Lemma getHeaderHeight_exact (doc : document) (H : Z) :
  match nav_height doc with
  | Some h => in_range H H h = true
  | None => H = 56
  end ->
  Z.abs H < 9007199254740992 ->
  in_range H H (getHeaderHeight doc) = true.
Proof.
  unfold getHeaderHeight. destruct (nav_height doc) as [h|].
  - apply Math_ceil_exact.
  - now intros -> _.
Qed.

(** X18: on a layout in whole pixels, a click on a link to [#id] scrolls to
    the position of the target in the document ([top] of its box plus
    [scrollY]) less the height of the floating header, or 56 if there is
    no such header, less 8 more: exactly that integer, no rounding
    error.  Sizes up to 2^50 pixels. *)
Theorem scroll_target_on_whole_pixels
    (doc : document) (e : click_event) (id : jsstring) (top : number)
    (a b H : Z) :
  closest_anchor e = Some (Some (35%N :: id)) ->
  id <> [] ->
  getElementById (elements doc) id = Some top ->
  in_range a a top = true ->
  in_range b b (scrollY doc) = true ->
  match nav_height doc with
  | Some h => in_range H H h = true
  | None => H = 56
  end ->
  Z.abs a <= 1125899906842624 ->
  Z.abs b <= 1125899906842624 ->
  Z.abs H <= 1125899906842624 ->
  exists t,
    handleClick doc e
    = [PreventDefault; ScrollTo t (lit "smooth"); PushState (35%N :: id)]
    /\ in_range (a + b - H - 8) (a + b - H - 8) t = true.
Proof.
  intros Ha Hid Hg Htop Hy Hnav Ba Bb BH.
  unfold handleClick. rewrite Ha.
  destruct id as [|c rest]; [now elim Hid|].
  change (negb (truthy (35%N :: c :: rest))
          || negb (starts_with_hash (35%N :: c :: rest))
          || jsstring_eqb (35%N :: c :: rest) (lit "#")) with false.
  cbn [skipn]. rewrite Hg.
  eexists. split; [reflexivity|].
  apply Math_round_exact; [|lia].
  apply sub_exact; [|reflexivity|lia].
  apply sub_exact; [| |lia].
  - apply add_exact; [exact Htop | exact Hy | lia].
  - apply getHeaderHeight_exact; [exact Hnav | lia].
Qed.

Lemma scroll_target_on_whole_pixels_witness :
  exists t,
    handleClick
      {| nav_height := None;
         elements := [(lit "about", of_Z 900)];
         scrollY := of_Z 300 |}
      {| closest_anchor := Some (Some (lit "#about")) |}
    = [PreventDefault; ScrollTo t (lit "smooth"); PushState (lit "#about")]
    /\ in_range 1136 1136 t = true.
Proof.
  apply (scroll_target_on_whole_pixels
           {| nav_height := None;
              elements := [(lit "about", of_Z 900)];
              scrollY := of_Z 300 |}
           {| closest_anchor := Some (Some (lit "#about")) |}
           (lit "about") (of_Z 900) 900 300 56);
    try reflexivity; try discriminate; cbn; lia.
Defined.

End ScrollFacts.
